(** * fusion-data utility scripts: a shallow embedding and its properties

    Two scripts are modelled:
    - [hetumind/hetumind-nodes/fix_node_definitions.py] (module [ScriptA]),
      a text rewriting tool built from [re.sub], [re.finditer] and
      hand-written bracket scanners;
    - [scripts/py-tools/b64_json-2-image.py] (module [ScriptB]), which
      extracts a Base64 payload from a JSON document and writes the decoded
      bytes to a file.

    Python strings are sequences of Unicode code points; a character is the
    number of its code point.  The library functions the scripts call
    ([str.strip], [re], [json.loads], [base64.b64decode]) are modelled after
    CPython 3.11. *)

From Stdlib Require Import List NArith ZArith Bool Lia String Ascii Arith.
From Stdlib.Strings Require Import Byte.
Import ListNotations.

Local Open Scope N_scope.
Local Open Scope list_scope.

(* ================================================================== *)
(** * Python strings *)
(* ================================================================== *)

Module Py.

(** A character is a code point, a [str] a list of them. *)
Definition char := N.
Definition str := list char.

Definition ch (a : ascii) : char := N_of_ascii a.

(** The string literal ["..."] of the source, for ASCII literals. *)
Definition py (s : string) : str := map ch (list_ascii_of_string s).

(** The double quote, which a Rocq string literal cannot hold undoubled. *)
Definition dquote : char := 34.

Definition len (s : str) : nat := List.length s.

(** [s[a:b]], [s[a:]] and [s[:b]] for indices [0 <= a], [0 <= b]. *)
Definition slice (s : str) (a b : nat) : str := firstn (b - a) (skipn a s).
Definition slice_from (s : str) (a : nat) : str := skipn a s.
Definition slice_to (s : str) (b : nat) : str := firstn b s.

(** [s.startswith(p)] *)
Fixpoint startswith (p s : str) : bool :=
  match p, s with
  | [], _ => true
  | _ :: _, [] => false
  | a :: p', b :: s' => (a =? b) && startswith p' s'
  end.

(** [needle in hay] *)
Fixpoint contains (needle hay : str) : bool :=
  startswith needle hay ||
  match hay with
  | [] => false
  | _ :: hay' => contains needle hay'
  end.

(** [separator.join(items)] *)
Fixpoint join (sep : str) (items : list str) : str :=
  match items with
  | [] => []
  | [x] => x
  | x :: rest => x ++ sep ++ join sep rest
  end.

(** [Py_UNICODE_ISSPACE]: the characters [str.strip()] removes and [\s]
    matches in a [str] pattern. *)
Definition is_space (c : char) : bool :=
  ((9 <=? c) && (c <=? 13)) || ((28 <=? c) && (c <=? 32)) ||
  (c =? 133) || (c =? 160) || (c =? 5760) ||
  ((8192 <=? c) && (c <=? 8202)) || (c =? 8232) || (c =? 8233) ||
  (c =? 8239) || (c =? 8287) || (c =? 12288).

Fixpoint lstrip (s : str) : str :=
  match s with
  | [] => []
  | c :: s' => if is_space c then lstrip s' else s
  end.

Definition rstrip (s : str) : str := rev (lstrip (rev s)).

(** [s.strip()] *)
Definition strip (s : str) : str := rstrip (lstrip s).

(** Truth value of a string: non-empty. *)
Definition truthy (s : str) : bool :=
  match s with [] => false | _ :: _ => true end.

Fixpoint str_eqb (a b : str) : bool :=
  match a, b with
  | [], [] => true
  | x :: a', y :: b' => (x =? y) && str_eqb a' b'
  | _, _ => false
  end.

End Py.
Import Py.

(* ================================================================== *)
(** * Regular expressions: the backtracking matcher of [re] *)
(* ================================================================== *)

Module Re.

(** The constructs the two scripts use.  Repetition is only ever applied to
    a single character class, so [Rep] carries the class; [Rep g m p] is
    [p*] or [p+] ([m] = 0 or 1), greedy when [g] and lazy ([*?]) otherwise.
    Groups are numbered by the order in which they close, which for these
    patterns (no nesting) is the order of their opening parenthesis. *)
Inductive regex : Type :=
| Lit (c : char)                              (* an escaped or plain literal *)
| Cls (p : char -> bool)                      (* a character class *)
| Bol                                         (* ^ without MULTILINE *)
| Cat (r1 r2 : regex)
| Rep (greedy : bool) (min : nat) (p : char -> bool)
| Grp (r : regex)                             (* ( ... ) *)
| Ahead (r : regex).                          (* (?= ... ) *)

(** A run of literals. *)
Fixpoint lits (s : str) : regex :=
  match s with
  | [] => Rep true 0 (fun _ => false)
  | [c] => Lit c
  | c :: s' => Cat (Lit c) (lits s')
  end.

(** Matcher state: characters consumed since the start of the attempt, the
    text that remains, and the groups closed so far. *)
Record mstate : Type := MState {
  ms_used : nat;
  ms_rest : str;
  ms_caps : list str
}.

(** Repetition of a class, in continuation-passing style: the greedy form
    tries the longer match first, the lazy one the shorter. *)
Fixpoint rep (greedy : bool) (p : char -> bool) (min : nat)
         (k : mstate -> option mstate)
         (used : nat) (caps : list str) (s : str) {struct s} : option mstate :=
  let stop := match min with
              | O => k (MState used s caps)
              | S _ => None
              end in
  match s with
  | [] => stop
  | c :: s' =>
      if p c then
        let more := rep greedy p (pred min) k (S used) caps s' in
        if greedy then
          match more with Some r => Some r | None => stop end
        else
          match stop with Some r => Some r | None => more end
      else stop
  end.

(** [rmatch r k st]: match [r] at [st] and continue with [k]; [None] makes
    the caller backtrack.  [at_start] says whether the attempt begins at
    position 0 of the subject. *)
Fixpoint rmatch (at_start : bool) (r : regex) (k : mstate -> option mstate)
         (st : mstate) {struct r} : option mstate :=
  match r with
  | Lit c =>
      match ms_rest st with
      | x :: t => if x =? c then k (MState (S (ms_used st)) t (ms_caps st))
                  else None
      | [] => None
      end
  | Cls p =>
      match ms_rest st with
      | x :: t => if p x then k (MState (S (ms_used st)) t (ms_caps st))
                  else None
      | [] => None
      end
  | Bol => if at_start && (ms_used st =? 0)%nat then k st else None
  | Cat r1 r2 => rmatch at_start r1 (rmatch at_start r2 k) st
  | Rep g m p => rep g p m k (ms_used st) (ms_caps st) (ms_rest st)
  | Grp r1 =>
      rmatch at_start r1
        (fun st' =>
           k (MState (ms_used st') (ms_rest st')
                (ms_caps st' ++
                 [firstn (ms_used st' - ms_used st) (ms_rest st)])))
        st
  | Ahead r1 =>
      match rmatch at_start r1 (fun st' => Some st') st with
      | Some _ => k st
      | None => None
      end
  end.

(** One attempt at one position: the length of the match and its groups.
    [must_advance] refuses an empty match (the attempt made right after an
    empty match at the same position). *)
Definition attempt (r : regex) (at_start must_advance : bool) (s : str)
  : option (nat * list str) :=
  match rmatch at_start r
          (fun st => if must_advance && (ms_used st =? 0)%nat then None
                     else Some st)
          (MState 0 s [])
  with
  | Some st => Some (ms_used st, ms_caps st)
  | None => None
  end.

(** A match object: [m.start()], [m.end()] and [m.group(1)], [m.group(2)]... *)
Record rmatch_obj : Type := Match {
  m_start : nat;
  m_end : nat;
  m_groups : list str
}.

Definition group (m : rmatch_obj) (i : nat) : str := nth (i - 1) (m_groups m) [].

(** [re.finditer(r, s)]: leftmost matches, none overlapping.  [skip] counts
    the characters of the previous match still to pass. *)
Fixpoint finditer_from (r : regex) (pos skip : nat) (s : str) {struct s}
  : list rmatch_obj :=
  match skip with
  | S k =>
      match s with
      | [] => []
      | _ :: s' => finditer_from r (S pos) k s'
      end
  | O =>
      let step :=
        match s with
        | [] => []
        | _ :: s' => finditer_from r (S pos) 0 s'
        end in
      let after n :=
        match s with
        | [] => []
        | _ :: s' => finditer_from r (S pos) (n - 1) s'
        end in
      match attempt r (pos =? 0)%nat false s with
      | None => step
      | Some (O, g) =>
          Match pos pos g ::
          match attempt r (pos =? 0)%nat true s with
          | Some (n, g') => Match pos (pos + n) g' :: after n
          | None => step
          end
      | Some (n, g) => Match pos (pos + n) g :: after n
      end
  end.

Definition finditer (r : regex) (s : str) : list rmatch_obj :=
  finditer_from r 0 0 s.

(** [re.sub(r, repl, s)] with [repl] a function of the match's groups (a
    replacement string is the constant function). *)
Fixpoint sub_from (r : regex) (repl : list str -> str) (at_start : bool)
         (skip : nat) (s : str) {struct s} : str :=
  match skip with
  | S k =>
      match s with
      | [] => []
      | _ :: s' => sub_from r repl false k s'
      end
  | O =>
      let step :=
        match s with
        | [] => []
        | c :: s' => c :: sub_from r repl false 0 s'
        end in
      let after n :=
        match s with
        | [] => []
        | _ :: s' => sub_from r repl false (n - 1) s'
        end in
      match attempt r at_start false s with
      | None => step
      | Some (O, g) =>
          repl g ++
          match attempt r at_start true s with
          | Some (n, g') => repl g' ++ after n
          | None => step
          end
      | Some (n, g) => repl g ++ after n
      end
  end.

Definition sub (r : regex) (repl : list str -> str) (s : str) : str :=
  sub_from r repl true 0 s.

End Re.
Import Re.

(* ================================================================== *)
(** * Script A: [fix_node_definitions.py] *)
(* ================================================================== *)

Module ScriptA.

(** [cat_all [r1; ...; rn]] is the pattern [r1 ... rn]. *)
Fixpoint cat_all (rs : list regex) : regex :=
  match rs with
  | [] => lits []
  | [r] => r
  | r :: rs' => Cat r (cat_all rs')
  end.

Definition is_char (a : ascii) (c : char) : bool := c =? ch a.
Definition not_char (a : ascii) (c : char) : bool := negb (c =? ch a).

(** Whitespace runs [\s*] and [\s+]. *)
Definition ws_star : regex := Rep true 0 is_space.
Definition ws_plus : regex := Rep true 1 is_space.

(** ** The patterns, in the order of the source *)

(** [r'\.version\(([^)]+)\)'] *)
Definition version_pattern : regex :=
  cat_all [lits (py ".version("); Grp (Rep true 1 (not_char ")")); Lit (ch ")")].

(** [r'\.inputs\(\[([^\]]+)\]\)'] *)
Definition inputs_pattern : regex :=
  cat_all [lits (py ".inputs(["); Grp (Rep true 1 (not_char "]")); lits (py "])")].

(** [r'\.outputs\(\[([^\]]+)\]\)'] *)
Definition outputs_pattern : regex :=
  cat_all [lits (py ".outputs(["); Grp (Rep true 1 (not_char "]")); lits (py "])")].

(** [r'\.properties\(\['] *)
Definition properties_pattern : regex := lits (py ".properties([").

(** [r'NodePropertyKindOptions::builder\(\)([^.]*?)(?=\s*[,)])'].  The
    flag [re.DOTALL] only changes the meaning of an unescaped dot outside a
    class, and the pattern has none. *)
Definition kind_options_pattern : regex :=
  cat_all [lits (py "NodePropertyKindOptions::builder()");
           Grp (Rep false 0 (not_char "."));
           Ahead (Cat ws_star (Cls (fun c => is_char "," c || is_char ")" c)))].

(** [r'NodeProperty::builder\(\)'] *)
Definition builder_pattern : regex := lits (py "NodeProperty::builder()").

(** [r'let\s+definition\s*=\s*base\?\s*;'] *)
Definition base_pattern : regex :=
  cat_all [lits (py "let"); ws_plus; lits (py "definition"); ws_star;
           Lit (ch "="); ws_star; lits (py "base?"); ws_star; Lit (ch ";")].

(** [r'NodeDefinition::new\(\s*"([^"]+)"\s*,\s*"([^"]+)"\s*\)'] *)
Definition not_dquote (c : char) : bool := negb (c =? dquote).
Definition new_pattern : regex :=
  cat_all [lits (py "NodeDefinition::new("); ws_star;
           Lit dquote; Grp (Rep true 1 not_dquote); Lit dquote; ws_star;
           Lit (ch ","); ws_star;
           Lit dquote; Grp (Rep true 1 not_dquote); Lit dquote; ws_star;
           Lit (ch ")")].

(** ** Steps 1 to 3: plain substitutions *)

(** Step 1: the [.version(...)] call is dropped. *)
Definition fix_version (content : str) : str :=
  sub version_pattern (fun _ => []) content.

(** Step 2: [lambda m: f'.add_input({m.group(1).strip()})'] *)
Definition add_input (groups : list str) : str :=
  py ".add_input(" ++ strip (nth 0 groups []) ++ py ")".

Definition fix_inputs (content : str) : str :=
  sub inputs_pattern add_input content.

(** Step 3: [lambda m: f'.add_output({m.group(1).strip()})'] *)
Definition add_output (groups : list str) : str :=
  py ".add_output(" ++ strip (nth 0 groups []) ++ py ")".

Definition fix_outputs (content : str) : str :=
  sub outputs_pattern add_output content.

(** ** Step 4: [.properties([...])] *)

(** The [while pos < len(content)] loop that looks for the closing bracket;
    [s] is [content[pos:]].  The result is [end_pos], [None] when the loop
    runs off the end of the text. *)
Fixpoint find_end_pos (s : str) (pos : nat) (bracket_count : Z) : option nat :=
  match s with
  | [] => None
  | c :: s' =>
      if c =? ch "[" then find_end_pos s' (S pos) (bracket_count + 1)
      else if c =? ch "]" then
        if (bracket_count - 1 =? 0)%Z then Some (pos + 2)%nat
        else find_end_pos s' (S pos) (bracket_count - 1)
      else find_end_pos s' (S pos) bracket_count
  end.

(** The splitting loop over [properties_content[1 : len - 1]]; both of its
    branches advance [i] by one.  It returns [properties_items] and
    [current_item] as they are when the loop ends. *)
Fixpoint split_loop (chars : str) (properties_items : list str)
         (bracket_count paren_count : Z) (current_item : str)
  : list str * str :=
  match chars with
  | [] => (properties_items, current_item)
  | char :: rest =>
      let current_item := current_item ++ [char] in
      if char =? ch "[" then
        split_loop rest properties_items (bracket_count + 1) paren_count current_item
      else if char =? ch "]" then
        split_loop rest properties_items (bracket_count - 1) paren_count current_item
      else if char =? ch "(" then
        split_loop rest properties_items bracket_count (paren_count + 1) current_item
      else if char =? ch ")" then
        split_loop rest properties_items bracket_count (paren_count - 1) current_item
      else if (char =? ch ",") && (bracket_count =? 0)%Z && (paren_count =? 0)%Z then
        split_loop rest (properties_items ++ [strip (removelast current_item)])
                   bracket_count paren_count []
      else
        split_loop rest properties_items bracket_count paren_count current_item
  end.

(** [properties_items] after the loop and the handling of the last item. *)
Definition split_items (properties_content : str) : list str :=
  let '(properties_items, current_item) :=
    split_loop (slice properties_content 1 (len properties_content - 1)) [] 0 0 [] in
  if truthy (strip current_item)
  then properties_items ++ [strip current_item]
  else properties_items.

(** [new_calls]: one [.add_property(item)] per non-blank item. *)
Fixpoint build_calls (properties_items : list str) : str :=
  match properties_items with
  | [] => []
  | item :: rest =>
      (if truthy (strip item)
       then py ".add_property(" ++ strip item ++ py ")"
       else []) ++ build_calls rest
  end.

(** The body of the [for match in reversed(properties_matches)] loop. *)
Definition rewrite_properties (content : str) (m : rmatch_obj) : str :=
  let start_pos := m_start m in
  match find_end_pos (slice_from content (m_end m - 1)) (m_end m - 1) 0 with
  | Some end_pos =>
      let properties_content := slice content (m_end m - 1) (end_pos - 1) in
      let new_calls := build_calls (split_items properties_content) in
      slice_to content start_pos ++ new_calls ++ slice_from content end_pos
  | None => content
  end.

Definition fix_properties (content : str) : str :=
  fold_left rewrite_properties (rev (finditer properties_pattern content)) content.

(** ** Step 5: [NodePropertyKindOptions::builder()] *)

(** [lambda m: f'NodePropertyKindOptions::builder(){m.group(1)}.build()'] *)
Definition add_kind_build (groups : list str) : str :=
  py "NodePropertyKindOptions::builder()" ++ nth 0 groups [] ++ py ".build()".

Definition fix_kind_options (content : str) : str :=
  sub kind_options_pattern add_kind_build content.

(** ** Step 6: [NodeProperty::builder()] *)

Definition is_terminator (c : char) : bool :=
  (c =? ch ",") || (c =? ch ";") || (c =? ch "}") || (c =? ch "]").

(** The [while pos < len(content) and dot_chain] loop ([dot_chain] is never
    cleared); [s] is [content[pos:]] and the result the final [pos]. *)
Fixpoint scan_chain (s : str) (pos : nat) (paren_count : Z) : nat :=
  match s with
  | [] => pos
  | c :: s' =>
      if c =? ch "(" then scan_chain s' (S pos) (paren_count + 1)
      else if c =? ch ")" then scan_chain s' (S pos) (paren_count - 1)
      else if (c =? ch ".") && (paren_count =? 0)%Z then scan_chain s' (S pos) paren_count
      else if is_terminator c && (paren_count =? 0)%Z then pos
      else scan_chain s' (S pos) paren_count
  end.

(** The body of the [for match in reversed(builder_matches)] loop. *)
Definition ensure_build (content : str) (m : rmatch_obj) : str :=
  let start_pos := m_end m in
  let pos := scan_chain (slice_from content start_pos) start_pos 0 in
  let chain_content := slice content start_pos pos in
  if negb (contains (py ".build()") chain_content)
  then slice_to content pos ++ py ".build()" ++ slice_from content pos
  else content.

Definition fix_builders (content : str) : str :=
  fold_left ensure_build (rev (finditer builder_pattern content)) content.

(** ** Step 7: [base?] *)

Definition fix_base (content : str) : str :=
  sub base_pattern (fun _ => py "let definition = base;") content.

(** ** Step 8: the version argument of [NodeDefinition::new] *)

Definition add_version (content : str) (m : rmatch_obj) : str :=
  let node_type := group m 1 in
  let display_name := group m 2 in
  let new_call :=
    py "NodeDefinition::new(" ++ [dquote] ++ node_type ++ [dquote] ++ py ", " ++
    [dquote] ++ display_name ++ [dquote] ++ py ", Version::new(1, 0, 0))" in
  slice_to content (m_start m) ++ new_call ++ slice_from content (m_end m).

Definition fix_new (content : str) : str :=
  fold_left add_version (rev (finditer new_pattern content)) content.

(** ** The whole transformation and the file it is applied to *)

Definition transform (content : str) : str :=
  fix_new (fix_base (fix_builders (fix_kind_options
    (fix_properties (fix_outputs (fix_inputs (fix_version content))))))).

(** The eight rules, for statements that range over them. *)
Definition rules : list (str -> str) :=
  [fix_version; fix_inputs; fix_outputs; fix_properties;
   fix_kind_options; fix_builders; fix_base; fix_new].

(** What the function prints. *)
Inductive message : Type :=
| Fixing (file_path : string)       (* "fixing file: ..." *)
| Fixed (file_path : string)        (* "fixed file: ..." *)
| NoFixNeeded (file_path : string). (* "file needs no fix: ..." *)

Inductive event : Type :=
| Printed (m : message)
| ReadFile (file_path : string)
| WriteFile (file_path : string) (content : str).

(** The files.  Two paths can name one file (a link, or a second name):
    [inode] gives the file that a path names and [text] the text of each
    file, as [f.read()] returns it.  [readable] tells on which paths
    [open(_, 'r')] and the read succeed (the file can be opened and is
    UTF-8), [writable] on which paths [open(_, 'w')] succeeds.  The script makes and removes no file, so only
    [text] changes. *)
Record filesystem : Type := FS {
  inode : string -> nat;
  text : nat -> str;
  readable : string -> bool;
  writable : string -> bool
}.

Record world : Type := World {
  fs : filesystem;
  trace : list event
}.

(** What reading the path gives, when it can be read. *)
Definition files (d : filesystem) (file_path : string) : option str :=
  if readable d file_path then Some (text d (inode d file_path)) else None.

Inductive outcome : Type :=
| Return (b : bool)
| Raises.     (* [open] or the read raised (an [OSError], or a
                 [UnicodeDecodeError] for a file that is not UTF-8);
                 the caller [main] catches it *)

(** [f.write(content)] on the file that [file_path] names. *)
Definition write_file (d : filesystem) (file_path : string) (content : str)
  : filesystem :=
  FS (inode d)
     (fun i => if (i =? inode d file_path)%nat then content else text d i)
     (readable d) (writable d).

Definition fix_node_definition_file (w : world) (file_path : string)
  : world * outcome :=
  let t0 := trace w ++ [Printed (Fixing file_path)] in
  match files (fs w) file_path with
  | None => (World (fs w) t0, Raises)
  | Some original_content =>
      let t1 := t0 ++ [ReadFile file_path] in
      let content := transform original_content in
      if negb (str_eqb content original_content) then
        if writable (fs w) file_path then
          (World (write_file (fs w) file_path content)
                 (t1 ++ [WriteFile file_path content; Printed (Fixed file_path)]),
           Return true)
        else (World (fs w) t1, Raises)
      else
        (World (fs w) (t1 ++ [Printed (NoFixNeeded file_path)]), Return false)
  end.

End ScriptA.

(* ================================================================== *)
(** * [json.loads] *)
(* ================================================================== *)

Module Json.

(** The Python values [json.loads] builds.  A number is held as its
    lexeme (the script never computes with one).  A [dict] is held as the
    pairs of the object in document order; of two pairs with one key the
    later wins. *)
#[local] Unset Elimination Schemes.
Inductive value : Type :=
| PyNone
| PyBool (b : bool)
| PyNum (lexeme : str)
| PyStr (s : str)
| PyList (items : list value)
| PyDict (pairs : list (str * value)).
#[local] Set Elimination Schemes.

(** [d[key]] for a dict built by [dict(pairs)]. *)
Fixpoint dict_get (pairs : list (str * value)) (key : str) : option value :=
  match pairs with
  | [] => None
  | (k, v) :: rest =>
      match dict_get rest key with
      | Some v' => Some v'
      | None => if str_eqb k key then Some v else None
      end
  end.

(** [WHITESPACE = r'[ \t\n\r]*'] *)
Definition is_ws (c : char) : bool :=
  (c =? 32) || (c =? 9) || (c =? 10) || (c =? 13).

Fixpoint skip_ws (s : str) : str :=
  match s with
  | [] => []
  | c :: s' => if is_ws c then skip_ws s' else s
  end.

Definition is_digit (c : char) : bool := (48 <=? c) && (c <=? 57).

Definition hex_digit (c : char) : option N :=
  if is_digit c then Some (c - 48)
  else if (97 <=? c) && (c <=? 102) then Some (c - 87)
  else if (65 <=? c) && (c <=? 70) then Some (c - 55)
  else None.

Definition hex4 (a b c d : char) : option N :=
  match hex_digit a, hex_digit b, hex_digit c, hex_digit d with
  | Some x, Some y, Some z, Some w => Some (((x * 16 + y) * 16 + z) * 16 + w)
  | _, _, _, _ => None
  end.

(** [BACKSLASH]: the one-letter escapes. *)
Definition backslash (c : char) : option char :=
  if c =? dquote then Some dquote
  else if c =? ch "\" then Some (ch "\")
  else if c =? ch "/" then Some (ch "/")
  else if c =? ch "b" then Some 8
  else if c =? ch "f" then Some 12
  else if c =? ch "n" then Some 10
  else if c =? ch "r" then Some 13
  else if c =? ch "t" then Some 9
  else None.

(** [scanstring] in strict mode, from the character after the opening
    quote: the decoded string and the text after the closing quote.  [None]
    is a [JSONDecodeError]. *)
Fixpoint scanstring (s : str) (chunks : str) {struct s} : option (str * str) :=
  match s with
  | [] => None
  | c :: t =>
      if c =? dquote then Some (chunks, t)
      else if c =? ch "\" then
        match t with
        | [] => None
        | esc :: t1 =>
            if esc =? ch "u" then
              match t1 with
              | h1 :: h2 :: h3 :: h4 :: t2 =>
                  match hex4 h1 h2 h3 h4 with
                  | None => None
                  | Some uni =>
                      if (55296 <=? uni) && (uni <=? 56319) then
                        match t2 with
                        | b :: u :: t3 =>
                            if (b =? ch "\") && (u =? ch "u") then
                              match t3 with
                              | g1 :: g2 :: g3 :: g4 :: t4 =>
                                  match hex4 g1 g2 g3 g4 with
                                  | None => None
                                  | Some uni2 =>
                                      if (56320 <=? uni2) && (uni2 <=? 57343) then
                                        scanstring t4
                                          (chunks ++
                                           [65536 + ((uni - 55296) * 1024 + (uni2 - 56320))])
                                      else scanstring t2 (chunks ++ [uni])
                                  end
                              | _ => None
                              end
                            else scanstring t2 (chunks ++ [uni])
                        | _ => scanstring t2 (chunks ++ [uni])
                        end
                      else scanstring t2 (chunks ++ [uni])
                  end
              | _ => None
              end
            else
              match backslash esc with
              | Some c' => scanstring t1 (chunks ++ [c'])
              | None => None
              end
        end
      else if c <=? 31 then None
      else scanstring t (chunks ++ [c])
  end.

Fixpoint digits (s : str) : str * str :=
  match s with
  | [] => ([], [])
  | c :: s' =>
      if is_digit c then let '(ds, r) := digits s' in (c :: ds, r)
      else ([], s)
  end.

(** [NUMBER_RE], matched at the head of [s]: an optional minus sign, then
    [0] or a non-zero digit followed by digits, then an optional fraction
    [\.\d+] and an optional exponent [[eE][-+]?\d+].  The result is the
    lexeme and the rest of the text. *)
Definition match_number (s : str) : option (str * str) :=
  let '(sign, s1) :=
    match s with
    | c :: t => if c =? ch "-" then ([c], t) else ([], s)
    | [] => ([], s)
    end in
  match s1 with
  | [] => None
  | c :: t =>
      if is_digit c then
        let '(int_part, r) :=
          if c =? ch "0" then ([c], t)
          else let '(ds, r) := digits t in (c :: ds, r) in
        let '(frac, r1) :=
          match r with
          | dot :: d :: r' =>
              if (dot =? ch ".") && is_digit d
              then let '(ds, r2) := digits r' in (dot :: d :: ds, r2)
              else ([], r)
          | _ => ([], r)
          end in
        let exp_digits (pre : str) (e : str) : option (str * str) :=
          match e with
          | d :: e' =>
              if is_digit d
              then let '(ds, r3) := digits e' in Some (pre ++ d :: ds, r3)
              else None
          | [] => None
          end in
        let '(exp, r4) :=
          match r1 with
          | e :: r' =>
              if (e =? ch "e") || (e =? ch "E") then
                let signed :=
                  match r' with
                  | sg :: r'' =>
                      if (sg =? ch "-") || (sg =? ch "+")
                      then exp_digits [e; sg] r''
                      else exp_digits [e] r'
                  | [] => None
                  end in
                match signed with
                | Some (x, r5) => (x, r5)
                | None => ([], r1)
                end
              else ([], r1)
          | [] => ([], r1)
          end in
        Some (sign ++ int_part ++ frac ++ exp, r4)
      else None
  end.

(** How decoding ends: with its result, with a [json.JSONDecodeError], or
    with the [ValueError] that the conversion of an integer of more than
    4300 digits raises (the default of [sys.set_int_max_str_digits]), which
    is not a [JSONDecodeError]. *)
Inductive result (A : Type) : Type :=
| Ok (a : A)
| DecodeError
| DigitLimit.

Arguments Ok {A} a.
Arguments DecodeError {A}.
Arguments DigitLimit {A}.

(** The lexeme of an integer (no fraction, no exponent) with more than 4300
    digits; the sign is not counted. *)
Definition over_digit_limit (lexeme : str) : bool :=
  forallb (fun c => is_digit c || (c =? ch "-")) lexeme &&
  (4300 <? N.of_nat (List.length (filter is_digit lexeme))).

(** [scan_once] with [JSONObject] and [JSONArray].  [s] is the text from
    the current index on; a result carries the text after the value.
    [DecodeError] also stands where the source raises [StopIteration],
    which every caller turns into a [JSONDecodeError].  An error ends the
    scan where it is met.  [fuel] bounds the nesting; a text needs no more
    than its length.  The recursion depth and the memory left to the
    interpreter are taken to suffice. *)
Fixpoint scan_once (fuel : nat) (s : str) {struct fuel} : result (value * str) :=
  match fuel with
  | O => DecodeError
  | S fuel' =>
      match s with
      | [] => DecodeError
      | c :: t =>
          if c =? dquote then
            match scanstring t [] with
            | Some (x, r) => Ok (PyStr x, r)
            | None => DecodeError
            end
          else if c =? ch "{" then
            match skip_ws t with
            | c1 :: t1 =>
                if c1 =? ch "}" then Ok (PyDict [], t1)
                else if c1 =? dquote then object_loop fuel' t1 []
                else DecodeError
            | [] => DecodeError
            end
          else if c =? ch "[" then
            match skip_ws t with
            | c1 :: t1 =>
                if c1 =? ch "]" then Ok (PyList [], t1)
                else array_loop fuel' (c1 :: t1) []
            | [] => DecodeError
            end
          else if startswith (py "null") s then Ok (PyNone, skipn 4 s)
          else if startswith (py "true") s then Ok (PyBool true, skipn 4 s)
          else if startswith (py "false") s then Ok (PyBool false, skipn 5 s)
          else
            match match_number s with
            | Some (lexeme, r) =>
                if over_digit_limit lexeme then DigitLimit
                else Ok (PyNum lexeme, r)
            | None =>
                if startswith (py "NaN") s then Ok (PyNum (py "NaN"), skipn 3 s)
                else if startswith (py "Infinity") s
                then Ok (PyNum (py "Infinity"), skipn 8 s)
                else if startswith (py "-Infinity") s
                then Ok (PyNum (py "-Infinity"), skipn 9 s)
                else DecodeError
            end
      end
  end

(** The [while True] loop of [JSONObject]; [s] starts after the opening
    quote of a key. *)
with object_loop (fuel : nat) (s : str) (pairs : list (str * value))
     {struct fuel} : result (value * str) :=
  match fuel with
  | O => DecodeError
  | S fuel' =>
      match scanstring s [] with
      | None => DecodeError
      | Some (key, s1) =>
          match skip_ws s1 with
          | c :: s2 =>
              if c =? ch ":" then
                match scan_once fuel' (skip_ws s2) with
                | DecodeError => DecodeError
                | DigitLimit => DigitLimit
                | Ok (v, s3) =>
                    match skip_ws s3 with
                    | c' :: s4 =>
                        if c' =? ch "}" then Ok (PyDict (pairs ++ [(key, v)]), s4)
                        else if c' =? ch "," then
                          match skip_ws s4 with
                          | q :: s5 =>
                              if q =? dquote
                              then object_loop fuel' s5 (pairs ++ [(key, v)])
                              else DecodeError
                          | [] => DecodeError
                          end
                        else DecodeError
                    | [] => DecodeError
                    end
                end
              else DecodeError
          | [] => DecodeError
          end
      end
  end

(** The [while True] loop of [JSONArray]; [s] starts at a value. *)
with array_loop (fuel : nat) (s : str) (values : list value)
     {struct fuel} : result (value * str) :=
  match fuel with
  | O => DecodeError
  | S fuel' =>
      match scan_once fuel' s with
      | DecodeError => DecodeError
      | DigitLimit => DigitLimit
      | Ok (v, s1) =>
          match skip_ws s1 with
          | c :: s2 =>
              if c =? ch "]" then Ok (PyList (values ++ [v]), s2)
              else if c =? ch "," then array_loop fuel' (skip_ws s2) (values ++ [v])
              else DecodeError
          | [] => DecodeError
          end
      end
  end.

(** [json.loads(s)] for a [str]. *)
Definition loads (s : str) : result value :=
  if startswith [65279] s then DecodeError
  else
    match scan_once (S (len s)) (skip_ws s) with
    | Ok (obj, rest) =>
        match skip_ws rest with
        | [] => Ok obj
        | _ :: _ => DecodeError
        end
    | DecodeError => DecodeError
    | DigitLimit => DigitLimit
    end.

End Json.

(* ================================================================== *)
(** * [base64] *)
(* ================================================================== *)

Module Base64.

(** [table_b2a_base64] *)
Definition alphabet : str :=
  py "ABCDEFGHIJKLMNOPQRSTUVWXYZabcdefghijklmnopqrstuvwxyz0123456789+/".

Definition b2a (n : N) : char := nth (N.to_nat n) alphabet 0.

Definition pad : char := ch "=".

(** [table_a2b_base64]: the value of an alphabet character. *)
Definition a2b (c : N) : option N :=
  if (65 <=? c) && (c <=? 90) then Some (c - 65)
  else if (97 <=? c) && (c <=? 122) then Some (c - 71)
  else if (48 <=? c) && (c <=? 57) then Some (c + 4)
  else if c =? 43 then Some 62
  else if c =? 47 then Some 63
  else None.

(** A value stored into an [unsigned char]. *)
Definition to_byte (n : N) : byte :=
  match Byte.of_N (n mod 256) with
  | Some b => b
  | None => x00
  end.

(** Standard Base64 (RFC 4648, section 4), as [base64.b64encode] produces
    it: three bytes give four characters, a last group of one or two bytes
    is padded with [=]. *)
Fixpoint b64encode (data : list byte) : str :=
  match data with
  | [] => []
  | [x] =>
      let a := Byte.to_N x in
      [b2a (N.shiftr a 2); b2a (N.shiftl (N.land a 3) 4); pad; pad]
  | [x; y] =>
      let a := Byte.to_N x in
      let b := Byte.to_N y in
      [b2a (N.shiftr a 2);
       b2a (N.lor (N.shiftl (N.land a 3) 4) (N.shiftr b 4));
       b2a (N.shiftl (N.land b 15) 2); pad]
  | x :: y :: z :: rest =>
      let a := Byte.to_N x in
      let b := Byte.to_N y in
      let c := Byte.to_N z in
      [b2a (N.shiftr a 2);
       b2a (N.lor (N.shiftl (N.land a 3) 4) (N.shiftr b 4));
       b2a (N.lor (N.shiftl (N.land b 15) 2) (N.shiftr c 6));
       b2a (N.land c 63)] ++ b64encode rest
  end.

(** The loop of [binascii.a2b_base64] with [strict_mode] off.  [out] is the
    output written so far, latest byte first.  [None] is [binascii.Error]
    (raised after the loop when a quad is left incomplete). *)
Fixpoint a2b_loop (ascii_data : list N) (quad_pos : nat) (leftchar : N)
         (pads : nat) (out : list byte) : option (list byte) :=
  match ascii_data with
  | [] =>
      match quad_pos with
      | O => Some (rev out)
      | _ => None
      end
  | this_ch :: rest =>
      if this_ch =? pad then
        if (2 <=? quad_pos)%nat then
          if (4 <=? quad_pos + S pads)%nat then Some (rev out)
          else a2b_loop rest quad_pos leftchar (S pads) out
        else a2b_loop rest quad_pos leftchar pads out
      else
        match a2b this_ch with
        | None => a2b_loop rest quad_pos leftchar pads out
        | Some v =>
            match quad_pos with
            | 0%nat => a2b_loop rest 1 v 0 out
            | 1%nat =>
                a2b_loop rest 2 (N.land v 15) 0
                  (to_byte (N.lor (N.shiftl leftchar 2) (N.shiftr v 4)) :: out)
            | 2%nat =>
                a2b_loop rest 3 (N.land v 3) 0
                  (to_byte (N.lor (N.shiftl leftchar 4) (N.shiftr v 2)) :: out)
            | _ =>
                a2b_loop rest 0 0 0
                  (to_byte (N.lor (N.shiftl leftchar 6) v) :: out)
            end
        end
  end.

Definition a2b_base64 (ascii_data : list N) : option (list byte) :=
  a2b_loop ascii_data 0 0 0 [].

Inductive decode_error : Type :=
| NotAscii          (* ValueError from [_bytes_from_decode_data] *)
| BinasciiError.    (* binascii.Error *)

(** [base64.b64decode(s)] for a [str] [s], with the default
    [validate=False]: characters outside the alphabet are discarded. *)
Definition b64decode (s : str) : decode_error + list byte :=
  if forallb (fun c => c <? 128) s then
    match a2b_base64 s with
    | Some data => inr data
    | None => inl BinasciiError
    end
  else inl NotAscii.

End Base64.

(* ================================================================== *)
(** * Script B: [b64_json-2-image.py] *)
(* ================================================================== *)

Module ScriptB.

Import Json Base64.

(** The exceptions the body can raise, by the handler that takes them. *)
Inductive exn : Type :=
| JSONDecodeError
| KeyError
| BinasciiErr
| IOError
| OtherException.      (* TypeError, ValueError: the catch-all handler *)

(** What the function prints. *)
Inductive message : Type :=
| Saved (output_path : string)       (* "image saved to: ..." *)
| InvalidJson                        (* "error: invalid JSON string" *)
| KeyNotFound (data_key : str)       (* "error: key ... not found in JSON" *)
| InvalidBase64                      (* "error: invalid Base64 string" *)
| CannotWrite (output_path : string) (* "error: cannot write file ..." *)
| UnknownError.                      (* "unknown error: ..." *)

Inductive event : Type :=
| Printed (m : message)
| OpenWb (output_path : string)
| WriteBytes (output_path : string) (data : list byte).

(** The file system: the bytes of each file, and the paths [open(_, "wb")]
    succeeds on (a path that holds a NUL character is never one of them).
    Paths are given as the console prints them. *)
Record world : Type := World {
  files : string -> option (list byte);
  writable : string -> bool;
  trace : list event
}.

(** How a call of the function ends. *)
Inductive outcome : Type :=
| Return (b : bool)
| RaiseUnicodeEncodeError.   (* raised by the [print] of an [except] clause *)

(** Whether [print] can write the text: standard output encodes as UTF-8
    (the messages of the script are Chinese), which has no encoding for
    the surrogates U+D800 to U+DFFF. *)
Definition encodable (s : str) : bool :=
  forallb (fun c => negb ((55296 <=? c) && (c <=? 57343))) s.

(** Of the lines the function prints, only the one about a missing key
    shows a text that the caller chose freely. *)
Definition can_print (m : message) : bool :=
  match m with
  | KeyNotFound data_key => encodable data_key
  | _ => true
  end.

(** A path that holds a NUL character. *)
Definition has_nul (path : string) : bool :=
  existsb (Ascii.eqb Ascii.zero) (list_ascii_of_string path).

(** A computation that runs in a world and returns or raises. *)
Definition M (A : Type) : Type := world -> world * (exn + A).

Definition ret {A} (a : A) : M A := fun w => (w, inr a).
Definition raise {A} (e : exn) : M A := fun w => (w, inl e).
Definition bind {A B} (m : M A) (f : A -> M B) : M B :=
  fun w =>
    match m w with
    | (w', inr a) => f a w'
    | (w', inl e) => (w', inl e)
    end.
Definition emit (e : event) : M unit :=
  fun w => (World (files w) (writable w) (trace w ++ [e]), inr tt).

Notation "x <- m ;; f" := (bind m (fun x => f))
  (at level 61, m at next level, right associativity).
Notation "m ;;; f" := (bind m (fun _ => f))
  (at level 61, right associativity).

Section WithUnicodeTable.

(** [Py_UNICODE_ISALNUM] outside ASCII: the interpreter's Unicode database,
    which decides [\w] there. *)
Variable unicode_isalnum : char -> bool.

(** [\w] in a [str] pattern. *)
Definition is_word (c : char) : bool :=
  if c <? 128 then
    ((48 <=? c) && (c <=? 57)) || ((65 <=? c) && (c <=? 90)) ||
    ((97 <=? c) && (c <=? 122)) || (c =? 95)
  else unicode_isalnum c.

(** [r"^data:image/\w+;base64,"] *)
Definition data_uri_pattern : regex :=
  Cat Bol (Cat (lits (py "data:image/"))
               (Cat (Rep true 1 is_word) (lits (py ";base64,")))).

(** [json.loads(b64_json_string)]; the [ValueError] of the digit limit is
    no [JSONDecodeError] and falls to the last handler. *)
Definition json_loads (b64_json_string : str) : M value :=
  match Json.loads b64_json_string with
  | Ok data => ret data
  | DecodeError => raise JSONDecodeError
  | DigitLimit => raise OtherException
  end.

(** [data[data_key]] with a [str] key: a dict raises [KeyError] when the
    key is missing, every other value raises [TypeError]. *)
Definition getitem (data : value) (data_key : str) : M value :=
  match data with
  | PyDict pairs =>
      match dict_get pairs data_key with
      | Some v => ret v
      | None => raise KeyError
      end
  | _ => raise OtherException
  end.

(** [re.sub(r"^data:image/\w+;base64,", "", base64_string)]: [TypeError]
    unless the value is a string. *)
Definition strip_data_uri (base64_string : value) : M str :=
  match base64_string with
  | PyStr s => ret (sub data_uri_pattern (fun _ => []) s)
  | _ => raise OtherException
  end.

(** [base64.b64decode(base64_string)] *)
Definition base64_decode (base64_string : str) : M (list byte) :=
  match b64decode base64_string with
  | inr image_data => ret image_data
  | inl BinasciiError => raise BinasciiErr
  | inl NotAscii => raise OtherException
  end.

(** [with open(output_path, "wb") as image_file: image_file.write(image_data)].
    When [open] fails it raises an [OSError], except for a path that holds
    a NUL character, for which it raises [ValueError]. *)
Definition write_image (output_path : string) (image_data : list byte) : M unit :=
  fun w =>
    if writable w output_path then
      (World (fun p => if String.eqb p output_path then Some image_data
                       else files w p)
             (writable w)
             (trace w ++ [OpenWb output_path; WriteBytes output_path image_data]),
       inr tt)
    else if has_nul output_path then (w, inl OtherException)
    else (w, inl IOError).

(** The body of the [try]. *)
Definition try_body (b64_json_string : str) (output_path : string)
           (data_key : str) : M bool :=
  data <- json_loads b64_json_string ;;
  base64_string <- getitem data data_key ;;
  base64_string <- strip_data_uri base64_string ;;
  image_data <- base64_decode base64_string ;;
  write_image output_path image_data ;;;
  emit (Printed (Saved output_path)) ;;;
  ret true.

(** The [except] clauses, in their order. *)
Definition diagnostic (e : exn) (output_path : string) (data_key : str)
  : message :=
  match e with
  | JSONDecodeError => InvalidJson
  | KeyError => KeyNotFound data_key
  | BinasciiErr => InvalidBase64
  | IOError => CannotWrite output_path
  | OtherException => UnknownError
  end.

(** The function: the [try], then the handler of what it raised, then
    [return False].  The [print] of a handler can itself raise (the line
    about a key that the console cannot encode); nothing catches that. *)
Definition base64_json_to_image (w : world) (b64_json_string : str)
           (output_path : string) (data_key : str) : world * outcome :=
  match try_body b64_json_string output_path data_key w with
  | (w', inr r) => (w', Return r)
  | (w', inl e) =>
      if can_print (diagnostic e output_path data_key) then
        (World (files w') (writable w')
               (trace w' ++ [Printed (diagnostic e output_path data_key)]),
         Return false)
      else (w', RaiseUnicodeEncodeError)
  end.

End WithUnicodeTable.

(** [data_key="b64_json"] *)
Definition default_data_key : str := py "b64_json".

End ScriptB.

(* ================================================================== *)
(** * Notions used in the statements *)
(* ================================================================== *)

(** A match moved [d] characters to the right. *)
Definition shift_match (d : nat) (m : rmatch_obj) : rmatch_obj :=
  Match (d + m_start m) (d + m_end m) (m_groups m).

(** A pattern whose attempts never depend on where the subject starts (no
    [^]) and never match the empty string. *)
Definition unanchored (r : regex) : Prop :=
  forall b m s, attempt r b m s = attempt r false m s.

Definition never_empty (r : regex) : Prop :=
  forall b m s g, attempt r b m s <> Some (O, g).

(** An item of an argument list: brackets and parentheses are properly
    nested in it and each of its commas lies inside a bracket or a
    parenthesis.  [b] and [p] count the brackets and parentheses open so
    far. *)
Fixpoint nested_from (b p : nat) (item : str) : bool :=
  match item with
  | [] => (b =? 0)%nat && (p =? 0)%nat
  | c :: t =>
      if c =? ch "[" then nested_from (S b) p t
      else if c =? ch "]" then
        match b with O => false | S b' => nested_from b' p t end
      else if c =? ch "(" then nested_from b (S p) t
      else if c =? ch ")" then
        match p with O => false | S p' => nested_from b p' t end
      else if c =? ch "," then
        negb ((b =? 0)%nat && (p =? 0)%nat) && nested_from b p t
      else nested_from b p t
  end.

Definition top_level_item (item : str) : Prop := nested_from 0 0 item = true.

(** The item is not blank. *)
Definition not_blank (item : str) : Prop := strip item <> [].

(** The call emitted for one item. *)
Definition add_property_call (item : str) : str :=
  py ".add_property(" ++ strip item ++ py ")".

(** A method chain: parentheses are properly nested in it and none of the
    characters that end a chain ([,], [;], [}], []]) stands outside them. *)
Fixpoint chain_from (p : nat) (chain : str) : bool :=
  match chain with
  | [] => (p =? 0)%nat
  | c :: t =>
      if c =? ch "(" then chain_from (S p) t
      else if c =? ch ")" then
        match p with O => false | S p' => chain_from p' t end
      else if ScriptA.is_terminator c then
        negb (p =? 0)%nat && chain_from p t
      else chain_from p t
  end.

Definition method_chain (chain : str) : Prop := chain_from 0 chain = true.

(** No targeted call pattern occurs in the text: none of the eight
    searches of the script finds a match. *)
Definition no_targeted_pattern (content : str) : Prop :=
  finditer ScriptA.version_pattern content = [] /\
  finditer ScriptA.inputs_pattern content = [] /\
  finditer ScriptA.outputs_pattern content = [] /\
  finditer ScriptA.properties_pattern content = [] /\
  finditer ScriptA.kind_options_pattern content = [] /\
  finditer ScriptA.builder_pattern content = [] /\
  finditer ScriptA.base_pattern content = [] /\
  finditer ScriptA.new_pattern content = [].

(** The JSON document [{"b64_json": "<data>"}]. *)
Definition wrap_b64_json (data : str) : str :=
  py "{" ++ [dquote] ++ py "b64_json" ++ [dquote] ++ py ": " ++
  [dquote] ++ data ++ [dquote] ++ py "}".

(** A character of the Base64 alphabet. *)
Definition is_b64_char (c : char) : bool :=
  match Base64.a2b c with Some _ => true | None => false end.

(** Valid Base64 text in the sense of RFC 4648: groups of four alphabet
    characters, the last of which may end in one or two [=]. *)
Fixpoint rfc4648_valid (s : str) : bool :=
  match s with
  | [] => true
  | [a; b; c; d] =>
      is_b64_char a && is_b64_char b &&
      ((is_b64_char c && (is_b64_char d || (d =? Base64.pad))) ||
       ((c =? Base64.pad) && (d =? Base64.pad)))
  | a :: b :: c :: d :: rest =>
      is_b64_char a && is_b64_char b && is_b64_char c && is_b64_char d &&
      rfc4648_valid rest
  | _ => false
  end.

(** The length of the longest prefix of [s] made of characters of the
    class [p]. *)
Fixpoint run (p : char -> bool) (s : str) : nat :=
  match s with
  | [] => O
  | c :: s' => if p c then S (run p s') else O
  end.

(** A pattern without [^]. *)
Fixpoint bol_free (r : regex) : bool :=
  match r with
  | Bol => false
  | Cat r1 r2 => bol_free r1 && bol_free r2
  | Grp r1 => bol_free r1
  | Ahead r1 => bol_free r1
  | Lit _ | Cls _ | Rep _ _ _ => true
  end.

(** The shape shared by the patterns of steps 2 and 3: a literal head [L],
    the group [([^\]]+)] and the closing [\]\)]. *)
Definition list_call_pattern (L : str) : regex :=
  ScriptA.cat_all [lits L; Grp (Rep true 1 (ScriptA.not_char "]")); lits (py "])")].

(** Whether [(?=\s*[,)])] succeeds on the text [s]. *)
Definition comma_or_rparen (c : char) : bool :=
  ScriptA.is_char "," c || ScriptA.is_char ")" c.

Definition ahead_ok (s : str) : bool :=
  match skipn (run is_space s) s with
  | c :: _ => comma_or_rparen c
  | [] => false
  end.

(** The length of the shortest prefix of [s], made of characters of [p],
    after which [ok] holds: what a lazy [p*?] takes before a test [ok]. *)
Fixpoint lazy_len (p : char -> bool) (ok : str -> bool) (s : str) : option nat :=
  if ok s then Some O
  else match s with
       | [] => None
       | c :: s' => if p c then option_map S (lazy_len p ok s') else None
       end.

(** Text that step 5 takes into its group before the lookahead succeeds: no
    dot, comma or closing parenthesis, and no whitespace at its end. *)
Definition plain_char (c : char) : bool :=
  ScriptA.not_char "." c && negb (comma_or_rparen c).

Definition plain_text (g : str) : Prop :=
  forallb plain_char g = true /\ is_space (last g 0) = false.

(** The numbers [0 .. n-1]. *)
Definition below (n : nat) : list N := map N.of_nat (seq 0 n).

(** A character of Base64 text: of the alphabet, or the padding. *)
Definition b64_text_char (c : char) : bool :=
  is_b64_char c || (c =? Base64.pad).

(** A character that stands for itself inside a JSON string. *)
Definition json_plain (c : char) : bool :=
  negb (c =? dquote) && negb (c =? ch "\") && negb (c <=? 31).

(** The number of alphabet characters of a text. *)
Fixpoint count_b64 (s : str) : nat :=
  match s with
  | [] => O
  | c :: s' => if is_b64_char c then S (count_b64 s') else count_b64 s'
  end.

(** Steps 1 to 3 of Script B (parse, look up, strip, decode): all that
    happens before the output file is opened. *)
Definition decoding (unicode_isalnum : char -> bool) (b64_json_string : str)
           (data_key : str) : ScriptB.M (list byte) :=
  ScriptB.bind (ScriptB.json_loads b64_json_string) (fun data =>
  ScriptB.bind (ScriptB.getitem data data_key) (fun base64_string =>
  ScriptB.bind (ScriptB.strip_data_uri unicode_isalnum base64_string)
               (fun base64_string => ScriptB.base64_decode base64_string))).

(** The world after a successful write of [data] to [output_path]. *)
Definition world_after_write (w : ScriptB.world) (output_path : string)
           (data : list byte) : ScriptB.world :=
  ScriptB.World
    (fun p => if String.eqb p output_path then Some data else ScriptB.files w p)
    (ScriptB.writable w)
    (ScriptB.trace w ++
     [ScriptB.OpenWb output_path; ScriptB.WriteBytes output_path data;
      ScriptB.Printed (ScriptB.Saved output_path)]).

(** The world after a failure reported by the message [m]: nothing but the
    printed line is added. *)
Definition world_after_failure (w : ScriptB.world) (m : ScriptB.message)
  : ScriptB.world :=
  ScriptB.World (ScriptB.files w) (ScriptB.writable w)
                (ScriptB.trace w ++ [ScriptB.Printed m]).

(** The texts a pattern can match: the language of the pattern, without
    regard to the order in which the matcher tries them. *)
Fixpoint lang (r : regex) (x : str) : Prop :=
  match r with
  | Lit c => x = [c]
  | Cls p => exists c, x = [c] /\ p c = true
  | Bol => x = []
  | Cat r1 r2 => exists x1 x2, x = x1 ++ x2 /\ lang r1 x1 /\ lang r2 x2
  | Rep _ m p => forallb p x = true /\ (m <= List.length x)%nat
  | Grp r1 => lang r1 x
  | Ahead _ => x = []
  end.

(** A rule is idempotent when a second pass changes nothing. *)
Definition idempotent (rule : str -> str) : Prop :=
  forall content, rule (rule content) = rule content.

(** Whether a comma or a closing parenthesis is reached from the start of
    [t] before any dot: the condition under which step 5 finds a place for
    its [.build()]. *)
Fixpoint reach (t : str) : bool :=
  match t with
  | [] => false
  | c :: t' =>
      if comma_or_rparen c then true
      else if ScriptA.not_char "." c then reach t'
      else false
  end.

(** The parenthesis depth after the chain loop of step 6 has run through
    all of [s] starting at depth [pc]; [None] when the loop stops inside
    [s]. *)
Fixpoint passes (s : str) (pc : Z) : option Z :=
  match s with
  | [] => Some pc
  | c :: s' =>
      if c =? ch "(" then passes s' (pc + 1)
      else if c =? ch ")" then passes s' (pc - 1)
      else if (c =? ch ".") && (pc =? 0)%Z then passes s' pc
      else if ScriptA.is_terminator c && (pc =? 0)%Z then None
      else passes s' pc
  end.

(** The chain that the loop of step 6 scans from the start of [u] holds
    [.build()]. *)
Definition has_build (u : str) : bool :=
  contains (py ".build()") (firstn (ScriptA.scan_chain u 0 0) u).

(** Every [NodeProperty::builder()] of the text is followed by a chain that
    holds [.build()]. *)
Fixpoint built (s : str) : bool :=
  match s with
  | [] => true
  | _ :: t =>
      (if startswith (py "NodeProperty::builder()") s
       then has_build (skipn 23 s) else true) && built t
  end.

(** The replacement of step 7, as a function of the groups of the match. *)
Definition base_repl : list str -> str := fun _ => py "let definition = base;".

(** The patterns that the eight steps search for, in the order of the
    steps. *)
Definition step_patterns : list regex :=
  [ScriptA.version_pattern; ScriptA.inputs_pattern; ScriptA.outputs_pattern;
   ScriptA.properties_pattern; ScriptA.kind_options_pattern;
   ScriptA.builder_pattern; ScriptA.base_pattern; ScriptA.new_pattern].

(** Step [k] (1 to 8) is the only step that finds a match: the steps before
    it find none in the text [input] they receive, and the steps after it
    none in the text [output] that step [k] hands on. *)
Definition only_step (k : nat) (input output : str) : Prop :=
  Forall (fun r => finditer r input = []) (firstn (k - 1) step_patterns) /\
  Forall (fun r => finditer r output = []) (skipn k step_patterns).

(* ================================================================== *)
(** * Script A: [main] *)
(* ================================================================== *)

Module ScriptAMain.

(** File names and paths are [string]s, as in [ScriptA]. *)
Fixpoint starts (p s : list ascii) : bool :=
  match p, s with
  | [], _ => true
  | _ :: _, [] => false
  | a :: p', b :: s' => Ascii.eqb a b && starts p' s'
  end.

(** [s.endswith(suffix)] *)
Definition endswith (s suffix : string) : bool :=
  starts (rev (list_ascii_of_string suffix)) (rev (list_ascii_of_string s)).

(** [os.path.join(a, b)] of [posixpath]. *)
Definition path_join (a b : string) : string :=
  if String.prefix "/" b then b
  else if String.eqb a EmptyString || endswith a "/" then (a ++ b)%string
  else (a ++ "/" ++ b)%string.

(** What [os.walk('src')] yields: for each directory its path, the names of
    its subdirectories and the names of its other entries.  The walk is
    over before the first file is opened. *)
Definition walk_result : Type := list (string * list string * list string).

(** The first loop: the paths of the entries whose name ends in [.rs]. *)
Definition rust_files (walk : walk_result) : list string :=
  flat_map (fun '(root, _, files) =>
              map (path_join root) (filter (fun file => endswith file ".rs") files))
           walk.

(** What [main] prints itself. *)
Inductive message : Type :=
| Found (n : nat)                  (* "found n Rust files" *)
| FixFailed (file_path : string)   (* "error while fixing file ...: ..." *)
| TotalFixed (n : nat).            (* "fixed n files in total" *)

Inductive event : Type :=
| InFile (e : ScriptA.event)       (* done by [fix_node_definition_file] *)
| Printed (m : message).

Record world : Type := World {
  fs : ScriptA.filesystem;
  trace : list event
}.

Definition print (w : world) (m : message) : world :=
  World (fs w) (trace w ++ [Printed m]).

(** The call [fix_node_definition_file(file_path)] from [main]. *)
Definition call_fix (w : world) (file_path : string) : world * ScriptA.outcome :=
  let (w', r) :=
    ScriptA.fix_node_definition_file (ScriptA.World (fs w) []) file_path in
  (World (ScriptA.fs w') (trace w ++ map InFile (ScriptA.trace w')), r).

(** The second loop, with its [try], which takes whatever the call raises;
    the result is the final [fixed_count]. *)
Fixpoint fix_all (rust_files : list string) (w : world) (fixed_count : nat)
  : world * nat :=
  match rust_files with
  | [] => (w, fixed_count)
  | file_path :: rest =>
      match call_fix w file_path with
      | (w', ScriptA.Return true) => fix_all rest w' (S fixed_count)
      | (w', ScriptA.Return false) => fix_all rest w' fixed_count
      | (w', ScriptA.Raises) =>
          fix_all rest (print w' (FixFailed file_path)) fixed_count
      end
  end.

Definition main (walk : walk_result) (w : world) : world :=
  let rust_files := rust_files walk in
  let w1 := print w (Found (List.length rust_files)) in
  let (w2, fixed_count) := fix_all rust_files w1 0 in
  print w2 (TotalFixed fixed_count).

End ScriptAMain.

(* ================================================================== *)
(** * Script B: the block under [if __name__ == "__main__"] *)
(* ================================================================== *)

Module ScriptBMain.

(** What the block prints itself. *)
Inductive message : Type :=
| Done       (* "operation completed" *)
| Failed.    (* "operation failed" *)

Inductive event : Type :=
| InCall (e : ScriptB.event)      (* done by [base64_json_to_image] *)
| Printed (m : message).

Record world : Type := World {
  files : string -> option (list byte);
  writable : string -> bool;
  trace : list event
}.

Inductive outcome : Type :=
| Finished
| Raises.    (* reading the JSON file failed, or the call raised; nothing
                catches it *)

(** [output_filename] *)
Definition output_filename : string := "saved_image.png".

(** The block.  [example_b64_json] is what reading [base64_image.json], the
    file beside the script, gives: the text of the file, or [None] when
    the file cannot be opened or is not UTF-8. *)
Definition script_main (unicode_isalnum : char -> bool)
           (example_b64_json : option str) (w : world) : world * outcome :=
  match example_b64_json with
  | None => (w, Raises)
  | Some example_b64_json =>
      match ScriptB.base64_json_to_image unicode_isalnum
              (ScriptB.World (files w) (writable w) [])
              example_b64_json output_filename (py "b64_json")
      with
      | (w', ScriptB.Return success) =>
          (World (ScriptB.files w') (ScriptB.writable w')
                 (trace w ++ map InCall (ScriptB.trace w') ++
                  [Printed (if success then Done else Failed)]),
           Finished)
      | (w', ScriptB.RaiseUnicodeEncodeError) =>
          (World (ScriptB.files w') (ScriptB.writable w')
                 (trace w ++ map InCall (ScriptB.trace w')),
           Raises)
      end
  end.

End ScriptBMain.

(* ================================================================== *)
(** * Notions used in the statements about [main] *)
(* ================================================================== *)

(** The transformation changes the text that reading [p] gives. *)
Definition changed (d : ScriptA.filesystem) (p : string) : bool :=
  match ScriptA.files d p with
  | Some c => negb (str_eqb (ScriptA.transform c) c)
  | None => false
  end.

(** The call for [p] writes the file: its text changes and the path can
    be opened for writing. *)
Definition rewritten (d : ScriptA.filesystem) (p : string) : bool :=
  changed d p && ScriptA.writable d p.

(** What one round of the second loop of [main] does and prints for the
    path [p], when the files are [d] before it. *)
Definition file_events (d : ScriptA.filesystem) (p : string)
  : list ScriptAMain.event :=
  match ScriptA.files d p with
  | None =>
      [ScriptAMain.InFile (ScriptA.Printed (ScriptA.Fixing p));
       ScriptAMain.Printed (ScriptAMain.FixFailed p)]
  | Some c =>
      if changed d p then
        if ScriptA.writable d p then
          map ScriptAMain.InFile
              [ScriptA.Printed (ScriptA.Fixing p); ScriptA.ReadFile p;
               ScriptA.WriteFile p (ScriptA.transform c);
               ScriptA.Printed (ScriptA.Fixed p)]
        else
          [ScriptAMain.InFile (ScriptA.Printed (ScriptA.Fixing p));
           ScriptAMain.InFile (ScriptA.ReadFile p);
           ScriptAMain.Printed (ScriptAMain.FixFailed p)]
      else
        map ScriptAMain.InFile
            [ScriptA.Printed (ScriptA.Fixing p); ScriptA.ReadFile p;
             ScriptA.Printed (ScriptA.NoFixNeeded p)]
  end.

(** The files after the round of the second loop of [main] for the path
    [p]: the file that [p] names holds the transformed text when the call
    writes it, and nothing else differs. *)
Definition after_round (d : ScriptA.filesystem) (p : string)
  : ScriptA.filesystem :=
  if rewritten d p
  then ScriptA.write_file d p (ScriptA.transform (ScriptA.text d (ScriptA.inode d p)))
  else d.

(* ================================================================== *)
(** * Facts about strings *)
(* ================================================================== *)

Section StringFacts.

Lemma startswith_app (p s : str) : startswith p (p ++ s) = true.
Proof.
  induction p as [|a p IH]; simpl; [reflexivity|].
  now rewrite N.eqb_refl, IH.
Qed.

Lemma startswith_true (p s : str) :
  startswith p s = true -> s = p ++ skipn (List.length p) s.
Proof.
  revert s; induction p as [|a p IH]; intros s H; simpl in *; [reflexivity|].
  destruct s as [|b s]; [discriminate|].
  apply andb_true_iff in H as [E H]. apply N.eqb_eq in E. subst b.
  simpl. f_equal. now apply IH.
Qed.

Lemma startswith_nil_r (p : str) : startswith p [] = true -> p = [].
Proof. destruct p; simpl; [reflexivity|discriminate]. Qed.

(** A literal that matches across a character it does not contain ends
    before that character. *)
Lemma startswith_before (L u v : str) (c : char) :
  ~ In c L -> startswith L (u ++ c :: v) = true -> startswith L u = true.
Proof.
  revert L; induction u as [|a u IH]; intros L Hc H.
  - destruct L as [|x L]; [reflexivity|]. simpl in H.
    apply andb_true_iff in H as [E _]. apply N.eqb_eq in E. subst x.
    exfalso. apply Hc. now left.
  - destruct L as [|x L]; [reflexivity|]. simpl in *.
    apply andb_true_iff in H as [E H]. rewrite E. simpl.
    apply IH; [|exact H]. intro Hin. apply Hc. now right.
Qed.

Lemma contains_false_here (L s : str) :
  contains L s = false -> startswith L s = false.
Proof.
  destruct s; simpl; intro H; apply orb_false_iff in H as [H _]; exact H.
Qed.

Lemma contains_false_skipn (L s : str) (i : nat) :
  contains L s = false -> startswith L (skipn i s) = false.
Proof.
  revert s; induction i as [|i IH]; intros s H.
  - now apply contains_false_here.
  - destruct s as [|c s].
    + simpl. now apply contains_false_here.
    + simpl. apply IH. simpl in H. now apply orb_false_iff in H as [_ H].
Qed.

Lemma contains_false_cons (L : str) (c : char) (s : str) :
  contains L (c :: s) = false -> contains L s = false.
Proof. simpl. intro H. now apply orb_false_iff in H as [_ H]. Qed.

(** ** [strip] *)

Lemma lstrip_app_keep (a : str) (c : char) (t : str) :
  is_space c = false -> lstrip (a ++ c :: t) = lstrip a ++ c :: t
     \/ (lstrip a = [] /\ lstrip (a ++ c :: t) = c :: t).
Proof.
  intro Hc. induction a as [|x a IH]; simpl.
  - rewrite Hc. now left.
  - destruct (is_space x); [exact IH|]. now left.
Qed.

Lemma lstrip_app_nonspace (a : str) (c : char) (t : str) :
  is_space c = false -> lstrip (a ++ c :: t) = lstrip a ++ c :: t.
Proof.
  intro Hc. destruct (lstrip_app_keep a c t Hc) as [H|[H1 H2]]; [exact H|].
  now rewrite H1, H2.
Qed.

Lemma lstrip_fixed (s : str) :
  match s with [] => True | c :: _ => is_space c = false end -> lstrip s = s.
Proof. destruct s as [|c s]; simpl; [reflexivity|]. now intros ->. Qed.

Lemma lstrip_head (s : str) :
  match lstrip s with [] => True | c :: _ => is_space c = false end.
Proof.
  induction s as [|c s IH]; simpl; [exact I|].
  destruct (is_space c) eqn:E; [exact IH|exact E].
Qed.

Lemma lstrip_idem (s : str) : lstrip (lstrip s) = lstrip s.
Proof. apply lstrip_fixed, lstrip_head. Qed.

Lemma rstrip_idem (s : str) : rstrip (rstrip s) = rstrip s.
Proof. unfold rstrip. now rewrite rev_involutive, lstrip_idem. Qed.

(** [rstrip] keeps a head that is not a space. *)
Lemma rstrip_cons_nonspace (c : char) (t : str) :
  is_space c = false -> rstrip (c :: t) = c :: rstrip t.
Proof.
  intro Hc. unfold rstrip. simpl.
  replace (rev t ++ [c]) with (rev t ++ c :: []) by reflexivity.
  rewrite lstrip_app_nonspace by exact Hc.
  now rewrite rev_app_distr.
Qed.

Lemma strip_head (s : str) :
  match strip s with [] => True | c :: _ => is_space c = false end.
Proof.
  unfold strip. pose proof (lstrip_head s) as H.
  destruct (lstrip s) as [|c t]; [exact I|].
  now rewrite rstrip_cons_nonspace.
Qed.

Lemma strip_idem (s : str) : strip (strip s) = strip s.
Proof.
  unfold strip at 1. rewrite (lstrip_fixed (strip s)) by apply strip_head.
  unfold strip. apply rstrip_idem.
Qed.

Lemma removelast_snoc (s : str) (c : char) : removelast (s ++ [c]) = s.
Proof. apply removelast_last. Qed.

Lemma truthy_true (s : str) : s <> [] -> truthy s = true.
Proof. destruct s; [congruence|reflexivity]. Qed.

Lemma str_eqb_refl (s : str) : str_eqb s s = true.
Proof. induction s; simpl; [reflexivity|]. now rewrite N.eqb_refl. Qed.

Lemma str_eqb_eq (a b : str) : str_eqb a b = true <-> a = b.
Proof.
  split; [|intros ->; apply str_eqb_refl].
  revert b; induction a as [|x a IH]; intros [|y b]; simpl; try discriminate;
    [reflexivity|].
  intro H. apply andb_true_iff in H as [E H]. apply N.eqb_eq in E.
  f_equal; [exact E|now apply IH].
Qed.

End StringFacts.

(* ================================================================== *)
(** * Facts about the matcher *)
(* ================================================================== *)

Section MatcherFacts.

Lemma run_le (p : char -> bool) (s : str) : (run p s <= List.length s)%nat.
Proof. induction s as [|c s IH]; simpl; [lia|]. destruct (p c); simpl; lia. Qed.

Lemma run_all (p : char -> bool) (s : str) :
  forallb p (firstn (run p s) s) = true.
Proof.
  induction s as [|c s IH]; simpl; [reflexivity|].
  destruct (p c) eqn:E; simpl; [|reflexivity]. now rewrite E, IH.
Qed.

Lemma run_stop (p : char -> bool) (s : str) :
  match skipn (run p s) s with [] => True | c :: _ => p c = false end.
Proof.
  induction s as [|c s IH]; simpl; [exact I|].
  destruct (p c) eqn:E; simpl; [exact IH|exact E].
Qed.

(** The run of a text that begins with class characters and then leaves
    the class. *)
Lemma run_app (p : char -> bool) (x rest : str) :
  forallb p x = true ->
  match rest with [] => True | c :: _ => p c = false end ->
  run p (x ++ rest) = List.length x.
Proof.
  intros Hx Hr. induction x as [|c x IH]; simpl in *.
  - destruct rest as [|c rest]; simpl; [reflexivity|now rewrite Hr].
  - apply andb_true_iff in Hx as [Hc Hx]. rewrite Hc. f_equal. now apply IH.
Qed.

(** ** Continuations that agree give the same match *)

Lemma rep_ext (g : bool) (p : char -> bool) (k k' : mstate -> option mstate) :
  (forall st, k st = k' st) ->
  forall s min used caps, rep g p min k used caps s = rep g p min k' used caps s.
Proof.
  intros H. induction s as [|c s IH]; intros min used caps; simpl.
  - destruct min; [apply H|reflexivity].
  - rewrite (IH (pred min) (S used) caps). now rewrite (H (MState used (c :: s) caps)).
Qed.

Lemma rmatch_ext (b : bool) (r : regex) :
  forall k k' st, (forall st, k st = k' st) -> rmatch b r k st = rmatch b r k' st.
Proof.
  induction r as [c|p| |r1 IH1 r2 IH2|g m p|r1 IH1|r1 IH1]; intros k k' st H; simpl.
  - destruct (ms_rest st) as [|x t]; [reflexivity|]. destruct (x =? c); [apply H|reflexivity].
  - destruct (ms_rest st) as [|x t]; [reflexivity|]. destruct (p x); [apply H|reflexivity].
  - now rewrite H.
  - apply IH1. intro st'. now apply IH2.
  - now apply rep_ext.
  - apply IH1. intro st'. apply H.
  - now rewrite H.
Qed.

(** ** Patterns without an anchor *)

Lemma rmatch_bol_free (r : regex) :
  bol_free r = true ->
  forall b k st, rmatch b r k st = rmatch false r k st.
Proof.
  induction r as [c|p| |r1 IH1 r2 IH2|g m p|r1 IH1|r1 IH1]; intros Hf b k st;
    simpl in *; try reflexivity; try discriminate.
  - apply andb_true_iff in Hf as [H1 H2].
    rewrite (IH1 H1 b). apply rmatch_ext. intro st'. now apply IH2.
  - now apply IH1.
  - now rewrite (IH1 Hf b).
Qed.

Lemma bol_free_unanchored (r : regex) : bol_free r = true -> unanchored r.
Proof. intros Hf b m s. unfold attempt. now rewrite (rmatch_bol_free r Hf b). Qed.

(** ** What a successful match consumed *)

Lemma rep_sound (g : bool) (p : char -> bool) (k : mstate -> option mstate) :
  forall s min used caps res,
    rep g p min k used caps s = Some res ->
    exists x rest, s = x ++ rest /\ forallb p x = true /\
                   (min <= List.length x)%nat /\
                   k (MState (used + List.length x) rest caps) = Some res.
Proof.
  induction s as [|c s IH]; intros min used caps res H; simpl in H.
  - destruct min; [|discriminate].
    exists [], []. simpl. rewrite Nat.add_0_r. repeat split; auto.
  - assert (Hstop : match min with
                    | O => k (MState used (c :: s) caps)
                    | S _ => None
                    end = Some res ->
                    exists x rest, c :: s = x ++ rest /\ forallb p x = true /\
                      (min <= List.length x)%nat /\
                      k (MState (used + List.length x) rest caps) = Some res).
    { intro Hs. destruct min; [|discriminate].
      exists [], (c :: s). simpl. rewrite Nat.add_0_r. repeat split; auto. }
    assert (Hmore : rep g p (pred min) k (S used) caps s = Some res ->
                    p c = true ->
                    exists x rest, c :: s = x ++ rest /\ forallb p x = true /\
                      (min <= List.length x)%nat /\
                      k (MState (used + List.length x) rest caps) = Some res).
    { intros Hm Hc. destruct (IH _ _ _ _ Hm) as (x & rest & -> & Hx & Hl & Hk).
      exists (c :: x), rest. simpl. rewrite Hc, Hx.
      repeat split; auto; [lia|].
      now replace (used + S (List.length x))%nat with (S used + List.length x)%nat by lia. }
    destruct (p c) eqn:Hc; [|now apply Hstop].
    destruct g.
    + destruct (rep true p (pred min) k (S used) caps s) eqn:Hm.
      * inversion H; subst. now apply Hmore.
      * now apply Hstop.
    + destruct (match min with O => k (MState used (c :: s) caps) | S _ => None end) eqn:Hs.
      * inversion H; subst. now apply Hstop.
      * now apply Hmore.
Qed.

Lemma rmatch_sound (b : bool) (r : regex) :
  forall k st res,
    rmatch b r k st = Some res ->
    exists x st', ms_rest st = x ++ ms_rest st' /\
                  ms_used st' = (ms_used st + List.length x)%nat /\
                  k st' = Some res.
Proof.
  induction r as [c|p| |r1 IH1 r2 IH2|g m p|r1 IH1|r1 IH1]; intros k st res H; simpl in H.
  - destruct (ms_rest st) as [|x t] eqn:E; [discriminate|].
    destruct (x =? c); [|discriminate].
    exists [x], (MState (S (ms_used st)) t (ms_caps st)). simpl.
    repeat split; auto; lia.
  - destruct (ms_rest st) as [|x t] eqn:E; [discriminate|].
    destruct (p x); [|discriminate].
    exists [x], (MState (S (ms_used st)) t (ms_caps st)). simpl.
    repeat split; auto; lia.
  - destruct (b && (ms_used st =? 0)%nat); [|discriminate].
    exists [], st. simpl. repeat split; auto; lia.
  - apply IH1 in H as (x1 & st1 & E1 & U1 & H).
    apply IH2 in H as (x2 & st2 & E2 & U2 & H).
    exists (x1 ++ x2), st2. rewrite E1, E2, U2, U1, length_app, app_assoc.
    repeat split; auto; lia.
  - apply rep_sound in H as (x & rest & E & _ & _ & H).
    exists x, (MState (ms_used st + List.length x) rest (ms_caps st)). simpl.
    repeat split; auto.
  - apply IH1 in H as (x1 & st1 & E1 & U1 & H).
    exists x1, (MState (ms_used st1) (ms_rest st1)
                  (ms_caps st1 ++ [firstn (ms_used st1 - ms_used st) (ms_rest st)])).
    simpl. split; [exact E1|]. split; [exact U1|exact H].
  - destruct (rmatch b r1 (fun st' => Some st') st); [|discriminate].
    exists [], st. simpl. repeat split; auto; lia.
Qed.

(** A match is a prefix of the text it was tried on. *)
Lemma attempt_sound (r : regex) (b m : bool) (s : str) (n : nat) (g : list str) :
  attempt r b m s = Some (n, g) ->
  exists x rest, s = x ++ rest /\ List.length x = n.
Proof.
  unfold attempt. intro H.
  destruct (rmatch b r _ (MState 0 s [])) as [st|] eqn:E; [|discriminate].
  apply rmatch_sound in E as (x & st' & E1 & U1 & Hk). simpl in E1, U1.
  destruct (m && (ms_used st' =? 0)%nat); [discriminate|].
  injection Hk as <-. injection H as <- _.
  exists x, (ms_rest st'). split; [exact E1|]. now rewrite U1.
Qed.

(** ** Literals *)

Lemma rep_never (k : mstate -> option mstate) (used : nat) (caps : list str) (s : str) :
  rep true (fun _ => false) 0 k used caps s = k (MState used s caps).
Proof. destruct s; reflexivity. Qed.

Lemma rmatch_lits (b : bool) (L : str) :
  forall k st,
    rmatch b (lits L) k st =
    if startswith L (ms_rest st)
    then k (MState (ms_used st + List.length L) (skipn (List.length L) (ms_rest st))
                   (ms_caps st))
    else None.
Proof.
  induction L as [|c L IH]; intros k st.
  - simpl. rewrite rep_never, Nat.add_0_r. now destruct st.
  - destruct L as [|d L].
    + simpl. destruct (ms_rest st) as [|x t]; [reflexivity|].
      rewrite (N.eqb_sym c x). destruct (x =? c); simpl; [|reflexivity].
      now rewrite Nat.add_1_r.
    + change (lits (c :: d :: L)) with (Cat (Lit c) (lits (d :: L))).
      cbn [rmatch]. destruct (ms_rest st) as [|x t]; [reflexivity|].
      change (startswith (c :: d :: L) (x :: t))
        with ((c =? x) && startswith (d :: L) t).
      rewrite (N.eqb_sym c x).
      destruct (x =? c); cbn [andb]; [|reflexivity].
      rewrite IH. cbn [ms_rest ms_used ms_caps].
      destruct (startswith (d :: L) t); [|reflexivity].
      cbn [List.length skipn]. f_equal. f_equal. lia.
Qed.

(** ** A greedy repetition followed by something outside its class *)

Lemma rep_greedy_exact (p : char -> bool) (k : mstate -> option mstate) :
  (forall st, match ms_rest st with
              | [] => False
              | c :: _ => p c = true
              end -> k st = None) ->
  forall s min used caps,
    rep true p min k used caps s =
    if (min <=? run p s)%nat
    then k (MState (used + run p s) (skipn (run p s) s) caps)
    else None.
Proof.
  intro Hk. induction s as [|c s IH]; intros min used caps; simpl.
  - destruct min; simpl; [now rewrite Nat.add_0_r|reflexivity].
  - destruct (p c) eqn:Hc.
    + rewrite IH. simpl.
      assert (Hstop : match min with
                      | O => k (MState used (c :: s) caps)
                      | S _ => None
                      end = None).
      { destruct min; [|reflexivity]. apply Hk. simpl. exact Hc. }
      rewrite Hstop.
      destruct min as [|min]; simpl; rewrite ?Nat.add_succ_r.
      * match goal with |- context [k ?a] => now destruct (k a) end.
      * destruct (min <=? run p s)%nat; [|reflexivity].
        match goal with |- context [k ?a] => now destruct (k a) end.
    + destruct min; simpl; [now rewrite Nat.add_0_r|reflexivity].
Qed.

(** ** Scanning *)

Lemma sub_from_unanchored (r : regex) (repl : list str -> str) :
  unanchored r ->
  forall b skip s, sub_from r repl b skip s = sub_from r repl false skip s.
Proof.
  intros Hu b skip s. destruct s as [|c s], skip as [|k]; simpl; try reflexivity;
    now rewrite !(Hu b).
Qed.

Lemma sub_from_skip (r : regex) (repl : list str -> str) :
  forall x n b s,
    List.length x = S n ->
    sub_from r repl b (S n) (x ++ s) = sub_from r repl false 0 s.
Proof.
  induction x as [|c x IH]; intros n b s Hl; simpl in Hl; [discriminate|].
  simpl. destruct n as [|n].
  - destruct x; [reflexivity|discriminate].
  - apply IH. lia.
Qed.

Lemma sub_from_miss (r : regex) (repl : list str -> str) :
  forall pre tail,
    (forall i, (i < List.length pre)%nat ->
               attempt r false false (skipn i pre ++ tail) = None) ->
    sub_from r repl false 0 (pre ++ tail) = pre ++ sub_from r repl false 0 tail.
Proof.
  induction pre as [|c pre IH]; intros tail H; [reflexivity|].
  change ((c :: pre) ++ tail) with (c :: (pre ++ tail)).
  assert (H0 : attempt r false false (c :: pre ++ tail) = None)
    by (apply (H 0%nat); simpl; lia).
  cbn [sub_from]. rewrite H0.
  simpl. f_equal. apply IH. intros i Hi. apply (H (S i)). simpl. lia.
Qed.

Lemma sub_from_hit (r : regex) (repl : list str -> str) :
  forall x rest n g,
    attempt r false false (x ++ rest) = Some (S n, g) ->
    List.length x = S n ->
    sub_from r repl false 0 (x ++ rest) = repl g ++ sub_from r repl false 0 rest.
Proof.
  intros x rest n g H Hl. destruct x as [|c x]; [discriminate|].
  change ((c :: x) ++ rest) with (c :: (x ++ rest)) in *.
  cbn [sub_from]. rewrite H. f_equal. simpl in Hl.
  replace (S n - 1)%nat with n by lia.
  destruct n as [|n].
  - destruct x; [reflexivity|discriminate].
  - apply sub_from_skip. lia.
Qed.

Lemma finditer_from_skip (r : regex) :
  forall x n pos s,
    List.length x = n ->
    finditer_from r pos n (x ++ s) = finditer_from r (pos + n) 0 s.
Proof.
  induction x as [|c x IH]; intros n pos s Hl; simpl in Hl; subst n.
  - now rewrite Nat.add_0_r.
  - simpl. rewrite IH by reflexivity. f_equal. lia.
Qed.

Lemma finditer_from_miss (r : regex) :
  unanchored r ->
  forall pre tail pos,
    (forall i, (i < List.length pre)%nat ->
               attempt r false false (skipn i pre ++ tail) = None) ->
    finditer_from r pos 0 (pre ++ tail) =
    finditer_from r (pos + List.length pre) 0 tail.
Proof.
  intros Hu. induction pre as [|c pre IH]; intros tail pos H.
  - simpl. now rewrite Nat.add_0_r.
  - change ((c :: pre) ++ tail) with (c :: (pre ++ tail)).
    assert (H0 : attempt r false false (c :: pre ++ tail) = None)
      by (apply (H 0%nat); simpl; lia).
    cbn [finditer_from]. rewrite Hu, H0.
    rewrite IH.
    + f_equal. simpl. lia.
    + intros i Hi. apply (H (S i)). simpl. lia.
Qed.

Lemma finditer_from_hit (r : regex) :
  unanchored r ->
  forall x rest n g pos,
    attempt r false false (x ++ rest) = Some (S n, g) ->
    List.length x = S n ->
    finditer_from r pos 0 (x ++ rest) =
    Match pos (pos + S n) g :: finditer_from r (pos + S n) 0 rest.
Proof.
  intros Hu x rest n g pos H Hl. destruct x as [|c x]; [discriminate|].
  change ((c :: x) ++ rest) with (c :: (x ++ rest)) in *.
  cbn [finditer_from]. rewrite Hu, H. f_equal. simpl in Hl.
  replace (S n - 1)%nat with n by lia.
  rewrite finditer_from_skip with (n := n) by lia. f_equal. lia.
Qed.

Lemma finditer_from_shift (r : regex) :
  unanchored r ->
  forall d s pos skip,
    finditer_from r (d + pos) skip s =
    map (shift_match d) (finditer_from r pos skip s).
Proof.
  intros Hu d. induction s as [|c s IH]; intros pos skip.
  - destruct skip; simpl; [|reflexivity].
    rewrite !(Hu (_ =? 0)%nat).
    destruct (attempt r false false []) as [[[|n] g]|]; simpl; try reflexivity.
    + destruct (attempt r false true []) as [[n' g']|]; unfold shift_match; simpl;
        repeat (f_equal; try lia).
    + unfold shift_match; simpl. repeat (f_equal; try lia).
  - destruct skip as [|k].
    + cbn [finditer_from]. rewrite !(Hu (_ =? 0)%nat).
      replace (S (d + pos)) with (d + S pos)%nat by lia.
      destruct (attempt r false false (c :: s)) as [[[|n] g]|].
      * destruct (attempt r false true (c :: s)) as [[n' g']|];
          rewrite !IH; unfold shift_match; simpl; repeat (f_equal; try lia).
      * rewrite IH. unfold shift_match; simpl. repeat (f_equal; try lia).
      * apply IH.
    + simpl. replace (S (d + pos)) with (d + S pos)%nat by lia. apply IH.
Qed.

(** Where nothing matches, [re.sub] changes nothing. *)
Lemma sub_no_match (r : regex) (repl : list str -> str) :
  forall s pos,
    finditer_from r pos 0 s = [] ->
    sub_from r repl (pos =? 0)%nat 0 s = s.
Proof.
  induction s as [|c s IH]; intros pos H.
  - simpl in *. destruct (attempt r (pos =? 0)%nat false []) as [[[|n] g]|];
      [discriminate|discriminate|reflexivity].
  - cbn [finditer_from] in H. cbn [sub_from].
    destruct (attempt r (pos =? 0)%nat false (c :: s)) as [[[|n] g]|];
      [discriminate|discriminate|].
    f_equal. apply (IH (S pos)). exact H.
Qed.

End MatcherFacts.

(* ================================================================== *)
(** * Script A: literal patterns and the bracket scanners *)
(* ================================================================== *)

Section ScriptAFacts.

Import ScriptA.

(** ** Literal patterns *)

Lemma attempt_lits (L : str) (b m : bool) (s : str) :
  attempt (lits L) b m s =
  if startswith L s
  then if m && (List.length L =? 0)%nat then None else Some (List.length L, [])
  else None.
Proof.
  unfold attempt. rewrite rmatch_lits. simpl.
  destruct (startswith L s); [|reflexivity].
  now destruct (m && (List.length L =? 0)%nat).
Qed.

Lemma lits_bol_free (L : str) : bol_free (lits L) = true.
Proof.
  induction L as [|c L IH]; [reflexivity|].
  destruct L; [reflexivity|]. change (bol_free (lits (c :: c0 :: L)))
    with (true && bol_free (lits (c0 :: L))). now rewrite IH.
Qed.

(** A literal cannot start in a text that does not contain it and is
    followed by a character absent from the literal's tail. *)
Lemma no_start_before (L pre : str) (c : char) (v : str) (i : nat) :
  ~ In c (tl L) -> contains L pre = false -> (i < List.length pre)%nat ->
  startswith L (skipn i pre ++ c :: v) = false.
Proof.
  intros Hc Hn Hi.
  destruct (startswith L (skipn i pre ++ c :: v)) eqn:E; [|reflexivity].
  exfalso.
  assert (Hne : skipn i pre <> []).
  { intro H0. apply (f_equal (@List.length char)) in H0.
    rewrite length_skipn in H0. simpl in H0. lia. }
  pose proof (contains_false_skipn L pre i Hn) as Hs.
  destruct (skipn i pre) as [|a u]; [congruence|].
  destruct L as [|x L]; [discriminate|].
  simpl in E, Hs, Hc. apply andb_true_iff in E as [E1 E2].
  rewrite E1 in Hs. simpl in Hs.
  apply startswith_before in E2; [congruence|exact Hc].
Qed.

(** The matches of a literal in [pre ++ L ++ rest] when [pre] does not
    contain it: one at the end of [pre], then those of [rest]. *)
Lemma finditer_lits_first (L pre rest : str) (c : char) (L' : str) :
  L = c :: L' -> ~ In c L' -> contains L pre = false ->
  finditer (lits L) (pre ++ L ++ rest) =
  Match (List.length pre) (List.length pre + List.length L) [] ::
  map (shift_match (List.length pre + List.length L)) (finditer (lits L) rest).
Proof.
  intros HL Hc Hn. unfold finditer.
  pose proof (bol_free_unanchored _ (lits_bol_free L)) as Hu.
  rewrite finditer_from_miss; [|exact Hu|].
  - simpl. rewrite (finditer_from_hit _ Hu L rest (List.length L') []).
    + f_equal; [now subst L|].
      rewrite <- finditer_from_shift by exact Hu.
      f_equal; subst L; simpl; lia.
    + rewrite attempt_lits, startswith_app. now subst L.
    + now subst L.
  - intros i Hi. rewrite attempt_lits.
    subst L. change ((c :: L') ++ rest) with (c :: (L' ++ rest)).
    now rewrite no_start_before.
Qed.

(** Text in which the literal neither occurs nor can begin. *)
Lemma finditer_lits_through (L mid : str) (c : char) (v : str) (pos : nat) :
  ~ In c (tl L) -> contains L mid = false ->
  finditer_from (lits L) pos 0 (mid ++ c :: v) =
  finditer_from (lits L) (pos + List.length mid) 0 (c :: v).
Proof.
  intros Hc Hn.
  apply finditer_from_miss; [exact (bol_free_unanchored _ (lits_bol_free L))|].
  intros i Hi. rewrite attempt_lits. now rewrite no_start_before.
Qed.

(** ** The search for the closing bracket *)

Lemma find_end_pos_shift (d : nat) :
  forall s pos bc,
    find_end_pos s (d + pos) bc = option_map (Nat.add d) (find_end_pos s pos bc).
Proof.
  induction s as [|c s IH]; intros pos bc; cbn [find_end_pos]; [reflexivity|].
  replace (S (d + pos)) with (d + S pos)%nat by lia.
  destruct (c =? ch "["); [apply IH|].
  destruct (c =? ch "]"); [|apply IH].
  destruct (bc - 1 =? 0)%Z; [|apply IH].
  simpl. f_equal. lia.
Qed.

Lemma find_end_pos_item :
  forall item b p rest pos k,
    nested_from b p item = true -> (1 <= k)%Z ->
    find_end_pos (item ++ rest) pos (k + Z.of_nat b) =
    find_end_pos rest (pos + List.length item) k.
Proof.
  induction item as [|c t IH]; intros b p rest pos k H Hk;
    cbn [nested_from find_end_pos app List.length] in *.
  - apply andb_true_iff in H as [Hb _]. apply Nat.eqb_eq in Hb. subst b.
    simpl. now rewrite Z.add_0_r, Nat.add_0_r.
  - replace (pos + S (List.length t))%nat with (S pos + List.length t)%nat by lia.
    destruct (c =? ch "[").
    { rewrite <- (IH (S b) p) by assumption. f_equal. lia. }
    destruct (c =? ch "]").
    { destruct b as [|b']; [discriminate|].
      replace (k + Z.of_nat (S b') - 1 =? 0)%Z with false
        by (symmetry; apply Z.eqb_neq; lia).
      rewrite <- (IH b' p) by assumption. f_equal. lia. }
    destruct (c =? ch "("); [now apply (IH b (S p))|].
    destruct (c =? ch ")").
    { destruct p as [|p']; [discriminate|]. now apply (IH b p'). }
    destruct (c =? ch ",").
    { apply andb_true_iff in H as [_ H]. now apply (IH b p). }
    now apply (IH b p).
Qed.

Lemma find_end_pos_join (items : list str) :
  Forall top_level_item items ->
  forall rest pos k,
    (1 <= k)%Z ->
    find_end_pos (join (py ",") items ++ rest) pos k =
    find_end_pos rest (pos + List.length (join (py ",") items)) k.
Proof.
  induction 1 as [|x items Hx Hitems IH]; intros rest pos k Hk.
  - simpl. now rewrite Nat.add_0_r.
  - destruct items as [|y items].
    + simpl. rewrite <- (Z.add_0_r k) at 1.
      now apply (find_end_pos_item x 0 0).
    + change (join (py ",") (x :: y :: items))
        with (x ++ py "," ++ join (py ",") (y :: items)).
      rewrite <- !app_assoc. rewrite <- (Z.add_0_r k) at 1.
      rewrite (find_end_pos_item x 0 0) by assumption.
      change (py "," ++ join (py ",") (y :: items) ++ rest)
        with (ch "," :: (join (py ",") (y :: items) ++ rest)).
      cbn [find_end_pos].
      change (ch "," =? ch "[") with false. change (ch "," =? ch "]") with false.
      cbn iota. rewrite IH by assumption.
      f_equal. rewrite !length_app. simpl. lia.
Qed.

(** ** The splitting loop *)

Lemma split_loop_item :
  forall item b p rest acc cur,
    nested_from b p item = true ->
    split_loop (item ++ rest) acc (Z.of_nat b) (Z.of_nat p) cur =
    split_loop rest acc 0 0 (cur ++ item).
Proof.
  induction item as [|c t IH]; intros b p rest acc cur H;
    cbn [nested_from split_loop app] in *.
  - apply andb_true_iff in H as [Hb Hp].
    apply Nat.eqb_eq in Hb, Hp. subst. now rewrite app_nil_r.
  - replace (cur ++ c :: t) with ((cur ++ [c]) ++ t) by now rewrite <- app_assoc.
    destruct (c =? ch "[").
    { rewrite <- (IH (S b) p) by assumption. f_equal. lia. }
    destruct (c =? ch "]").
    { destruct b as [|b']; [discriminate|].
      rewrite <- (IH b' p) by assumption. f_equal. lia. }
    destruct (c =? ch "(").
    { rewrite <- (IH b (S p)) by assumption. f_equal. lia. }
    destruct (c =? ch ")").
    { destruct p as [|p']; [discriminate|].
      rewrite <- (IH b p') by assumption. f_equal. lia. }
    destruct (c =? ch ",").
    { apply andb_true_iff in H as [Hd H]. cbn [andb].
      replace ((Z.of_nat b =? 0)%Z && (Z.of_nat p =? 0)%Z) with false.
      - simpl. now apply IH.
      - symmetry. apply negb_true_iff in Hd.
        destruct b, p; simpl in *; try discriminate; reflexivity. }
    simpl. now apply IH.
Qed.

Lemma split_loop_join (items : list str) :
  Forall top_level_item items -> items <> [] ->
  forall acc,
    split_loop (join (py ",") items) acc 0 0 [] =
    (acc ++ map strip (removelast items), last items []).
Proof.
  induction 1 as [|x items Hx Hitems IH]; intros Hne acc; [congruence|].
  destruct items as [|y items].
  - pose proof (split_loop_item x 0 0 [] acc [] Hx) as E.
    cbn [Z.of_nat app split_loop] in E. rewrite app_nil_r in E.
    cbn [join removelast last map]. now rewrite E, app_nil_r.
  - change (join (py ",") (x :: y :: items))
      with (x ++ py "," ++ join (py ",") (y :: items)).
    pose proof (split_loop_item x 0 0 (py "," ++ join (py ",") (y :: items))
                  acc [] Hx) as E.
    cbn [Z.of_nat app] in E. rewrite E. clear E.
    change (py "," ++ join (py ",") (y :: items))
      with (ch "," :: join (py ",") (y :: items)).
    cbn [split_loop].
    change (ch "," =? ch "[") with false. change (ch "," =? ch "]") with false.
    change (ch "," =? ch "(") with false. change (ch "," =? ch ")") with false.
    change (ch "," =? ch ",") with true. cbn [andb Z.eqb]. cbn iota.
    rewrite IH by congruence.
    rewrite removelast_snoc. simpl app at 1.
    change (removelast (x :: y :: items)) with (x :: removelast (y :: items)).
    change (last (x :: y :: items) []) with (last (y :: items) []).
    cbn [map]. now rewrite <- app_assoc.
Qed.

Lemma split_items_join (items : list str) :
  Forall top_level_item items -> items <> [] ->
  split_items (py "[" ++ join (py ",") items ++ py "]") =
  map strip (removelast items) ++
  (if truthy (strip (last items [])) then [strip (last items [])] else []).
Proof.
  intros Hit Hne. unfold split_items, slice, len.
  change (py "[" ++ join (py ",") items ++ py "]")
    with (ch "[" :: (join (py ",") items ++ py "]")).
  cbn [skipn List.length].
  replace (S (List.length (join (py ",") items ++ py "]")) - 1 - 1)%nat
    with (List.length (join (py ",") items) + 0)%nat
    by (rewrite length_app; simpl; lia).
  rewrite firstn_app_2. simpl firstn. rewrite app_nil_r.
  rewrite split_loop_join by assumption. simpl.
  destruct (truthy (strip (last items []))); [reflexivity|].
  now rewrite app_nil_r.
Qed.

End ScriptAFacts.

(* ================================================================== *)
(** * Script A, step 4: the [.properties([...])] rewrite *)
(* ================================================================== *)

Section PropertiesRewrite.

Import ScriptA.

Lemma skipn_app_len {A} (X Y : list A) (n : nat) :
  skipn (List.length X + n) (X ++ Y) = skipn n Y.
Proof. induction X as [|a X IH]; simpl; [reflexivity|exact IH]. Qed.

Lemma firstn_app_len {A} (X Y : list A) (n : nat) :
  firstn (List.length X + n) (X ++ Y) = X ++ firstn n Y.
Proof. induction X as [|a X IH]; simpl; [reflexivity|now rewrite IH]. Qed.

Lemma find_end_pos_ge :
  forall s pos bc e, find_end_pos s pos bc = Some e -> (pos + 2 <= e)%nat.
Proof.
  induction s as [|c s IH]; intros pos bc e H; cbn [find_end_pos] in H;
    [discriminate|].
  destruct (c =? ch "["); [apply IH in H; lia|].
  destruct (c =? ch "]"); [|apply IH in H; lia].
  destruct (bc - 1 =? 0)%Z; [|apply IH in H; lia].
  injection H as <-. lia.
Qed.

(** The loop body only looks at the text from the match on. *)
Lemma rewrite_properties_shift (X Y : str) (m : rmatch_obj) :
  (1 <= m_end m)%nat ->
  rewrite_properties (X ++ Y) (shift_match (List.length X) m) =
  X ++ rewrite_properties Y m.
Proof.
  intro Hm. unfold rewrite_properties, shift_match, slice_from, slice, slice_to.
  cbn [m_start m_end].
  replace (List.length X + m_end m - 1)%nat
    with (List.length X + (m_end m - 1))%nat by lia.
  rewrite skipn_app_len, find_end_pos_shift.
  destruct (find_end_pos (skipn (m_end m - 1) Y) (m_end m - 1) 0) as [e|] eqn:E;
    [|reflexivity].
  apply find_end_pos_ge in E. cbn [option_map].
  rewrite firstn_app_len, skipn_app_len, <- app_assoc.
  replace (List.length X + e - 1 - (List.length X + (m_end m - 1)))%nat
    with (e - 1 - (m_end m - 1))%nat by lia.
  reflexivity.
Qed.

Lemma fold_rewrite_properties_shift (X : str) :
  forall ms Y,
    Forall (fun m => (1 <= m_end m)%nat) ms ->
    fold_left rewrite_properties (map (shift_match (List.length X)) ms) (X ++ Y) =
    X ++ fold_left rewrite_properties ms Y.
Proof.
  induction ms as [|m ms IH]; intros Y H; [reflexivity|].
  inversion H; subst. cbn [map fold_left].
  rewrite rewrite_properties_shift by assumption. now apply IH.
Qed.

(** Every match of a literal ends after its first character. *)
Lemma finditer_lits_end (L : str) :
  L <> [] ->
  forall s pos skip,
    Forall (fun m => (1 <= m_end m)%nat) (finditer_from (lits L) pos skip s).
Proof.
  intro HL.
  assert (Hlen : (1 <= List.length L)%nat) by (destruct L; [congruence|simpl; lia]).
  induction s as [|c s IH]; intros pos skip.
  - destruct skip; cbn [finditer_from]; [|constructor].
    rewrite !attempt_lits. destruct (startswith L []); [|constructor].
    replace (List.length L =? 0)%nat with false by (symmetry; apply Nat.eqb_neq; lia).
    cbn [andb]. destruct (List.length L) eqn:E; [lia|].
    repeat constructor. simpl. lia.
  - destruct skip; cbn [finditer_from]; [|apply IH].
    rewrite !attempt_lits. destruct (startswith L (c :: s)); [|apply IH].
    replace (List.length L =? 0)%nat with false by (symmetry; apply Nat.eqb_neq; lia).
    cbn [andb]. destruct (List.length L) eqn:E; [lia|].
    constructor; [simpl; lia|apply IH].
Qed.

Lemma shift_match_add (a b : nat) (m : rmatch_obj) :
  shift_match a (shift_match b m) = shift_match (a + b) m.
Proof. unfold shift_match. simpl. f_equal; lia. Qed.

Lemma build_calls_app (xs ys : list str) :
  build_calls (xs ++ ys) = build_calls xs ++ build_calls ys.
Proof.
  induction xs as [|x xs IH]; [reflexivity|].
  cbn [app build_calls]. now rewrite IH, app_assoc.
Qed.

Lemma build_calls_strip (items : list str) :
  Forall not_blank items ->
  build_calls (map strip items) = List.concat (map add_property_call items).
Proof.
  induction 1 as [|x items Hx _ IH]; [reflexivity|].
  cbn [map build_calls List.concat]. rewrite strip_idem, IH.
  now rewrite (truthy_true _ Hx).
Qed.

Lemma map_strip_split (items : list str) :
  items <> [] ->
  map strip (removelast items) ++ [strip (last items [])] = map strip items.
Proof.
  intro Hne. rewrite (app_removelast_last [] Hne) at 3.
  now rewrite map_app.
Qed.

Lemma last_nonblank (items : list str) :
  items <> [] -> Forall not_blank items ->
  not_blank (last items []) /\ truthy (strip (last items [])) = true.
Proof.
  intros Hne Hnb.
  assert (H : not_blank (last items [])).
  { rewrite Forall_forall in Hnb. apply Hnb.
    rewrite (app_removelast_last [] Hne) at 2. apply in_or_app. right. now left. }
  split; [exact H|now apply truthy_true].
Qed.

(** The loop body at a well-formed call that starts the text. *)
Lemma rewrite_properties_here (items : list str) (post : str) :
  items <> [] -> Forall top_level_item items -> Forall not_blank items ->
  rewrite_properties
    (py ".properties([" ++ join (py ",") items ++ py "])" ++ post)
    (Match 0 13 []) =
  List.concat (map add_property_call items) ++ post.
Proof.
  intros Hne Hit Hnb. unfold rewrite_properties, slice_from, slice, slice_to.
  cbn [m_start m_end firstn].
  set (body := join (py ",") items).
  change (skipn (13 - 1) (py ".properties([" ++ body ++ py "])" ++ post))
    with (ch "[" :: (body ++ ch "]" :: ch ")" :: post)).
  cbn [find_end_pos]. change (ch "[" =? ch "[") with true. cbn iota.
  unfold body at 1. rewrite find_end_pos_join by (assumption || lia).
  fold body. cbn [find_end_pos].
  change (ch "]" =? ch "[") with false. change (ch "]" =? ch "]") with true.
  cbn iota. change (0 + 1 - 1 =? 0)%Z with true. cbn iota.
  replace (S (13 - 1) + List.length body + 2 - 1 - (13 - 1))%nat
    with (List.length (ch "[" :: body) + 1)%nat by (simpl; lia).
  change (ch "[" :: body ++ ch "]" :: ch ")" :: post)
    with ((ch "[" :: body) ++ ch "]" :: ch ")" :: post).
  rewrite firstn_app_len. cbn [firstn].
  change ((ch "[" :: body) ++ [ch "]"]) with (py "[" ++ body ++ py "]").
  unfold body at 1. rewrite split_items_join by assumption.
  destruct (last_nonblank items Hne Hnb) as [Hl Ht]. rewrite Ht.
  rewrite map_strip_split by assumption.
  rewrite build_calls_strip by assumption.
  cbn [app]. f_equal.
  change (py ".properties([" ++ body ++ py "])" ++ post)
    with (py ".properties(" ++ ((ch "[" :: body) ++ ch "]" :: ch ")" :: post)).
  replace (S (13 - 1) + List.length body + 2)%nat
    with (List.length (py ".properties(") + (List.length (ch "[" :: body) + 2))%nat
    by (simpl; lia).
  rewrite skipn_app_len, skipn_app_len. reflexivity.
Qed.

(** Step 4 at the first call of a text whose list holds no further call. *)
Lemma fix_properties_first_call (pre post : str) (items : list str) :
  items <> [] ->
  Forall top_level_item items ->
  Forall not_blank items ->
  contains (py ".properties([") pre = false ->
  contains (py ".properties([") (join (py ",") items) = false ->
  fix_properties
    (pre ++ py ".properties([" ++ join (py ",") items ++ py "])" ++ post) =
  pre ++ List.concat (map add_property_call items) ++ fix_properties post.
Proof.
  intros Hne Hit Hnb Hpre Hbody. unfold fix_properties, properties_pattern.
  set (L := py ".properties([").
  set (body := join (py ",") items).
  assert (Hu : unanchored (lits L)) by apply bol_free_unanchored, lits_bol_free.
  (* the matches: this call, then those of [post] *)
  rewrite (finditer_lits_first L pre _ (ch ".") (py "properties([")); try exact Hpre;
    [|reflexivity|unfold py, ch; simpl; intuition discriminate].
  assert (Hrest : finditer (lits L) (body ++ py "])" ++ post) =
                  map (shift_match (List.length body + 2)) (finditer (lits L) post)).
  { unfold finditer.
    change (body ++ py "])" ++ post) with (body ++ ch "]" :: ch ")" :: post).
    rewrite finditer_lits_through;
      [|unfold L, py, ch; simpl; intuition discriminate|exact Hbody].
    cbn [finditer_from]. rewrite !Hu, !attempt_lits.
    change (startswith L (ch "]" :: ch ")" :: post)) with false.
    change (startswith L (ch ")" :: post)) with false. cbn iota.
    rewrite <- finditer_from_shift by exact Hu.
    f_equal. lia. }
  rewrite Hrest, map_map.
  rewrite (map_ext _ (shift_match (List.length (pre ++ L ++ body ++ py "])"))));
    [|intro m; rewrite shift_match_add; f_equal;
      rewrite !length_app; simpl; lia].
  cbn [rev]. rewrite <- map_rev, fold_left_app.
  replace (pre ++ L ++ body ++ py "])" ++ post)
    with ((pre ++ L ++ body ++ py "])") ++ post)
    by (now rewrite <- !app_assoc).
  rewrite fold_rewrite_properties_shift.
  - cbn [fold_left]. rewrite <- !app_assoc.
    replace (Match (List.length pre) (List.length pre + List.length L) [])
      with (shift_match (List.length pre) (Match 0 13 []))
      by (unfold shift_match; simpl; f_equal; lia).
    rewrite rewrite_properties_shift by (simpl; lia).
    f_equal. unfold L, body. now apply rewrite_properties_here.
  - apply Forall_rev. apply finditer_lits_end. discriminate.
Qed.

End PropertiesRewrite.

(* ================================================================== *)
(** * The patterns of Script A, one attempt at a time *)
(* ================================================================== *)

Section PatternFacts.

Import ScriptA.

Lemma skipn_app_exact {A} (X Y : list A) : skipn (List.length X) (X ++ Y) = Y.
Proof. induction X as [|a X IH]; simpl; [reflexivity|exact IH]. Qed.

Lemma firstn_app_exact {A} (X Y : list A) : firstn (List.length X) (X ++ Y) = X.
Proof. induction X as [|a X IH]; simpl; [reflexivity|now rewrite IH]. Qed.

Lemma rmatch_cat (b : bool) (r1 r2 : regex) (k : mstate -> option mstate) :
  rmatch b (Cat r1 r2) k = rmatch b r1 (rmatch b r2 k).
Proof. reflexivity. Qed.

Lemma rmatch_grp (b : bool) (r : regex) (k : mstate -> option mstate) (st : mstate) :
  rmatch b (Grp r) k st =
  rmatch b r
    (fun st' => k (MState (ms_used st') (ms_rest st')
                     (ms_caps st' ++ [firstn (ms_used st' - ms_used st) (ms_rest st)])))
    st.
Proof. reflexivity. Qed.

Lemma rmatch_rep (b g : bool) (m : nat) (p : char -> bool)
      (k : mstate -> option mstate) (st : mstate) :
  rmatch b (Rep g m p) k st = rep g p m k (ms_used st) (ms_caps st) (ms_rest st).
Proof. reflexivity. Qed.

Lemma rmatch_ahead_unfold (b : bool) (r : regex) (k : mstate -> option mstate)
      (st : mstate) :
  rmatch b (Ahead r) k st =
  match rmatch b r (fun st' => Some st') st with
  | Some _ => k st
  | None => None
  end.
Proof. reflexivity. Qed.

Lemma rmatch_lit (b : bool) (c : char) (k : mstate -> option mstate) (st : mstate) :
  rmatch b (Lit c) k st =
  match ms_rest st with
  | x :: t => if x =? c then k (MState (S (ms_used st)) t (ms_caps st)) else None
  | [] => None
  end.
Proof. reflexivity. Qed.

Lemma rmatch_cls (b : bool) (p : char -> bool) (k : mstate -> option mstate)
      (st : mstate) :
  rmatch b (Cls p) k st =
  match ms_rest st with
  | x :: t => if p x then k (MState (S (ms_used st)) t (ms_caps st)) else None
  | [] => None
  end.
Proof. reflexivity. Qed.

(** A pattern that begins with a literal only matches where the literal is. *)
Lemma attempt_needs_literal (L : str) (R : regex) (b m : bool) (s : str) :
  startswith L s = false -> attempt (Cat (lits L) R) b m s = None.
Proof.
  intro H. unfold attempt. rewrite rmatch_cat, rmatch_lits.
  cbn [ms_rest]. now rewrite H.
Qed.

(** A greedy group [(p+)] or [(p* )] before something that cannot begin with
    a character of [p] takes the whole run. *)
Lemma rmatch_group_run (b : bool) (min : nat) (p : char -> bool)
      (k : mstate -> option mstate) (st : mstate) :
  (forall st', match ms_rest st' with
               | [] => False
               | c :: _ => p c = true
               end -> k st' = None) ->
  rmatch b (Grp (Rep true min p)) k st =
  if (min <=? run p (ms_rest st))%nat
  then k (MState (ms_used st + run p (ms_rest st))
                 (skipn (run p (ms_rest st)) (ms_rest st))
                 (ms_caps st ++ [firstn (run p (ms_rest st)) (ms_rest st)]))
  else None.
Proof.
  intro Hk. cbn [rmatch]. rewrite rep_greedy_exact.
  - cbn [ms_used ms_rest ms_caps].
    now replace (ms_used st + run p (ms_rest st) - ms_used st)%nat
      with (run p (ms_rest st)) by lia.
  - intros st' H. apply Hk. exact H.
Qed.

Lemma rmatch_run (b : bool) (min : nat) (p : char -> bool)
      (k : mstate -> option mstate) (st : mstate) :
  (forall st', match ms_rest st' with
               | [] => False
               | c :: _ => p c = true
               end -> k st' = None) ->
  rmatch b (Rep true min p) k st =
  if (min <=? run p (ms_rest st))%nat
  then k (MState (ms_used st + run p (ms_rest st))
                 (skipn (run p (ms_rest st)) (ms_rest st)) (ms_caps st))
  else None.
Proof. intro Hk. cbn [rmatch]. now apply rep_greedy_exact. Qed.

(** A literal fails on a text that begins with another character. *)
Lemma lits_fails_on (b : bool) (L : str) (c0 : char) (L' : str)
      (p : char -> bool) (k : mstate -> option mstate) (st : mstate) :
  L = c0 :: L' -> p c0 = false ->
  match ms_rest st with [] => False | c :: _ => p c = true end ->
  rmatch b (lits L) k st = None.
Proof.
  intros -> Hp H. rewrite rmatch_lits.
  destruct (ms_rest st) as [|c t]; [contradiction|].
  cbn [startswith]. destruct (c0 =? c) eqn:E; [|reflexivity].
  apply N.eqb_eq in E. subst c. congruence.
Qed.

(** ** Steps 2 and 3: [L([^\]]+)\]\)] *)

Lemma attempt_list_call (L : str) (b m : bool) (s : str) :
  L <> [] ->
  attempt (list_call_pattern L) b m s =
  if startswith L s then
    let t := skipn (List.length L) s in
    let n := run (not_char "]") t in
    if (1 <=? n)%nat && startswith (py "])") (skipn n t)
    then Some (List.length L + n + 2, [firstn n t])%nat
    else None
  else None.
Proof.
  intro HL. unfold attempt, list_call_pattern. cbn [cat_all].
  rewrite !rmatch_cat, rmatch_lits. cbn [ms_rest ms_used ms_caps].
  destruct (startswith L s); [|reflexivity].
  rewrite rmatch_group_run.
  - cbn [ms_rest ms_used ms_caps app]. cbv zeta.
    destruct (1 <=? run (not_char "]") (skipn (List.length L) s))%nat;
      [|reflexivity].
    rewrite rmatch_lits. cbn [ms_rest ms_used ms_caps andb].
    destruct (startswith (py "])") _); [|reflexivity].
    replace (0 + List.length L + _ + List.length (py "])") =? 0)%nat with false.
    + rewrite andb_false_r. cbn [ms_used ms_caps]. reflexivity.
    + symmetry. apply Nat.eqb_neq. destruct L; [congruence|simpl; lia].
  - intros st' H. apply (lits_fails_on b (py "])") (ch "]") (py ")") (not_char "]"));
      [reflexivity|reflexivity|exact H].
Qed.

Lemma list_call_bol_free (L : str) : bol_free (list_call_pattern L) = true.
Proof.
  unfold list_call_pattern. cbn [cat_all bol_free].
  now rewrite lits_bol_free.
Qed.

(** The attempt at a call whose list has no closing bracket inside. *)
Lemma attempt_list_call_here (L body rest : str) (b m : bool) :
  L <> [] -> body <> [] -> forallb (not_char "]") body = true ->
  attempt (list_call_pattern L) b m (L ++ body ++ py "])" ++ rest) =
  Some (List.length L + List.length body + 2, [body])%nat.
Proof.
  intros HL Hb Hp. rewrite attempt_list_call by exact HL.
  rewrite startswith_app, skipn_app_exact. cbv zeta.
  change (body ++ py "])" ++ rest) with (body ++ ch "]" :: ch ")" :: rest).
  rewrite run_app by (assumption || reflexivity).
  rewrite skipn_app_exact, firstn_app_exact.
  replace (1 <=? List.length body)%nat with true.
  - reflexivity.
  - symmetry. apply Nat.leb_le. destruct body; [congruence|simpl; lia].
Qed.

(** The substitution at the first call of a text. *)
Lemma sub_list_call_first (L : str) (c0 : char) (L' : str)
      (repl : list str -> str) (pre body post : str) :
  L = c0 :: L' -> ~ In c0 L' ->
  contains L pre = false -> body <> [] ->
  forallb (not_char "]") body = true ->
  sub (list_call_pattern L) repl (pre ++ L ++ body ++ py "])" ++ post) =
  pre ++ repl [body] ++ sub (list_call_pattern L) repl post.
Proof.
  intros HL Hc Hpre Hb Hp.
  assert (HLne : L <> []) by (subst L; discriminate).
  pose proof (bol_free_unanchored _ (list_call_bol_free L)) as Hu.
  unfold sub. rewrite !(sub_from_unanchored _ _ Hu true).
  rewrite sub_from_miss.
  - f_equal.
    replace (L ++ body ++ py "])" ++ post)
      with ((L ++ body ++ py "])") ++ post) by (now rewrite <- !app_assoc).
    apply (sub_from_hit _ _ _ _ (List.length L + List.length body + 1)).
    + rewrite <- !app_assoc.
      rewrite attempt_list_call_here by assumption. f_equal. f_equal. lia.
    + rewrite !length_app. simpl. lia.
  - intros i Hi. apply attempt_needs_literal.
    subst L. change ((c0 :: L') ++ body ++ py "])" ++ post)
      with (c0 :: (L' ++ body ++ py "])" ++ post)).
    now apply no_start_before.
Qed.

End PatternFacts.

(* ================================================================== *)
(** * Script A, steps 5 and 6: the two [builder()] rules *)
(* ================================================================== *)

Section BuilderFacts.

Import ScriptA.

(** ** Step 5: the lazy group and the lookahead *)

Lemma rep_lazy_exact (p : char -> bool) (ok : str -> bool)
      (k : mstate -> option mstate) (caps : list str) :
  forall s used,
    (forall u r, ok r = false -> k (MState u r caps) = None) ->
    (forall u r, (used <= u)%nat -> ok r = true -> k (MState u r caps) <> None) ->
    rep false p 0 k used caps s =
    match lazy_len p ok s with
    | Some n => k (MState (used + n) (skipn n s) caps)
    | None => None
    end.
Proof.
  induction s as [|c s IH]; intros used Hno Hyes; cbn [rep lazy_len].
  - destruct (ok []) eqn:E.
    + now rewrite Nat.add_0_r.
    + apply Hno. exact E.
  - cbn [pred]. destruct (ok (c :: s)) eqn:E.
    + rewrite Nat.add_0_r. cbn [skipn].
      pose proof (Hyes used (c :: s) (le_n _) E) as Hk.
      destruct (p c); [|reflexivity].
      now destruct (k (MState used (c :: s) caps)).
    + rewrite (Hno used (c :: s) E).
      destruct (p c); [|reflexivity].
      rewrite IH; [|exact Hno|intros u r Hu; apply Hyes; lia].
      destruct (lazy_len p ok s) as [n|]; [|reflexivity].
      cbn [option_map skipn]. f_equal. f_equal. lia.
Qed.

Lemma lazy_len_ok (p : char -> bool) (ok : str -> bool) :
  forall s n, lazy_len p ok s = Some n -> ok (skipn n s) = true.
Proof.
  induction s as [|c s IH]; intros n E; cbn [lazy_len] in E.
  - destruct (ok []) eqn:E0; [|discriminate]. injection E as <-. exact E0.
  - destruct (ok (c :: s)) eqn:E0.
    + injection E as <-. exact E0.
    + destruct (p c); [|discriminate].
      destruct (lazy_len p ok s) as [n'|] eqn:E1; [|discriminate].
      injection E as <-. cbn [skipn]. now apply IH.
Qed.

Lemma lazy_len_here (p : char -> bool) (ok : str -> bool) (s : str) :
  ok s = true -> lazy_len p ok s = Some O.
Proof. intro H. destruct s; cbn [lazy_len]; now rewrite H. Qed.

Lemma rmatch_ahead (b : bool) (k : mstate -> option mstate) (st : mstate) :
  rmatch b (Ahead (Cat ws_star (Cls (fun c => is_char "," c || is_char ")" c)))) k st =
  if ahead_ok (ms_rest st) then k st else None.
Proof.
  rewrite rmatch_ahead_unfold, rmatch_cat. unfold ws_star.
  rewrite rmatch_run.
  - cbn [Nat.leb ms_rest]. rewrite rmatch_cls. cbn [ms_rest].
    unfold ahead_ok, comma_or_rparen.
    destruct (skipn (run is_space (ms_rest st)) (ms_rest st)) as [|c t];
      [reflexivity|].
    now destruct (is_char "," c || is_char ")" c).
  - intros st' H. rewrite rmatch_cls.
    destruct (ms_rest st') as [|c t]; [contradiction|].
    destruct (is_char "," c || is_char ")" c) eqn:E; [|reflexivity].
    exfalso. unfold is_char in E. apply orb_true_iff in E as [E|E];
      apply N.eqb_eq in E; subst c; discriminate.
Qed.

Lemma attempt_kind_options (b m : bool) (s : str) :
  attempt kind_options_pattern b m s =
  if startswith (py "NodePropertyKindOptions::builder()") s then
    let t := skipn 34 s in
    match lazy_len (not_char ".") ahead_ok t with
    | Some n => Some (34 + n, [firstn n t])%nat
    | None => None
    end
  else None.
Proof.
  unfold attempt, kind_options_pattern. cbn [cat_all].
  rewrite !rmatch_cat, rmatch_lits. cbn [ms_rest ms_used ms_caps].
  destruct (startswith (py "NodePropertyKindOptions::builder()") s); [|reflexivity].
  change (List.length (py "NodePropertyKindOptions::builder()")) with 34%nat.
  rewrite rmatch_grp, rmatch_rep. cbn [ms_rest ms_used ms_caps].
  rewrite (rep_lazy_exact _ ahead_ok).
  - cbv zeta. destruct (lazy_len (not_char ".") ahead_ok (skipn 34 s)) as [n|] eqn:E;
      [|reflexivity].
    rewrite rmatch_ahead. cbn [ms_rest ms_used ms_caps].
    rewrite (lazy_len_ok _ _ _ _ E). rewrite andb_false_r. cbn [ms_used ms_caps app].
    replace (0 + 34 + n - (0 + 34))%nat with n by lia. reflexivity.
  - intros u r H. rewrite rmatch_ahead. cbn [ms_rest]. now rewrite H.
  - intros u r Hu H. rewrite rmatch_ahead. cbn [ms_rest ms_used]. rewrite H.
    replace (u =? 0)%nat with false by (symmetry; apply Nat.eqb_neq; lia).
    rewrite andb_false_r. discriminate.
Qed.

Lemma kind_options_bol_free : bol_free kind_options_pattern = true.
Proof. reflexivity. Qed.

(** Plain text, then optional whitespace, then the comma or parenthesis:
    the lazy group stops right after the plain text. *)
Lemma ahead_ok_ws (ws : str) (t : char) (post : str) :
  forallb is_space ws = true -> comma_or_rparen t = true ->
  ahead_ok (ws ++ t :: post) = true.
Proof.
  intros Hws Ht. unfold ahead_ok.
  assert (Hsp : is_space t = false).
  { unfold comma_or_rparen, is_char in Ht. apply orb_true_iff in Ht as [E|E];
      apply N.eqb_eq in E; subst t; reflexivity. }
  rewrite run_app; [|exact Hws|exact Hsp].
  now rewrite skipn_app_exact.
Qed.

Lemma ahead_ok_plain (g tail : str) :
  g <> [] -> forallb plain_char g = true -> is_space (last g 0) = false ->
  ahead_ok (g ++ tail) = false.
Proof.
  induction g as [|c g IH]; intros Hne Hp Hl; [congruence|].
  cbn [forallb] in Hp. apply andb_true_iff in Hp as [Hc Hp].
  unfold ahead_ok. cbn [app run].
  destruct (is_space c) eqn:Es.
  - cbn [skipn]. destruct g as [|d g]; [cbn [last] in Hl; congruence|].
    apply IH; [discriminate|exact Hp|exact Hl].
  - cbn [skipn]. unfold plain_char in Hc. apply andb_true_iff in Hc as [_ Hc].
    now apply negb_true_iff in Hc.
Qed.

Lemma lazy_len_plain (g ws : str) (t : char) (post : str) :
  forallb plain_char g = true -> is_space (last g 0) = false ->
  forallb is_space ws = true -> comma_or_rparen t = true ->
  lazy_len (not_char ".") ahead_ok (g ++ ws ++ t :: post) = Some (List.length g).
Proof.
  intros Hp Hl Hws Ht. induction g as [|c g IH].
  - cbn [app List.length]. apply lazy_len_here. now apply ahead_ok_ws.
  - change ((c :: g) ++ ws ++ t :: post) with (c :: (g ++ ws ++ t :: post)).
    cbn [lazy_len].
    change (c :: (g ++ ws ++ t :: post)) with ((c :: g) ++ ws ++ t :: post).
    rewrite ahead_ok_plain by (discriminate || assumption).
    cbn [forallb] in Hp. apply andb_true_iff in Hp as [Hc Hp].
    unfold plain_char in Hc. apply andb_true_iff in Hc as [Hc _]. rewrite Hc.
    rewrite IH; [reflexivity|exact Hp|].
    destruct g; [reflexivity|exact Hl].
Qed.

(** The substitution at the first invocation of a text, when plain text and
    then a comma or a closing parenthesis follow it. *)
Lemma fix_kind_options_first (pre g ws : str) (t : char) (post : str) :
  contains (py "NodePropertyKindOptions::builder()") pre = false ->
  plain_text g -> forallb is_space ws = true -> comma_or_rparen t = true ->
  fix_kind_options
    (pre ++ py "NodePropertyKindOptions::builder()" ++ g ++ ws ++ t :: post) =
  pre ++ py "NodePropertyKindOptions::builder()" ++ g ++ py ".build()" ++
  ws ++ t :: fix_kind_options post.
Proof.
  intros Hpre [Hp Hl] Hws Ht. unfold fix_kind_options, sub.
  set (L := py "NodePropertyKindOptions::builder()").
  pose proof (bol_free_unanchored _ kind_options_bol_free) as Hu.
  rewrite !(sub_from_unanchored _ _ Hu true).
  assert (Hmiss : forall (x tail : str) (c : char) (i : nat),
             ~ In c (tl L) -> contains L x = false -> (i < List.length x)%nat ->
             attempt kind_options_pattern false false (skipn i x ++ c :: tail) = None).
  { intros x tail c i Hc Hx Hi. rewrite attempt_kind_options. fold L.
    now rewrite no_start_before. }
  rewrite sub_from_miss.
  2:{ intros i Hi. apply (Hmiss pre _ (ch "N")); try assumption.
      unfold L, py, ch; simpl; intuition discriminate. }
  f_equal.
  replace (L ++ g ++ ws ++ t :: post) with ((L ++ g) ++ ws ++ t :: post)
    by (now rewrite <- app_assoc).
  rewrite (sub_from_hit _ _ _ _ (33 + List.length g) [g]).
  - unfold add_kind_build. cbn [nth]. fold L. rewrite <- !app_assoc.
    do 3 f_equal.
    change (ws ++ t :: post) with (ws ++ [t] ++ post). rewrite app_assoc.
    rewrite sub_from_miss.
    + now rewrite <- app_assoc.
    + intros i Hi. rewrite attempt_kind_options. fold L.
      assert (Hsp : is_space t = false).
      { unfold comma_or_rparen, is_char in Ht. apply orb_true_iff in Ht as [E|E];
          apply N.eqb_eq in E; subst t; reflexivity. }
      assert (Hhd : forall y, y <> [] -> forallb (fun c => negb (c =? ch "N")) y = true ->
                              startswith L (y ++ post) = false).
      { intros [|c y] Hy Hall; [congruence|]. cbn [forallb] in Hall.
        apply andb_true_iff in Hall as [Hc _]. apply negb_true_iff in Hc.
        unfold L. cbn [py list_ascii_of_string map app startswith].
        fold (ch "N"). now rewrite N.eqb_sym, Hc. }
      rewrite Hhd; [reflexivity| |].
      * intro H0. apply (f_equal (@List.length char)) in H0.
        rewrite length_skipn in H0. simpl in H0. lia.
      * assert (Hall : forallb (fun c => negb (c =? ch "N")) (ws ++ [t]) = true).
        { rewrite forallb_app. apply andb_true_iff. split.
          - rewrite forallb_forall in Hws |- *. intros c Hc. apply Hws in Hc.
            apply negb_true_iff. apply N.eqb_neq. intros ->. discriminate.
          - cbn [forallb]. rewrite andb_true_r. apply negb_true_iff.
            apply N.eqb_neq. intros ->. discriminate. }
        rewrite forallb_forall in Hall |- *. intros c Hc. apply Hall.
        rewrite <- (firstn_skipn i (ws ++ [t])). apply in_or_app. now right.
  - rewrite <- app_assoc. rewrite attempt_kind_options. fold L.
    rewrite startswith_app. change 34%nat with (List.length L) at 1.
    rewrite skipn_app_exact. cbv zeta.
    rewrite lazy_len_plain by assumption.
    rewrite firstn_app_exact. reflexivity.
  - rewrite length_app. reflexivity.
Qed.

(** An invocation directly followed by a dot is left as it is. *)
Lemma fix_kind_options_dot (pre rest : str) :
  contains (py "NodePropertyKindOptions::builder()") pre = false ->
  fix_kind_options (pre ++ py "NodePropertyKindOptions::builder()" ++ ch "." :: rest) =
  pre ++ py "NodePropertyKindOptions::builder()" ++ ch "." :: fix_kind_options rest.
Proof.
  intros Hpre. unfold fix_kind_options, sub.
  set (L := py "NodePropertyKindOptions::builder()").
  pose proof (bol_free_unanchored _ kind_options_bol_free) as Hu.
  rewrite !(sub_from_unanchored _ _ Hu true).
  rewrite sub_from_miss.
  2:{ intros i Hi. rewrite attempt_kind_options. fold L.
      change (L ++ ch "." :: rest) with (ch "N" :: (tl L ++ ch "." :: rest)).
      rewrite no_start_before; [reflexivity| |exact Hpre|exact Hi].
      unfold L, py, ch; simpl; intuition discriminate. }
  (* the invocation and the dot are passed over: no attempt succeeds there *)
  apply f_equal. reflexivity.
Qed.

(** ** Step 6: the forward scan *)

Lemma scan_chain_shift (d : nat) :
  forall s pos pc, scan_chain s (d + pos) pc = (d + scan_chain s pos pc)%nat.
Proof.
  induction s as [|c s IH]; intros pos pc; cbn [scan_chain]; [reflexivity|].
  replace (S (d + pos)) with (d + S pos)%nat by lia.
  destruct (c =? ch "("); [apply IH|].
  destruct (c =? ch ")"); [apply IH|].
  destruct ((c =? ch ".") && (pc =? 0)%Z); [apply IH|].
  destruct (is_terminator c && (pc =? 0)%Z); [reflexivity|apply IH].
Qed.

Lemma scan_chain_ge :
  forall s pos pc, (pos <= scan_chain s pos pc)%nat.
Proof.
  induction s as [|c s IH]; intros pos pc; cbn [scan_chain]; [lia|].
  destruct (c =? ch "("); [specialize (IH (S pos) (pc + 1)%Z); lia|].
  destruct (c =? ch ")"); [specialize (IH (S pos) (pc - 1)%Z); lia|].
  destruct ((c =? ch ".") && (pc =? 0)%Z); [specialize (IH (S pos) pc); lia|].
  destruct (is_terminator c && (pc =? 0)%Z); [lia|specialize (IH (S pos) pc); lia].
Qed.

Lemma ensure_build_shift (X Y : str) (m : rmatch_obj) :
  ensure_build (X ++ Y) (shift_match (List.length X) m) = X ++ ensure_build Y m.
Proof.
  unfold ensure_build, shift_match, slice_from, slice, slice_to. cbn [m_end].
  rewrite skipn_app_len, scan_chain_shift.
  pose proof (scan_chain_ge (skipn (m_end m) Y) (m_end m) 0) as Hge.
  set (pos := scan_chain (skipn (m_end m) Y) (m_end m) 0) in *.
  replace (List.length X + pos - (List.length X + m_end m))%nat
    with (pos - m_end m)%nat by lia.
  rewrite skipn_app_len, firstn_app_len.
  destruct (negb (contains (py ".build()") (firstn (pos - m_end m) (skipn (m_end m) Y))));
    [now rewrite <- app_assoc|reflexivity].
Qed.

Lemma fold_ensure_build_shift (X : str) :
  forall ms Y,
    fold_left ensure_build (map (shift_match (List.length X)) ms) (X ++ Y) =
    X ++ fold_left ensure_build ms Y.
Proof.
  induction ms as [|m ms IH]; intros Y; [reflexivity|].
  cbn [map fold_left]. rewrite ensure_build_shift. apply IH.
Qed.

Lemma terminator_cases (t : char) :
  is_terminator t = true ->
  t = ch "," \/ t = ch ";" \/ t = ch "}" \/ t = ch "]".
Proof.
  unfold is_terminator. rewrite !orb_true_iff, !N.eqb_eq. tauto.
Qed.

Lemma scan_chain_chain :
  forall chain p rest pos,
    chain_from p chain = true ->
    scan_chain (chain ++ rest) pos (Z.of_nat p) =
    scan_chain rest (pos + List.length chain) 0.
Proof.
  induction chain as [|c chain IH]; intros p rest pos H;
    cbn [chain_from app scan_chain List.length] in *.
  - apply Nat.eqb_eq in H. subst p. now rewrite Nat.add_0_r.
  - replace (pos + S (List.length chain))%nat
      with (S pos + List.length chain)%nat by lia.
    destruct (c =? ch "(").
    { rewrite <- (IH (S p)) by assumption. f_equal. lia. }
    destruct (c =? ch ")").
    { destruct p as [|p']; [discriminate|].
      rewrite <- (IH p') by assumption. f_equal. lia. }
    destruct (is_terminator c).
    + apply andb_true_iff in H as [Hp H]. apply negb_true_iff in Hp.
      replace (Z.of_nat p =? 0)%Z with false
        by (destruct p; [discriminate|reflexivity]).
      rewrite !andb_false_r. now apply IH.
    + cbn [andb]. destruct ((c =? ch ".") && (Z.of_nat p =? 0)%Z); now apply IH.
Qed.

(** The loop body at an invocation that starts the text and is followed by
    a chain and a terminator. *)
Lemma ensure_build_here (chain : str) (t : char) (post : str) :
  method_chain chain -> is_terminator t = true ->
  ensure_build (py "NodeProperty::builder()" ++ chain ++ t :: post) (Match 0 23 []) =
  py "NodeProperty::builder()" ++ chain ++
  (if contains (py ".build()") chain then [] else py ".build()") ++ t :: post.
Proof.
  intros Hc Ht. unfold ensure_build, slice_from, slice, slice_to. cbn [m_end].
  set (L := py "NodeProperty::builder()").
  change (skipn 23 (L ++ chain ++ t :: post)) with (chain ++ t :: post).
  pose proof (scan_chain_chain chain 0 (t :: post) 23 Hc) as E.
  cbn [Z.of_nat] in E. rewrite E. clear E.
  assert (Hstop : scan_chain (t :: post) (23 + List.length chain) 0 =
                  (23 + List.length chain)%nat).
  { destruct (terminator_cases t Ht) as [ -> | [ -> | [ -> | -> ] ] ]; reflexivity. }
  rewrite Hstop.
  replace (23 + List.length chain - 23)%nat with (List.length chain) by lia.
  rewrite firstn_app_exact.
  assert (E1 : firstn (23 + List.length chain) (L ++ chain ++ t :: post) = L ++ chain).
  { change 23%nat with (List.length L). rewrite firstn_app_len.
    now rewrite firstn_app_exact. }
  assert (E2 : skipn (23 + List.length chain) (L ++ chain ++ t :: post) = t :: post).
  { change 23%nat with (List.length L). rewrite skipn_app_len.
    now rewrite skipn_app_exact. }
  rewrite E1, E2.
  destruct (contains (py ".build()") chain); cbn [negb app].
  - reflexivity.
  - now rewrite <- !app_assoc.
Qed.

(** Step 6 at the first invocation of a text. *)
Lemma fix_builders_first (pre chain : str) (t : char) (post : str) :
  contains (py "NodeProperty::builder()") pre = false ->
  contains (py "NodeProperty::builder()") chain = false ->
  method_chain chain -> is_terminator t = true ->
  fix_builders (pre ++ py "NodeProperty::builder()" ++ chain ++ t :: post) =
  pre ++ py "NodeProperty::builder()" ++ chain ++
  (if contains (py ".build()") chain then [] else py ".build()") ++
  t :: fix_builders post.
Proof.
  intros Hpre Hchain Hc Ht. unfold fix_builders, builder_pattern.
  set (L := py "NodeProperty::builder()").
  assert (Hu : unanchored (lits L)) by apply bol_free_unanchored, lits_bol_free.
  assert (HtL : ~ In t L).
  { intro Hin. destruct (terminator_cases t Ht) as [ -> | [ -> | [ -> | -> ] ] ];
      unfold L, py, ch in Hin; simpl in Hin; intuition discriminate. }
  rewrite (finditer_lits_first L pre _ (ch "N") (py "odeProperty::builder()"));
    try exact Hpre; [|reflexivity|unfold py, ch; simpl; intuition discriminate].
  assert (Hrest : finditer (lits L) (chain ++ t :: post) =
                  map (shift_match (List.length chain + 1)) (finditer (lits L) post)).
  { unfold finditer. rewrite finditer_lits_through;
      [|intro Hin; apply HtL; now right|exact Hchain].
    cbn [finditer_from]. rewrite !Hu, !attempt_lits.
    replace (startswith L (t :: post)) with false.
    - rewrite <- finditer_from_shift by exact Hu. f_equal. lia.
    - symmetry. unfold L. cbn [py list_ascii_of_string map startswith].
      fold (ch "N"). replace (ch "N" =? t) with false; [reflexivity|].
      symmetry. apply N.eqb_neq. intros <-. apply HtL. now left. }
  rewrite Hrest, map_map.
  rewrite (map_ext _ (shift_match (List.length (pre ++ L ++ chain ++ [t]))));
    [|intro m; rewrite shift_match_add; f_equal;
      rewrite !length_app; simpl; lia].
  cbn [rev]. rewrite <- map_rev, fold_left_app.
  replace (pre ++ L ++ chain ++ t :: post)
    with ((pre ++ L ++ chain ++ [t]) ++ post)
    by (now rewrite <- !app_assoc).
  rewrite fold_ensure_build_shift.
  cbn [fold_left]. rewrite <- !app_assoc.
  replace (Match (List.length pre) (List.length pre + List.length L) [])
    with (shift_match (List.length pre) (Match 0 23 []))
    by (unfold shift_match; simpl; f_equal; lia).
  rewrite ensure_build_shift. f_equal.
  change ([t] ++ fold_left ensure_build (rev (finditer (lits L) post)) post)
    with (t :: fold_left ensure_build (rev (finditer (lits L) post)) post).
  unfold L. now apply ensure_build_here.
Qed.

End BuilderFacts.

(* ================================================================== *)
(** * Script B: the library functions *)
(* ================================================================== *)

Section JsonFacts.

Import Json.

Lemma scanstring_plain :
  forall data rest chunks,
    forallb json_plain data = true ->
    scanstring (data ++ dquote :: rest) chunks = Some (chunks ++ data, rest).
Proof.
  induction data as [|c data IH]; intros rest chunks H.
  - cbn [app scanstring]. rewrite N.eqb_refl. now rewrite app_nil_r.
  - cbn [forallb] in H. apply andb_true_iff in H as [Hc H].
    unfold json_plain in Hc. apply andb_true_iff in Hc as [Hc H3].
    apply andb_true_iff in Hc as [H1 H2].
    apply negb_true_iff in H1, H2, H3.
    change ((c :: data) ++ dquote :: rest) with (c :: (data ++ dquote :: rest)).
    cbn [scanstring]. rewrite H1, H2, H3. rewrite IH by exact H.
    now rewrite <- app_assoc.
Qed.

(** The document [{"b64_json": "<data>"}] parses to the dict with that one
    entry. *)
Lemma loads_wrap (data : str) :
  forallb json_plain data = true ->
  loads (wrap_b64_json data) = Ok (PyDict [(py "b64_json", PyStr data)]).
Proof.
  intro H. unfold loads, wrap_b64_json.
  change (startswith [65279] _) with false. cbn iota.
  change (py "{" ++ [dquote] ++ py "b64_json" ++ [dquote] ++ py ": " ++
          [dquote] ++ data ++ [dquote] ++ py "}")
    with (ch "{" :: dquote :: py "b64_json" ++ dquote :: ch ":" :: ch " " ::
          dquote :: (data ++ dquote :: py "}")).
  remember (data ++ dquote :: py "}") as tail eqn:Et.
  simpl. rewrite Et, (scanstring_plain data (py "}") [] H).
  reflexivity.
Qed.

End JsonFacts.

Section Base64Facts.

Import Base64.

Lemma below_in (n : nat) (a : N) : (N.to_nat a < n)%nat -> In a (below n).
Proof.
  intro H. unfold below. apply in_map_iff. exists (N.to_nat a).
  split; [apply N2Nat.id|]. apply in_seq. lia.
Qed.

Lemma below_forall (n : nat) (P : N -> bool) :
  forallb P (below n) = true -> forall a, a < N.of_nat n -> P a = true.
Proof.
  intros H a Ha. rewrite forallb_forall in H. apply H. apply below_in. lia.
Qed.

Lemma below_forall2 (n : nat) (P : N -> N -> bool) :
  forallb (fun a => forallb (P a) (below n)) (below n) = true ->
  forall a b, a < N.of_nat n -> b < N.of_nat n -> P a b = true.
Proof.
  intros H a b Ha Hb.
  pose proof (below_forall n _ H a Ha) as H1. cbv beta in H1.
  exact (below_forall n _ H1 b Hb).
Qed.

Lemma byte_bound (x : byte) : Byte.to_N x < 256.
Proof. pose proof (Byte.to_N_bounded x). lia. Qed.

Lemma to_byte_to_N (x : byte) : to_byte (Byte.to_N x) = x.
Proof.
  unfold to_byte. rewrite N.mod_small by apply byte_bound.
  now rewrite Byte.of_to_N.
Qed.

(** *** The alphabet *)

Lemma a2b_b2a (v : N) : v < 64 -> a2b (b2a v) = Some v /\ (b2a v =? pad) = false.
Proof.
  intro Hv.
  assert (H : (match a2b (b2a v) with Some u => u =? v | None => false end)
              && negb (b2a v =? pad) = true).
  { revert v Hv. apply (below_forall 64). vm_compute. reflexivity. }
  apply andb_true_iff in H as [H1 H2]. apply negb_true_iff in H2.
  split; [|exact H2].
  destruct (a2b (b2a v)) as [u|]; [|discriminate].
  apply N.eqb_eq in H1. now subst.
Qed.

Lemma b2a_text_char (v : N) : v < 64 -> b64_text_char (b2a v) = true.
Proof.
  intro Hv. unfold b64_text_char, is_b64_char.
  destruct (a2b_b2a v Hv) as [H _]. now rewrite H.
Qed.

(** *** The four sextets of three bytes *)

Lemma sextet_bounds (a b : N) :
  a < 256 -> b < 256 ->
  N.shiftr a 2 < 64 /\
  N.lor (N.shiftl (N.land a 3) 4) (N.shiftr b 4) < 64 /\
  N.lor (N.shiftl (N.land a 15) 2) (N.shiftr b 6) < 64 /\
  N.land a 63 < 64 /\
  N.shiftl (N.land a 3) 4 < 64 /\
  N.shiftl (N.land a 15) 2 < 64.
Proof.
  intros Ha Hb.
  assert (H : (N.shiftr a 2 <? 64) &&
              (N.lor (N.shiftl (N.land a 3) 4) (N.shiftr b 4) <? 64) &&
              (N.lor (N.shiftl (N.land a 15) 2) (N.shiftr b 6) <? 64) &&
              (N.land a 63 <? 64) &&
              (N.shiftl (N.land a 3) 4 <? 64) &&
              (N.shiftl (N.land a 15) 2 <? 64) = true).
  { revert a b Ha Hb. apply (below_forall2 256). vm_compute. reflexivity. }
  rewrite !andb_true_iff, !N.ltb_lt in H. tauto.
Qed.

(** The first decoded byte. *)
Lemma decode_first (a b : N) :
  a < 256 -> b < 256 ->
  N.lor (N.shiftl (N.shiftr a 2) 2)
        (N.shiftr (N.lor (N.shiftl (N.land a 3) 4) (N.shiftr b 4)) 4) = a.
Proof.
  intros Ha Hb. apply N.eqb_eq. revert a b Ha Hb.
  apply (below_forall2 256). vm_compute. reflexivity.
Qed.

(** What is kept of the second sextet. *)
Lemma keep_second (a b : N) :
  a < 256 -> b < 256 ->
  N.land (N.lor (N.shiftl (N.land a 3) 4) (N.shiftr b 4)) 15 = N.shiftr b 4.
Proof.
  intros Ha Hb. apply N.eqb_eq. revert a b Ha Hb.
  apply (below_forall2 256). vm_compute. reflexivity.
Qed.

(** The second decoded byte. *)
Lemma decode_second (b c : N) :
  b < 256 -> c < 256 ->
  N.lor (N.shiftl (N.shiftr b 4) 4)
        (N.shiftr (N.lor (N.shiftl (N.land b 15) 2) (N.shiftr c 6)) 2) = b.
Proof.
  intros Hb Hc. apply N.eqb_eq. revert b c Hb Hc.
  apply (below_forall2 256). vm_compute. reflexivity.
Qed.

(** The third decoded byte. *)
Lemma decode_third (b c : N) :
  b < 256 -> c < 256 ->
  N.lor (N.shiftl (N.land (N.lor (N.shiftl (N.land b 15) 2) (N.shiftr c 6)) 3) 6)
        (N.land c 63) = c.
Proof.
  intros Hb Hc. apply N.eqb_eq. revert b c Hb Hc.
  apply (below_forall2 256). vm_compute. reflexivity.
Qed.

(** *** The decoder on encoded text *)

(** One character of the alphabet, seen by the loop. *)
Lemma a2b_loop_char (v : N) (rest : list N) (quad_pos : nat) (leftchar : N)
      (pads : nat) (out : list byte) :
  v < 64 ->
  a2b_loop (b2a v :: rest) quad_pos leftchar pads out =
  match quad_pos with
  | 0%nat => a2b_loop rest 1 v 0 out
  | 1%nat =>
      a2b_loop rest 2 (N.land v 15) 0
        (to_byte (N.lor (N.shiftl leftchar 2) (N.shiftr v 4)) :: out)
  | 2%nat =>
      a2b_loop rest 3 (N.land v 3) 0
        (to_byte (N.lor (N.shiftl leftchar 4) (N.shiftr v 2)) :: out)
  | _ =>
      a2b_loop rest 0 0 0 (to_byte (N.lor (N.shiftl leftchar 6) v) :: out)
  end.
Proof.
  intro Hv. destruct (a2b_b2a v Hv) as [H1 H2].
  cbn [a2b_loop]. now rewrite H2, H1.
Qed.

Lemma a2b_loop_three (x y z : byte) (rest : list N) (out : list byte) :
  a2b_loop (b64encode [x; y; z] ++ rest) 0 0 0 out =
  a2b_loop rest 0 0 0 (z :: y :: x :: out).
Proof.
  pose proof (byte_bound x) as Hx. pose proof (byte_bound y) as Hy.
  pose proof (byte_bound z) as Hz.
  destruct (sextet_bounds _ _ Hx Hy) as (B1 & B2 & _).
  destruct (sextet_bounds _ _ Hy Hz) as (_ & _ & B3 & _).
  destruct (sextet_bounds _ _ Hz Hz) as (_ & _ & _ & B4 & _).
  cbn [b64encode app].
  rewrite a2b_loop_char by exact B1. rewrite a2b_loop_char by exact B2.
  rewrite a2b_loop_char by exact B3. rewrite a2b_loop_char by exact B4.
  rewrite decode_first by assumption. rewrite keep_second by assumption.
  rewrite decode_second by assumption. rewrite decode_third by assumption.
  now rewrite !to_byte_to_N.
Qed.

Lemma a2b_loop_two (x y : byte) (out : list byte) :
  a2b_loop (b64encode [x; y]) 0 0 0 out = Some (rev (y :: x :: out)).
Proof.
  pose proof (byte_bound x) as Hx. pose proof (byte_bound y) as Hy.
  destruct (sextet_bounds _ _ Hx Hy) as (B1 & B2 & _).
  destruct (sextet_bounds _ _ Hy Hy) as (_ & _ & _ & _ & _ & B3).
  cbn [b64encode].
  rewrite a2b_loop_char by exact B1. rewrite a2b_loop_char by exact B2.
  rewrite a2b_loop_char by exact B3.
  rewrite decode_first by assumption. rewrite keep_second by assumption.
  pose proof (decode_second (Byte.to_N y) 0 Hy (eq_refl : 0 < 256)) as E.
  change (N.shiftr 0 6) with 0 in E. rewrite N.lor_0_r in E. rewrite E.
  rewrite !to_byte_to_N. cbn [a2b_loop]. rewrite N.eqb_refl. reflexivity.
Qed.

Lemma a2b_loop_one (x : byte) (out : list byte) :
  a2b_loop (b64encode [x]) 0 0 0 out = Some (rev (x :: out)).
Proof.
  pose proof (byte_bound x) as Hx.
  destruct (sextet_bounds _ _ Hx Hx) as (B1 & _ & _ & _ & B2 & _).
  cbn [b64encode].
  rewrite a2b_loop_char by exact B1. rewrite a2b_loop_char by exact B2.
  pose proof (decode_first (Byte.to_N x) 0 Hx (eq_refl : 0 < 256)) as E.
  change (N.shiftr 0 4) with 0 in E. rewrite N.lor_0_r in E. rewrite E.
  rewrite !to_byte_to_N. cbn [a2b_loop]. rewrite N.eqb_refl. reflexivity.
Qed.

(** Decoding undoes encoding. *)
Lemma a2b_loop_encode :
  forall n data out,
    (List.length data <= n)%nat ->
    a2b_loop (b64encode data) 0 0 0 out = Some (rev out ++ data).
Proof.
  induction n as [|n IH]; intros data out Hn.
  - destruct data; [|simpl in Hn; lia]. cbn. now rewrite app_nil_r.
  - destruct data as [|x [|y [|z data]]].
    + cbn. now rewrite app_nil_r.
    + rewrite a2b_loop_one. cbn [rev]. reflexivity.
    + rewrite a2b_loop_two. cbn [rev]. now rewrite <- !app_assoc.
    + change (b64encode (x :: y :: z :: data))
        with (b64encode [x; y; z] ++ b64encode data).
      rewrite a2b_loop_three. rewrite IH by (simpl in Hn; lia).
      cbn [rev]. now rewrite <- !app_assoc.
Qed.

Lemma b64encode_text :
  forall n data,
    (List.length data <= n)%nat -> forallb b64_text_char (b64encode data) = true.
Proof.
  induction n as [|n IH]; intros data Hn.
  - destruct data; [reflexivity|simpl in Hn; lia].
  - destruct data as [|x [|y [|z data]]]; [reflexivity| | |].
    + pose proof (byte_bound x) as Hx.
      destruct (sextet_bounds _ _ Hx Hx) as (B1 & _ & _ & _ & B2 & _).
      cbn [b64encode forallb]. now rewrite !b2a_text_char by assumption.
    + pose proof (byte_bound x) as Hx. pose proof (byte_bound y) as Hy.
      destruct (sextet_bounds _ _ Hx Hy) as (B1 & B2 & _).
      destruct (sextet_bounds _ _ Hy Hy) as (_ & _ & _ & _ & _ & B3).
      cbn [b64encode forallb]. now rewrite !b2a_text_char by assumption.
    + pose proof (byte_bound x) as Hx. pose proof (byte_bound y) as Hy.
      pose proof (byte_bound z) as Hz.
      destruct (sextet_bounds _ _ Hx Hy) as (B1 & B2 & _).
      destruct (sextet_bounds _ _ Hy Hz) as (_ & _ & B3 & _).
      destruct (sextet_bounds _ _ Hz Hz) as (_ & _ & _ & B4 & _).
      cbn [b64encode forallb app]. rewrite !b2a_text_char by assumption.
      cbn [andb]. apply IH. simpl in Hn. lia.
Qed.

(** Base64 text is ASCII, holds nothing a JSON string must escape, and no
    colon. *)
Lemma b64_text_char_props (c : char) :
  b64_text_char c = true ->
  (c <? 128) = true /\ json_plain c = true /\ (c =? ch ":") = false.
Proof.
  intro H.
  assert (Hlt : c < 128).
  { unfold b64_text_char, is_b64_char, a2b, pad in H.
    destruct ((65 <=? c) && (c <=? 90)) eqn:E1.
    { apply andb_true_iff in E1 as [_ E]. apply N.leb_le in E. lia. }
    destruct ((97 <=? c) && (c <=? 122)) eqn:E2.
    { apply andb_true_iff in E2 as [_ E]. apply N.leb_le in E. lia. }
    destruct ((48 <=? c) && (c <=? 57)) eqn:E3.
    { apply andb_true_iff in E3 as [_ E]. apply N.leb_le in E. lia. }
    destruct (c =? 43) eqn:E4; [apply N.eqb_eq in E4; lia|].
    destruct (c =? 47) eqn:E5; [apply N.eqb_eq in E5; lia|].
    cbn [orb] in H. apply N.eqb_eq in H. subst c. reflexivity. }
  assert (Hall : implb (b64_text_char c)
                   ((c <? 128) && json_plain c && negb (c =? ch ":")) = true).
  { revert c Hlt H. intros c Hlt _. revert c Hlt.
    apply (below_forall 128). vm_compute. reflexivity. }
  rewrite H in Hall. cbn [implb] in Hall.
  rewrite !andb_true_iff, negb_true_iff in Hall. tauto.
Qed.

Lemma b64decode_encode (data : list byte) :
  b64decode (b64encode data) = inr data.
Proof.
  unfold b64decode, a2b_base64.
  replace (forallb (fun c => c <? 128) (b64encode data)) with true.
  - now rewrite (a2b_loop_encode (List.length data)).
  - symmetry. apply forallb_forall. intros c Hc.
    pose proof (b64encode_text _ data (le_n _)) as H.
    rewrite forallb_forall in H. now apply b64_text_char_props, H.
Qed.

End Base64Facts.

(* ================================================================== *)
(** * Script B: the data-URI prefix and the function as a whole *)
(* ================================================================== *)

Section DataUriFacts.

Import Json Base64 ScriptB.

Variable unicode_isalnum : char -> bool.

Let word := is_word unicode_isalnum.
Let uri := data_uri_pattern unicode_isalnum.

Lemma rmatch_bol (b : bool) (k : mstate -> option mstate) (st : mstate) :
  rmatch b Bol k st = if b && (ms_used st =? 0)%nat then k st else None.
Proof. reflexivity. Qed.

Lemma attempt_data_uri_later (m : bool) (s : str) : attempt uri false m s = None.
Proof. reflexivity. Qed.

Lemma attempt_data_uri_start (m : bool) (s : str) :
  attempt uri true m s =
  if startswith (py "data:image/") s then
    let t := skipn 11 s in
    let n := run word t in
    if (1 <=? n)%nat && startswith (py ";base64,") (skipn n t)
    then Some (11 + n + 8, [])%nat
    else None
  else None.
Proof.
  unfold attempt, uri, data_uri_pattern.
  rewrite rmatch_cat, rmatch_bol. cbn [ms_used Nat.eqb andb].
  rewrite rmatch_cat, rmatch_lits. cbn [ms_rest ms_used ms_caps].
  destruct (startswith (py "data:image/") s); [|reflexivity].
  rewrite rmatch_cat, rmatch_run.
  - cbn [ms_rest ms_used ms_caps]. cbv zeta. fold word.
    change (List.length (py "data:image/")) with 11%nat.
    destruct (1 <=? run word (skipn 11 s))%nat; [|reflexivity].
    rewrite rmatch_lits. cbn [ms_rest ms_used ms_caps andb].
    destruct (startswith (py ";base64,") _); [|reflexivity].
    change (List.length (py ";base64,")) with 8%nat.
    replace (0 + 11 + _ + 8 =? 0)%nat with false
      by (symmetry; apply Nat.eqb_neq; lia).
    rewrite andb_false_r. reflexivity.
  - intros st' H.
    apply (lits_fails_on true (py ";base64,") (ch ";") (py "base64,")
             (is_word unicode_isalnum)); [reflexivity|reflexivity|exact H].
Qed.

Lemma sub_from_hit_at (r : regex) (repl : list str -> str) (b : bool) :
  forall x rest n g,
    attempt r b false (x ++ rest) = Some (S n, g) ->
    List.length x = S n ->
    sub_from r repl b 0 (x ++ rest) = repl g ++ sub_from r repl false 0 rest.
Proof.
  intros x rest n g H Hl. destruct x as [|c x]; [discriminate|].
  change ((c :: x) ++ rest) with (c :: (x ++ rest)) in *.
  cbn [sub_from]. rewrite H. f_equal. simpl in Hl.
  replace (S n - 1)%nat with n by lia.
  destruct n as [|n].
  - destruct x; [reflexivity|discriminate].
  - apply sub_from_skip. lia.
Qed.

Lemma sub_from_never (r : regex) (repl : list str -> str) :
  (forall t, attempt r false false t = None) ->
  forall s, sub_from r repl false 0 s = s.
Proof.
  intros H s. rewrite <- (app_nil_r s) at 1.
  rewrite sub_from_miss.
  - cbn [sub_from]. rewrite H. now rewrite app_nil_r.
  - intros i _. apply H.
Qed.

(** [re.sub] with the anchored pattern removes the match at the start of
    the text, if there is one, and nothing else. *)
Lemma sub_data_uri (s : str) :
  sub uri (fun _ => []) s =
  match attempt uri true false s with
  | Some (n, _) => skipn n s
  | None => s
  end.
Proof.
  unfold sub. destruct (attempt uri true false s) as [[n g]|] eqn:E.
  - destruct (attempt_sound _ _ _ _ _ _ E) as (x & rest & -> & Hl).
    assert (Hn : exists n', n = S n').
    { rewrite attempt_data_uri_start in E.
      destruct (startswith (py "data:image/") (x ++ rest)); [|discriminate].
      cbv zeta in E. destruct (_ && _); [|discriminate].
      injection E as <- _. eexists. reflexivity. }
    destruct Hn as [n' ->].
    rewrite (sub_from_hit_at _ _ true x rest n' g E Hl).
    rewrite sub_from_never by apply attempt_data_uri_later.
    rewrite <- Hl. now rewrite skipn_app_exact.
  - destruct s as [|c s]; cbn [sub_from]; rewrite E; [reflexivity|].
    f_equal. apply sub_from_never, attempt_data_uri_later.
Qed.

Lemma word_semicolon : word (ch ";") = false.
Proof. reflexivity. Qed.

Lemma sub_data_uri_prefixed (tok rest : str) :
  tok <> [] -> forallb word tok = true ->
  sub uri (fun _ => []) (py "data:image/" ++ tok ++ py ";base64," ++ rest) = rest.
Proof.
  intros Hne Hw. rewrite sub_data_uri, attempt_data_uri_start.
  rewrite startswith_app.
  change 11%nat with (List.length (py "data:image/")) at 1 2.
  rewrite skipn_app_exact. cbv zeta.
  change (tok ++ py ";base64," ++ rest) with (tok ++ ch ";" :: py "base64," ++ rest).
  rewrite run_app by (assumption || exact word_semicolon).
  rewrite skipn_app_exact.
  replace (1 <=? List.length tok)%nat with true
    by (symmetry; apply Nat.leb_le; destruct tok; [congruence|simpl; lia]).
  change (startswith (py ";base64,") (ch ";" :: py "base64," ++ rest)) with
    (startswith (py ";base64,") (py ";base64," ++ rest)).
  rewrite startswith_app. cbn [andb].
  replace (py "data:image/" ++ tok ++ ch ";" :: py "base64," ++ rest)
    with ((py "data:image/" ++ tok ++ py ";base64,") ++ rest)
    by (now rewrite <- !app_assoc).
  replace (List.length (py "data:image/") + List.length tok + 8)%nat
    with (List.length (py "data:image/" ++ tok ++ py ";base64,"))
    by (rewrite !length_app; simpl; lia).
  apply skipn_app_exact.
Qed.

Lemma sub_data_uri_other (s : str) :
  (forall tok rest, tok <> [] -> forallb word tok = true ->
                    s <> py "data:image/" ++ tok ++ py ";base64," ++ rest) ->
  sub uri (fun _ => []) s = s.
Proof.
  intro Hno. rewrite sub_data_uri, attempt_data_uri_start.
  destruct (startswith (py "data:image/") s) eqn:E1; [|reflexivity].
  cbv zeta.
  destruct (1 <=? run word (skipn 11 s))%nat eqn:E2; [|reflexivity].
  destruct (startswith (py ";base64,") (skipn (run word (skipn 11 s)) (skipn 11 s)))
    eqn:E3; [|reflexivity].
  exfalso. apply startswith_true in E1, E3.
  apply (Hno (firstn (run word (skipn 11 s)) (skipn 11 s))
             (skipn (List.length (py ";base64,"))
                    (skipn (run word (skipn 11 s)) (skipn 11 s)))).
  - apply Nat.leb_le in E2. intro H0.
    apply (f_equal (@List.length char)) in H0. rewrite length_firstn in H0.
    pose proof (run_le word (skipn 11 s)). cbn [List.length] in H0. lia.
  - apply run_all.
  - rewrite <- E3, firstn_skipn. exact E1.
Qed.

(** ** The two ways the call ends *)

Lemma call_succeeds (w : world) (s : str) (output_path : string) (key : str)
      (pairs : list (str * value)) (v : str) (data : list byte) :
  Json.loads s = Ok (PyDict pairs) ->
  dict_get pairs key = Some (PyStr v) ->
  b64decode (sub uri (fun _ => []) v) = inr data ->
  writable w output_path = true ->
  base64_json_to_image unicode_isalnum w s output_path key =
  (world_after_write w output_path data, Return true).
Proof.
  intros H1 H2 H3 H4.
  unfold base64_json_to_image, try_body, bind, json_loads, getitem,
    strip_data_uri, base64_decode, write_image, emit, ret.
  fold uri. rewrite H1. cbn iota. rewrite H2. cbn iota. rewrite H3. cbn iota.
  rewrite H4. unfold world_after_write. cbn [files writable trace].
  now rewrite <- app_assoc.
Qed.

(** The steps before the write leave the world as it is. *)
Lemma decoding_pure (w w' : world) (s : str) (key : str)
      (r : exn + list byte) :
  decoding unicode_isalnum s key w = (w', r) -> w' = w.
Proof.
  unfold decoding, bind, json_loads, getitem, strip_data_uri, base64_decode,
    raise, ret.
  destruct (Json.loads s) as [data| |]; try (intro H; now injection H).
  destruct data as [| | | |items|pairs]; try (intro H; now injection H).
  destruct (dict_get pairs key) as [v|]; [|intro H; now injection H].
  destruct v as [| | |v| |]; try (intro H; now injection H).
  destruct (b64decode _) as [[|]|data]; intro H; now injection H.
Qed.

Lemma try_body_fails (w w' : world) (s : str) (output_path : string)
      (key : str) (e : exn) :
  decoding unicode_isalnum s key w = (w', inl e) ->
  try_body unicode_isalnum s output_path key w = (w, inl e).
Proof.
  unfold decoding, try_body, bind, json_loads, getitem,
    strip_data_uri, base64_decode, raise, ret.
  destruct (Json.loads s) as [data| |];
    try (intro H; injection H as <- <-; reflexivity).
  destruct data as [| | | |items|pairs];
    try (intro H; injection H as <- <-; reflexivity).
  destruct (dict_get pairs key) as [v|];
    [|intro H; injection H as <- <-; reflexivity].
  destruct v as [| | |v| |];
    try (intro H; injection H as <- <-; reflexivity).
  destruct (b64decode _) as [[|]|data];
    try (intro H; injection H as <- <-; reflexivity).
  discriminate.
Qed.

Lemma call_fails (w w' : world) (s : str) (output_path : string) (key : str)
      (e : exn) :
  decoding unicode_isalnum s key w = (w', inl e) ->
  base64_json_to_image unicode_isalnum w s output_path key =
  if can_print (diagnostic e output_path key)
  then (world_after_failure w (diagnostic e output_path key), Return false)
  else (w, RaiseUnicodeEncodeError).
Proof.
  intro H. unfold base64_json_to_image.
  rewrite (try_body_fails w w' s output_path key e H).
  reflexivity.
Qed.

(** Every line but the one about a missing key can be printed. *)
Lemma can_print_other (e : exn) (output_path : string) (key : str) :
  e <> KeyError -> can_print (diagnostic e output_path key) = true.
Proof. destruct e; intro H; try reflexivity. now destruct H. Qed.

End DataUriFacts.

(* ================================================================== *)
(** * Second passes: generic facts and step 7 *)
(* ================================================================== *)

Section SecondPass.

Import ScriptA.

Lemma rmatch_lang (b : bool) (r : regex) :
  forall k st res,
    rmatch b r k st = Some res ->
    exists x st', lang r x /\ ms_rest st = x ++ ms_rest st' /\
                  ms_used st' = (ms_used st + List.length x)%nat /\
                  k st' = Some res.
Proof.
  induction r as [c|p| |r1 IH1 r2 IH2|g m p|r1 IH1|r1 IH1]; intros k st res H;
    simpl in H.
  - destruct (ms_rest st) as [|x t] eqn:E; [discriminate|].
    destruct (x =? c) eqn:Ex; [|discriminate]. apply N.eqb_eq in Ex. subst x.
    exists [c], (MState (S (ms_used st)) t (ms_caps st)). simpl.
    repeat split; auto; lia.
  - destruct (ms_rest st) as [|x t] eqn:E; [discriminate|].
    destruct (p x) eqn:Ex; [|discriminate].
    exists [x], (MState (S (ms_used st)) t (ms_caps st)). simpl.
    repeat split; eauto; lia.
  - destruct (b && (ms_used st =? 0)%nat); [|discriminate].
    exists [], st. simpl. repeat split; auto; lia.
  - apply IH1 in H as (x1 & st1 & L1 & E1 & U1 & H).
    apply IH2 in H as (x2 & st2 & L2 & E2 & U2 & H).
    exists (x1 ++ x2), st2. cbn [lang].
    rewrite E1, E2, U2, U1, length_app, app_assoc.
    repeat split; eauto; lia.
  - apply rep_sound in H as (x & rest & E & Hp & Hm & H).
    exists x, (MState (ms_used st + List.length x) rest (ms_caps st)). simpl.
    repeat split; auto.
  - apply IH1 in H as (x1 & st1 & L1 & E1 & U1 & H).
    exists x1, (MState (ms_used st1) (ms_rest st1)
                  (ms_caps st1 ++ [firstn (ms_used st1 - ms_used st) (ms_rest st)])).
    simpl. repeat split; auto.
  - destruct (rmatch b r1 (fun st' => Some st') st); [|discriminate].
    exists [], st. simpl. repeat split; auto; lia.
Qed.

(** What an attempt matched belongs to the language of the pattern. *)
Lemma attempt_lang (r : regex) (b m : bool) (s : str) (n : nat) (g : list str) :
  attempt r b m s = Some (n, g) ->
  exists x rest, s = x ++ rest /\ List.length x = n /\ lang r x.
Proof.
  unfold attempt. intro H.
  destruct (rmatch b r _ (MState 0 s [])) as [st|] eqn:E; [|discriminate].
  apply rmatch_lang in E as (x & st' & Lx & E1 & U1 & Hk). simpl in E1, U1.
  destruct (m && (ms_used st' =? 0)%nat); [discriminate|].
  injection Hk as <-. injection H as <- _.
  exists x, (ms_rest st'). repeat split; auto.
Qed.

(** The first step of a substitution pass. *)
Lemma sub_from_cases (r : regex) (repl : list str -> str) (s : str) :
  never_empty r ->
  match attempt r false false s with
  | None =>
      match s with
      | [] => sub_from r repl false 0 s = []
      | c :: s' => sub_from r repl false 0 s = c :: sub_from r repl false 0 s'
      end
  | Some (n, g) =>
      exists x rest, s = x ++ rest /\ List.length x = n /\ (1 <= n)%nat /\
                     sub_from r repl false 0 s = repl g ++ sub_from r repl false 0 rest
  end.
Proof.
  intro Hne. destruct (attempt r false false s) as [[n g]|] eqn:E.
  - destruct (attempt_sound _ _ _ _ _ _ E) as (x & rest & -> & Hl).
    destruct n as [|n]; [exfalso; exact (Hne _ _ _ _ E)|].
    exists x, rest. repeat split; auto; [lia|].
    apply (sub_from_hit _ _ _ _ n g); [exact E|exact Hl].
  - destruct s as [|c s']; cbn [sub_from]; now rewrite E.
Qed.

(** A text without a match anywhere is a fixed point of the pass. *)
Lemma sub_from_fixed (r : regex) (repl : list str -> str) (t : str) :
  (forall i, attempt r false false (skipn i t) = None) ->
  sub_from r repl false 0 t = t.
Proof.
  intro H. rewrite <- (app_nil_r t) at 1. rewrite sub_from_miss.
  - cbn [sub_from].
    pose proof (H (List.length t)) as H0. rewrite skipn_all in H0.
    rewrite H0. now rewrite app_nil_r.
  - intros i _. rewrite app_nil_r. apply H.
Qed.

Lemma sub_idempotent (r : regex) (repl : list str -> str) :
  unanchored r ->
  (forall s i, attempt r false false
                 (skipn i (sub_from r repl false 0 s)) = None) ->
  idempotent (sub r repl).
Proof.
  intros Hu H content. unfold sub.
  rewrite !(sub_from_unanchored _ _ Hu true).
  apply sub_from_fixed. apply H.
Qed.

Lemma lang_lits (L x : str) : lang (lits L) x -> x = L.
Proof.
  revert x. induction L as [|c L IH]; intros x H.
  - cbn in H. destruct H as [H _]. destruct x; [reflexivity|discriminate].
  - destruct L as [|d L]; [exact H|].
    change (lits (c :: d :: L)) with (Cat (Lit c) (lits (d :: L))) in H.
    cbn [lang] in H. destruct H as (x1 & x2 & -> & -> & H2).
    apply IH in H2. now subst.
Qed.

(** ** Step 7 *)

Lemma base_bol_free : bol_free base_pattern = true.
Proof. reflexivity. Qed.

Lemma base_needs_l (b m : bool) (c : char) (s : str) :
  c <> ch "l" -> attempt base_pattern b m (c :: s) = None.
Proof.
  intro Hc. apply attempt_needs_literal. cbn [py list_ascii_of_string map startswith].
  fold (ch "l"). replace (ch "l" =? c) with false; [reflexivity|].
  symmetry. apply N.eqb_neq. congruence.
Qed.

Lemma base_never_empty : never_empty base_pattern.
Proof.
  intros b m s g H. apply attempt_lang in H as (x & rest & -> & Hl & Hx).
  destruct x; [|discriminate]. cbn in Hx.
  destruct Hx as (x1 & x2 & E & (y1 & y2 & E1 & Hy1 & _) & _).
  subst y1. destruct x1; [|discriminate]. subst. discriminate.
Qed.

(** No match begins inside the replacement text. *)
Lemma base_repl_inert (i : nat) (y : str) :
  (i < 22)%nat ->
  attempt base_pattern false false (skipn i (py "let definition = base;") ++ y) = None.
Proof.
  intro Hi. do 22 (destruct i as [|i]; [reflexivity|]). lia.
Qed.

(** A whitespace run followed by a literal that does not begin with a
    space. *)
Lemma rmatch_ws_lits (b : bool) (min : nat) (w L : str) (c0 : char) (L' rest : str)
      (k : mstate -> option mstate) (st : mstate) :
  L = c0 :: L' -> is_space c0 = false ->
  forallb is_space w = true -> (min <= List.length w)%nat ->
  ms_rest st = w ++ L ++ rest ->
  rmatch b (Rep true min is_space) (rmatch b (lits L) k) st =
  k (MState (ms_used st + List.length w + List.length L) rest (ms_caps st)).
Proof.
  intros HL Hc Hw Hmin Hrest. rewrite rmatch_run.
  - rewrite Hrest. subst L.
    change (w ++ (c0 :: L') ++ rest) with (w ++ c0 :: (L' ++ rest)).
    rewrite run_app by assumption.
    replace (min <=? List.length w)%nat with true
      by (symmetry; now apply Nat.leb_le).
    rewrite skipn_app_exact, rmatch_lits. cbn [ms_rest ms_used ms_caps].
    change (c0 :: (L' ++ rest)) with ((c0 :: L') ++ rest).
    now rewrite startswith_app, skipn_app_exact.
  - intros st' H. now apply (lits_fails_on b L c0 L' is_space).
Qed.

(** Every text of the language of the pattern is matched whole, whatever
    follows it. *)
Lemma base_complete (b m : bool) (M y : str) :
  lang base_pattern M ->
  attempt base_pattern b m (M ++ y) = Some (List.length M, []).
Proof.
  unfold base_pattern. cbn [cat_all lang].
  intros (x1 & r1 & -> & L1 & w1 & r2 & -> & [Hw1 Hm1] & x2 & r3 & -> & L2 &
          w2 & r4 & -> & [Hw2 _] & x3 & r5 & -> & L3 & w3 & r6 & -> & [Hw3 _] &
          x4 & r7 & -> & L4 & w4 & x5 & -> & [Hw4 _] & L5).
  apply lang_lits in L1, L2, L4. subst x1 x2 x3 x4 x5.
  unfold attempt. rewrite !rmatch_cat, rmatch_lits. cbn [ms_rest ms_used ms_caps].
  rewrite <- !app_assoc. rewrite startswith_app, skipn_app_exact.
  unfold ws_plus, ws_star.
  rewrite (rmatch_ws_lits b 1 w1 (py "definition") (ch "d") (py "efinition")
             (w2 ++ [ch "="] ++ w3 ++ py "base?" ++ w4 ++ [ch ";"] ++ y));
    try reflexivity; try assumption.
  cbn [ms_rest ms_used ms_caps].
  change (Lit (ch "=")) with (lits [ch "="]).
  rewrite (rmatch_ws_lits b 0 w2 [ch "="] (ch "=") []
             (w3 ++ py "base?" ++ w4 ++ [ch ";"] ++ y));
    try reflexivity; try assumption; try lia.
  cbn [ms_rest ms_used ms_caps].
  rewrite (rmatch_ws_lits b 0 w3 (py "base?") (ch "b") (py "ase?")
             (w4 ++ [ch ";"] ++ y));
    try reflexivity; try assumption; try lia.
  cbn [ms_rest ms_used ms_caps].
  change (Lit (ch ";")) with (lits [ch ";"]).
  rewrite (rmatch_ws_lits b 0 w4 [ch ";"] (ch ";") [] y);
    try reflexivity; try assumption; try lia.
  cbn [ms_rest ms_used ms_caps].
  rewrite !length_app.
  match goal with
  | |- context [(?n =? 0)%nat] =>
      replace (n =? 0)%nat with false
        by (symmetry; apply Nat.eqb_neq; simpl; lia)
  end.
  rewrite andb_false_r. f_equal. f_equal. simpl. lia.
Qed.

(** A match is the letter [l] followed by text without that letter. *)
Lemma base_match_shape (M : str) :
  lang base_pattern M -> exists M', M = ch "l" :: M' /\ ~ In (ch "l") M'.
Proof.
  unfold base_pattern. cbn [cat_all lang].
  intros (x1 & r1 & -> & L1 & w1 & r2 & -> & [Hw1 Hm1] & x2 & r3 & -> & L2 &
          w2 & r4 & -> & [Hw2 _] & x3 & r5 & -> & L3 & w3 & r6 & -> & [Hw3 _] &
          x4 & r7 & -> & L4 & w4 & x5 & -> & [Hw4 _] & L5).
  apply lang_lits in L1, L2, L4. subst x1 x2 x3 x4 x5.
  assert (Hsp : forall w, forallb is_space w = true -> ~ In (ch "l") w).
  { intros w Hw Hin. rewrite forallb_forall in Hw. apply Hw in Hin. discriminate. }
  eexists. split; [reflexivity|].
  intro Hin. cbn [app In] in Hin.
  destruct Hin as [H|[H|Hin]]; try discriminate.
  repeat (first [ apply in_app_or in Hin as [Hin|Hin]
                | destruct Hin as [Hin|Hin] ]);
    try discriminate; try contradiction;
    match goal with
    | H : forallb is_space ?w = true, Hi : In _ ?w |- _ => exact (Hsp w H Hi)
    end.
Qed.

(** A pass leaves the text before the first [l] of its output as it was. *)
Lemma base_sub_agree :
  forall s k,
    ~ In (ch "l") (firstn k (sub_from base_pattern base_repl false 0 s)) ->
    firstn k (sub_from base_pattern base_repl false 0 s) = firstn k s.
Proof.
  induction s as [|c s IH]; intros k Hk.
  - pose proof (sub_from_cases base_pattern base_repl [] base_never_empty) as Hc.
    change (attempt base_pattern false false []) with (@None (nat * list str)) in Hc.
    cbn iota in Hc. now rewrite Hc.
  - pose proof (sub_from_cases base_pattern base_repl (c :: s) base_never_empty) as Hc.
    destruct (attempt base_pattern false false (c :: s)) as [[n g]|].
    + destruct Hc as (x & rest & _ & _ & _ & Ho). rewrite Ho in *.
      destruct k as [|k]; [reflexivity|].
      exfalso. apply Hk. unfold base_repl. cbn. now left.
    + rewrite Hc in *. destruct k as [|k]; [reflexivity|].
      cbn [firstn] in *. f_equal. apply IH. intro Hin. apply Hk. now right.
Qed.

Lemma base_output_inert :
  forall n s i,
    (List.length s <= n)%nat ->
    attempt base_pattern false false
      (skipn i (sub_from base_pattern base_repl false 0 s)) = None.
Proof.
  induction n as [|n IH]; intros s i Hn.
  - destruct s; [|simpl in Hn; lia]. now rewrite skipn_nil.
  - pose proof (sub_from_cases base_pattern base_repl s base_never_empty) as Hc.
    destruct (attempt base_pattern false false s) as [[m g]|] eqn:E.
    + destruct Hc as (x & rest & -> & Hl & Hm & Ho). rewrite Ho.
      rewrite length_app in Hn.
      destruct (Nat.lt_ge_cases i 22) as [Hi|Hi].
      * unfold base_repl. rewrite skipn_app.
        replace (i - List.length (py "let definition = base;"))%nat with 0%nat
          by (simpl; lia).
        cbn [skipn]. now apply base_repl_inert.
      * unfold base_repl. rewrite skipn_app, skipn_all2 by (simpl; lia).
        cbn [app]. apply IH. lia.
    + destruct s as [|c s]; rewrite Hc; [now rewrite skipn_nil|].
      destruct i as [|i]; [|cbn [skipn]; apply IH; simpl in Hn; lia].
      cbn [skipn].
      destruct (attempt base_pattern false false
                  (c :: sub_from base_pattern base_repl false 0 s))
        as [[m g]|] eqn:E'; [|reflexivity].
      exfalso.
      destruct (attempt_lang _ _ _ _ _ _ E') as (M & rest & EM & Hl & HM).
      destruct (base_match_shape M HM) as (M' & -> & Hnl).
      cbn [app] in EM. injection EM as -> EM.
      assert (HM' : M' = firstn (List.length M') s).
      { rewrite <- base_sub_agree.
        - rewrite EM. now rewrite firstn_app_exact.
        - rewrite EM. now rewrite firstn_app_exact. }
      assert (Es : ch "l" :: s = (ch "l" :: M') ++ skipn (List.length M') s).
      { cbn [app]. f_equal. rewrite HM' at 1. now rewrite firstn_skipn. }
      assert (E2 : attempt base_pattern false false (ch "l" :: s) = None) by exact E.
      rewrite Es in E2. rewrite (base_complete false false _ _ HM) in E2.
      discriminate.
Qed.

Lemma fix_base_idempotent : idempotent fix_base.
Proof.
  apply (sub_idempotent base_pattern base_repl).
  - apply bol_free_unanchored, base_bol_free.
  - intros s i. now apply (base_output_inert (List.length s)).
Qed.

End SecondPass.

(* ================================================================== *)
(** * Second passes: step 5 *)
(* ================================================================== *)

Section SecondPassKind.

Import ScriptA.

Let L5 : str := py "NodePropertyKindOptions::builder()".
Let out5 : str -> str := sub_from kind_options_pattern add_kind_build false 0.

Lemma space_not_stop (c : char) : is_space c = true -> comma_or_rparen c = false.
Proof.
  intro H. unfold comma_or_rparen, is_char.
  destruct (c =? ch ",") eqn:E1; [apply N.eqb_eq in E1; subst; discriminate|].
  destruct (c =? ch ")") eqn:E2; [apply N.eqb_eq in E2; subst; discriminate|].
  reflexivity.
Qed.

Lemma space_not_dot (c : char) : is_space c = true -> not_char "." c = true.
Proof.
  intro H. unfold not_char.
  destruct (c =? ch ".") eqn:E1; [apply N.eqb_eq in E1; subst; discriminate|].
  reflexivity.
Qed.

Lemma ahead_ok_cons (c : char) (t : str) :
  ahead_ok (c :: t) = if is_space c then ahead_ok t else comma_or_rparen c.
Proof. unfold ahead_ok. cbn [run]. now destruct (is_space c). Qed.

Lemma ahead_reach (t : str) : ahead_ok t = true -> reach t = true.
Proof.
  induction t as [|c t IH]; [discriminate|].
  rewrite ahead_ok_cons. cbn [reach].
  destruct (is_space c) eqn:Es.
  - intro H. rewrite (space_not_stop c Es), (space_not_dot c Es). now apply IH.
  - now intros ->.
Qed.

Lemma stop_ahead (c : char) (t : str) :
  comma_or_rparen c = true -> ahead_ok (c :: t) = true.
Proof.
  intro H. rewrite ahead_ok_cons.
  destruct (is_space c) eqn:Es; [|exact H].
  rewrite (space_not_stop c Es) in H. discriminate.
Qed.

Lemma lazy_len_reach (t : str) :
  match lazy_len (not_char ".") ahead_ok t with
  | Some _ => reach t = true
  | None => reach t = false
  end.
Proof.
  induction t as [|c t IH]; cbn [lazy_len]; [reflexivity|].
  destruct (ahead_ok (c :: t)) eqn:Ea.
  - now apply ahead_reach.
  - cbn [reach].
    destruct (comma_or_rparen c) eqn:Eq;
      [rewrite (stop_ahead c t Eq) in Ea; discriminate|].
    destruct (not_char "." c); [|reflexivity].
    now destruct (lazy_len (not_char ".") ahead_ok t).
Qed.

Lemma lazy_len_plain_prefix :
  forall t n,
    lazy_len (not_char ".") ahead_ok t = Some n ->
    forallb plain_char (firstn n t) = true.
Proof.
  induction t as [|c t IH]; intros n H; cbn [lazy_len] in H.
  - destruct (ahead_ok []); [|discriminate]. now injection H as <-.
  - destruct (ahead_ok (c :: t)) eqn:Ea; [now injection H as <-|].
    destruct (not_char "." c) eqn:Ed; [|discriminate].
    destruct (lazy_len (not_char ".") ahead_ok t) as [n'|] eqn:E'; [|discriminate].
    injection H as <-. cbn [firstn forallb]. rewrite (IH n' eq_refl), andb_true_r.
    unfold plain_char. rewrite Ed. cbn [andb].
    destruct (comma_or_rparen c) eqn:Eq; [|reflexivity].
    rewrite (stop_ahead c t Eq) in Ea. discriminate.
Qed.

(** Where step 5 finds a match. *)
Lemma attempt_kind_none (b m : bool) (s : str) :
  attempt kind_options_pattern b m s = None <->
  startswith L5 s && reach (skipn 34 s) = false.
Proof.
  rewrite attempt_kind_options. fold L5.
  destruct (startswith L5 s); cbn [andb]; [|tauto]. cbv zeta.
  pose proof (lazy_len_reach (skipn 34 s)) as H.
  destruct (lazy_len (not_char ".") ahead_ok (skipn 34 s)); rewrite H;
    split; intro; (discriminate || reflexivity).
Qed.

Lemma kind_never_empty : never_empty kind_options_pattern.
Proof.
  intros b m s g H. rewrite attempt_kind_options in H.
  destruct (startswith _ s); [|discriminate]. cbv zeta in H.
  destruct (lazy_len _ _ _); discriminate.
Qed.

(** After an invocation a closing parenthesis is always reached. *)
Lemma reach_invocation (z : str) : reach (L5 ++ z) = true.
Proof. reflexivity. Qed.

Lemma reach_plain_dot (g z : str) :
  forallb plain_char g = true -> reach (g ++ ch "." :: z) = false.
Proof.
  induction g as [|c g IH]; intro H; [reflexivity|].
  cbn [forallb] in H. apply andb_true_iff in H as [Hc H].
  unfold plain_char in Hc. apply andb_true_iff in Hc as [Hd Hq].
  apply negb_true_iff in Hq. cbn [app reach]. rewrite Hq, Hd. now apply IH.
Qed.

(** What a matching attempt returns. *)
Lemma attempt_kind_some (s : str) (n : nat) (g : list str) :
  attempt kind_options_pattern false false s = Some (n, g) ->
  exists h rest, s = L5 ++ h ++ rest /\ g = [h] /\ forallb plain_char h = true /\
                 n = (34 + List.length h)%nat.
Proof.
  intro H. rewrite attempt_kind_options in H. fold L5 in H.
  destruct (startswith L5 s) eqn:Es; [|discriminate]. cbv zeta in H.
  destruct (lazy_len (not_char ".") ahead_ok (skipn 34 s)) as [k|] eqn:El;
    [|discriminate].
  injection H as <- <-.
  pose proof (lazy_len_plain_prefix _ _ El) as Hp.
  destruct (attempt_sound kind_options_pattern false false s (34 + k)
              [firstn k (skipn 34 s)]) as (x & rest & Ex & Hl).
  { rewrite attempt_kind_options. fold L5. rewrite Es. cbv zeta. now rewrite El. }
  exists (firstn k (skipn 34 s)), (skipn k (skipn 34 s)).
  apply startswith_true in Es. change (List.length L5) with 34%nat in Es.
  assert (Hk : (k <= List.length (skipn 34 s))%nat).
  { rewrite length_skipn. rewrite Ex at 1. rewrite length_app. lia. }
  repeat split; auto.
  - rewrite firstn_skipn. exact Es.
  - rewrite length_firstn. lia.
Qed.

(** The pass keeps what is reached from the start of a text ... *)
Lemma out5_reach : forall s, reach (out5 s) = reach s.
Proof.
  assert (Hc := fun s => sub_from_cases kind_options_pattern add_kind_build s
                         kind_never_empty).
  induction s as [|c s IH]; unfold out5.
  - specialize (Hc []). change (attempt kind_options_pattern false false [])
      with (@None (nat * list str)) in Hc. cbn iota in Hc. now rewrite Hc.
  - specialize (Hc (c :: s)).
    destruct (attempt kind_options_pattern false false (c :: s)) as [[n g]|] eqn:E.
    + destruct Hc as (x & rest & _ & _ & _ & Ho). rewrite Ho.
      apply attempt_kind_some in E as (h & rest' & Es & -> & _ & _).
      rewrite Es. unfold add_kind_build. cbn [nth]. fold L5.
      rewrite <- !app_assoc. now rewrite !reach_invocation.
    + rewrite Hc. cbn [reach]. fold out5. now rewrite IH.
Qed.

(** ... and whether the text begins with a given text without [N]. *)
Lemma out5_startswith :
  forall L' s, ~ In (ch "N") L' -> startswith L' (out5 s) = startswith L' s.
Proof.
  induction L' as [|a L' IH]; intros s Hn; [reflexivity|].
  pose proof (sub_from_cases kind_options_pattern add_kind_build s kind_never_empty)
    as Hc. unfold out5.
  destruct (attempt kind_options_pattern false false s) as [[n g]|] eqn:E.
  - destruct Hc as (x & rest & _ & _ & _ & Ho). rewrite Ho.
    apply attempt_kind_some in E as (h & rest' & Es & -> & _ & _).
    rewrite Es. unfold add_kind_build. cbn [nth]. fold L5.
    change L5 with (ch "N" :: tl L5). cbn [app startswith].
    replace (a =? ch "N") with false; [reflexivity|].
    symmetry. apply N.eqb_neq. intros ->. apply Hn. now left.
  - destruct s as [|c s]; rewrite Hc; [reflexivity|].
    cbn [startswith]. fold out5. rewrite IH; [reflexivity|].
    intro Hin. apply Hn. now right.
Qed.

Lemma out5_after_tail (z : str) : out5 (tl L5 ++ z) = tl L5 ++ out5 z.
Proof.
  unfold out5. apply sub_from_miss. intros i Hi.
  apply attempt_needs_literal.
  do 33 (destruct i as [|i]; [reflexivity|]). simpl in Hi. lia.
Qed.

Lemma kind_miss_kept (c : char) (s : str) :
  attempt kind_options_pattern false false (c :: s) = None ->
  attempt kind_options_pattern false false (c :: out5 s) = None.
Proof.
  rewrite !attempt_kind_none. intro H.
  assert (Hs : startswith L5 (c :: out5 s) = startswith L5 (c :: s)).
  { change L5 with (ch "N" :: tl L5). cbn [startswith].
    rewrite out5_startswith; [reflexivity|].
    unfold L5, py, ch. simpl. intuition discriminate. }
  rewrite Hs. destruct (startswith L5 (c :: s)) eqn:E; [|reflexivity].
  cbn [andb] in *.
  change L5 with (ch "N" :: tl L5) in E. cbn [startswith] in E.
  apply andb_true_iff in E as [_ E]. apply startswith_true in E.
  rewrite E in *. rewrite out5_after_tail.
  change (c :: tl L5 ++ ?z) with ((c :: tl L5) ++ z) in *.
  change 34%nat with (List.length (c :: tl L5)) in *.
  rewrite skipn_app_exact in *. now rewrite out5_reach.
Qed.

(** No match begins inside what the pass wrote. *)
Lemma kind_repl_inert (h y : str) (i : nat) :
  forallb plain_char h = true ->
  (i < List.length (add_kind_build [h]))%nat ->
  attempt kind_options_pattern false false (skipn i (add_kind_build [h]) ++ y) = None.
Proof.
  intros Hp Hi. unfold add_kind_build in Hi |- *. cbn [nth] in Hi |- *.
  fold L5 in Hi |- *.
  destruct (Nat.lt_ge_cases i 34) as [H34|H34].
  - destruct i as [|i].
    + cbn [skipn]. apply attempt_kind_none. rewrite <- !app_assoc.
      rewrite startswith_app. cbn [andb].
      change 34%nat with (List.length L5). rewrite skipn_app_exact.
      change (py ".build()" ++ y) with (ch "." :: (py "build()" ++ y)).
      now apply reach_plain_dot.
    + apply attempt_needs_literal. clear Hi.
      do 33 (destruct i as [|i]; [reflexivity|]). lia.
  - apply attempt_needs_literal.
    replace i with (List.length L5 + (i - 34))%nat by (simpl; lia).
    rewrite skipn_app_len.
    destruct (Nat.lt_ge_cases (i - 34) (List.length h)) as [Hh|Hh].
    + rewrite skipn_app.
      replace (i - 34 - List.length h)%nat with 0%nat by lia. cbn [skipn].
      rewrite <- app_assoc.
      change (py ".build()" ++ y) with (ch "." :: (py "build()" ++ y)).
      destruct (startswith (py "NodePropertyKindOptions::builder()")
                  (skipn (i - 34) h ++ ch "." :: py "build()" ++ y)) eqn:E;
        [|reflexivity].
      exfalso. apply startswith_before in E;
        [|unfold py, ch; simpl; intuition discriminate].
      apply startswith_true in E.
      assert (Hin : In (ch ")") (skipn (i - 34) h)).
      { rewrite E. apply in_or_app. left. unfold py, ch. simpl. tauto. }
      assert (Hin' : In (ch ")") h).
      { rewrite <- (firstn_skipn (i - 34) h). apply in_or_app. now right. }
      rewrite forallb_forall in Hp. apply Hp in Hin'. discriminate.
    + rewrite skipn_app, skipn_all2 by lia. cbn [app].
      rewrite !length_app in Hi. change (List.length L5) with 34%nat in Hi.
      change (List.length (py ".build()")) with 8%nat in Hi.
      remember (i - 34 - List.length h)%nat as j eqn:Ej.
      assert (Hj : (j < 8)%nat) by lia. clear -Hj.
      do 8 (destruct j as [|j]; [reflexivity|]). lia.
Qed.

Lemma kind_output_inert :
  forall n s i,
    (List.length s <= n)%nat ->
    attempt kind_options_pattern false false (skipn i (out5 s)) = None.
Proof.
  induction n as [|n IH]; intros s i Hn.
  - destruct s; [|simpl in Hn; lia]. now rewrite skipn_nil.
  - pose proof (sub_from_cases kind_options_pattern add_kind_build s kind_never_empty)
      as Hc. unfold out5.
    destruct (attempt kind_options_pattern false false s) as [[m g]|] eqn:E.
    + destruct Hc as (x & rest & -> & Hl & Hm & Ho). rewrite Ho.
      rewrite length_app in Hn.
      apply attempt_kind_some in E as (h & rest' & _ & -> & Hp & _).
      destruct (Nat.lt_ge_cases i (List.length (add_kind_build [h]))) as [Hi|Hi].
      * rewrite skipn_app.
        replace (i - List.length (add_kind_build [h]))%nat with 0%nat by lia.
        cbn [skipn]. now apply kind_repl_inert.
      * rewrite skipn_app, skipn_all2 by lia.
        cbn [app]. apply IH. lia.
    + destruct s as [|c s]; rewrite Hc; [now rewrite skipn_nil|].
      destruct i as [|i]; [|cbn [skipn]; apply IH; simpl in Hn; lia].
      cbn [skipn]. now apply kind_miss_kept.
Qed.

Lemma fix_kind_options_idempotent : idempotent fix_kind_options.
Proof.
  apply (sub_idempotent kind_options_pattern add_kind_build).
  - apply bol_free_unanchored, kind_options_bol_free.
  - intros s i. now apply (kind_output_inert (List.length s)).
Qed.

End SecondPassKind.

(* ================================================================== *)
(** * Second passes: step 6 *)
(* ================================================================== *)

Section SecondPassBuilders.

Import ScriptA.

Let L6 : str := py "NodeProperty::builder()".
Let B : str := py ".build()".
Let scan (u : str) (pc : Z) : nat := scan_chain u 0 pc.
Let E (u : str) : str := ensure_build u (Match 0 0 []).

(** ** Texts *)

Lemma startswith_cut (L u v : str) (c : char) :
  ~ In c L -> startswith L (u ++ c :: v) = startswith L u.
Proof.
  revert u; induction L as [|a L IH]; intros u Hc; [reflexivity|].
  destruct u as [|x u]; cbn [app startswith].
  - replace (a =? c) with false; [reflexivity|].
    symmetry. apply N.eqb_neq. intros ->. apply Hc. now left.
  - rewrite IH; [reflexivity|]. intro Hin. apply Hc. now right.
Qed.

Lemma contains_here (L s : str) : startswith L s = true -> contains L s = true.
Proof. intro H. destruct s; simpl; now rewrite H. Qed.

Lemma contains_cons (L : str) (c : char) (s : str) :
  contains L s = true -> contains L (c :: s) = true.
Proof. intro H. simpl. rewrite H. apply orb_true_r. Qed.

Lemma contains_mid (L a b : str) : contains L (a ++ L ++ b) = true.
Proof.
  induction a as [|c a IH].
  - cbn [app]. apply contains_here, startswith_app.
  - now apply contains_cons.
Qed.

(** ** The chain loop *)

Lemma scan_cons (c : char) (s : str) (pc : Z) :
  scan (c :: s) pc =
  if c =? ch "(" then S (scan s (pc + 1))
  else if c =? ch ")" then S (scan s (pc - 1))
  else if (c =? ch ".") && (pc =? 0)%Z then S (scan s pc)
  else if is_terminator c && (pc =? 0)%Z then 0%nat
  else S (scan s pc).
Proof.
  unfold scan. cbn [scan_chain].
  pose proof (fun k => scan_chain_shift 1 s 0 k) as H. cbn [Nat.add] in H.
  now rewrite !H.
Qed.

Lemma scan_at (u : str) (pos : nat) (pc : Z) :
  scan_chain u pos pc = (pos + scan u pc)%nat.
Proof.
  unfold scan. rewrite <- scan_chain_shift. f_equal. lia.
Qed.

Lemma scan_le : forall u pc, (scan u pc <= List.length u)%nat.
Proof.
  induction u as [|c u IH]; intro pc; [unfold scan; simpl; lia|].
  rewrite scan_cons. cbn [List.length].
  destruct (c =? ch "("); [specialize (IH (pc + 1)%Z); lia|].
  destruct (c =? ch ")"); [specialize (IH (pc - 1)%Z); lia|].
  destruct ((c =? ch ".") && (pc =? 0)%Z); [specialize (IH pc); lia|].
  destruct (is_terminator c && (pc =? 0)%Z); [lia|specialize (IH pc); lia].
Qed.

Lemma scan_app :
  forall a b pc,
    scan (a ++ b) pc =
    match passes a pc with
    | Some k => (List.length a + scan b k)%nat
    | None => scan a pc
    end.
Proof.
  induction a as [|c a IH]; intros b pc; [reflexivity|].
  cbn [app passes]. rewrite !scan_cons.
  destruct (c =? ch "("); [rewrite IH; now destruct (passes a _)|].
  destruct (c =? ch ")"); [rewrite IH; now destruct (passes a _)|].
  destruct ((c =? ch ".") && (pc =? 0)%Z); [rewrite IH; now destruct (passes a _)|].
  destruct (is_terminator c && (pc =? 0)%Z); [reflexivity|].
  rewrite IH; now destruct (passes a _).
Qed.

Lemma passes_app :
  forall a b pc,
    passes (a ++ b) pc =
    match passes a pc with Some k => passes b k | None => None end.
Proof.
  induction a as [|c a IH]; intros b pc; [reflexivity|].
  cbn [app passes].
  destruct (c =? ch "("); [apply IH|].
  destruct (c =? ch ")"); [apply IH|].
  destruct ((c =? ch ".") && (pc =? 0)%Z); [apply IH|].
  destruct (is_terminator c && (pc =? 0)%Z); [reflexivity|apply IH].
Qed.

Lemma passes_build (pc : Z) : passes B pc = Some pc.
Proof.
  unfold B. simpl. destruct (pc =? 0)%Z; f_equal; lia.
Qed.

(** The loop runs through the chain it returns, and stops at the end of the
    text or at a terminator met at depth [0]. *)
Lemma scan_split :
  forall v pc,
    exists k, passes (firstn (scan v pc) v) pc = Some k /\
              (skipn (scan v pc) v = [] \/
               exists t r, skipn (scan v pc) v = t :: r /\ is_terminator t = true).
Proof.
  induction v as [|c v IH]; intro pc.
  - exists pc. split; [reflexivity|now left].
  - rewrite scan_cons. cbn [passes].
    destruct (c =? ch "(") eqn:E1.
    { destruct (IH (pc + 1)%Z) as (k & Hk & Hs). exists k.
      cbn [firstn skipn passes]. now rewrite E1. }
    destruct (c =? ch ")") eqn:E2.
    { destruct (IH (pc - 1)%Z) as (k & Hk & Hs). exists k.
      cbn [firstn skipn passes]. now rewrite E1, E2. }
    destruct ((c =? ch ".") && (pc =? 0)%Z) eqn:E3.
    { destruct (IH pc) as (k & Hk & Hs). exists k.
      cbn [firstn skipn passes]. now rewrite E1, E2, E3. }
    destruct (is_terminator c && (pc =? 0)%Z) eqn:E4.
    { exists pc. split; [reflexivity|]. right. exists c, v.
      apply andb_true_iff in E4 as [E4 _]. now split. }
    destruct (IH pc) as (k & Hk & Hs). exists k.
    cbn [firstn skipn passes]. now rewrite E1, E2, E3, E4.
Qed.

(** ** Chains that hold [.build()] *)

Lemma has_build_through (u v : str) (k : Z) :
  passes u 0 = Some k -> has_build (u ++ B ++ v) = true.
Proof.
  intro H. unfold has_build. fold (scan (u ++ B ++ v) 0).
  rewrite scan_app, H, scan_app, passes_build.
  rewrite !firstn_app_len. fold B. apply contains_mid.
Qed.

Lemma has_build_stopped (u x : str) :
  passes u 0 = None -> has_build (u ++ x) = has_build u.
Proof.
  intro H. unfold has_build. fold (scan (u ++ x) 0) (scan u 0).
  rewrite scan_app, H. pose proof (scan_le u 0) as Hle.
  rewrite firstn_app.
  replace (scan u 0 - List.length u)%nat with 0%nat by lia.
  cbn [firstn]. now rewrite app_nil_r.
Qed.

Lemma has_build_insert (u v : str) :
  has_build (u ++ v) = true -> has_build (u ++ B ++ v) = true.
Proof.
  intro H. destruct (passes u 0) as [k|] eqn:Ep.
  - now apply (has_build_through u v k).
  - rewrite has_build_stopped in * by exact Ep. exact H.
Qed.

(** ** The loop body at the start of a text *)

Lemma ensure_unfold (u : str) :
  E u = if has_build u then u
        else firstn (scan u 0) u ++ B ++ skipn (scan u 0) u.
Proof.
  unfold E, ensure_build, slice_from, slice, slice_to, has_build, scan.
  cbn [m_end skipn]. rewrite Nat.sub_0_r.
  now destruct (contains _ _).
Qed.

Lemma ensure_after (u : str) :
  ensure_build (L6 ++ u) (Match 0 23 []) = L6 ++ E u.
Proof.
  unfold E. rewrite <- (ensure_build_shift L6 u (Match 0 0 [])). reflexivity.
Qed.

Lemma ensure_has_build (v : str) : has_build (E v) = true.
Proof.
  rewrite ensure_unfold. destruct (has_build v) eqn:Eh; [exact Eh|].
  destruct (scan_split v 0) as (k & Hk & _).
  now apply (has_build_through _ _ k).
Qed.

(** ** Texts in which every invocation is built *)

Lemma terminator_not_literal (t : char) :
  is_terminator t = true -> ~ In t L6.
Proof.
  intros Ht Hin.
  destruct (terminator_cases t Ht) as [ -> | [ -> | [ -> | -> ] ] ];
    unfold L6, py, ch in Hin; simpl in Hin; intuition discriminate.
Qed.

Lemma built_after_literal (w : str) : built (L6 ++ w) = has_build w && built w.
Proof. reflexivity. Qed.

Lemma built_after_build (w : str) : built (B ++ w) = built w.
Proof. reflexivity. Qed.

Lemma built_insert :
  forall v1 v2,
    (v2 = [] \/ exists t r, v2 = t :: r /\ is_terminator t = true) ->
    built (v1 ++ v2) = true -> built (v1 ++ B ++ v2) = true.
Proof.
  induction v1 as [|c v1 IH]; intros v2 Hv H.
  - change ([] ++ B ++ v2) with (B ++ v2). now rewrite built_after_build.
  - change (built ((c :: v1) ++ v2))
      with ((if startswith L6 ((c :: v1) ++ v2)
             then has_build (skipn 23 ((c :: v1) ++ v2)) else true)
            && built (v1 ++ v2)) in H.
    change (built ((c :: v1) ++ B ++ v2))
      with ((if startswith L6 ((c :: v1) ++ B ++ v2)
             then has_build (skipn 23 ((c :: v1) ++ B ++ v2)) else true)
            && built (v1 ++ B ++ v2)).
    apply andb_true_iff in H as [Hh Hb].
    rewrite (IH v2 Hv Hb), andb_true_r.
    assert (E1 : startswith L6 ((c :: v1) ++ v2) = startswith L6 (c :: v1)).
    { destruct Hv as [ -> | (t & r & -> & Ht)]; [now rewrite app_nil_r|].
      apply startswith_cut. now apply terminator_not_literal. }
    assert (E2 : startswith L6 ((c :: v1) ++ B ++ v2) = startswith L6 (c :: v1)).
    { change (B ++ v2) with (ch "." :: (py "build()" ++ v2)).
      apply startswith_cut. unfold L6, py, ch. simpl. intuition discriminate. }
    rewrite E1 in Hh. rewrite E2.
    destruct (startswith L6 (c :: v1)) eqn:Es; [|reflexivity].
    apply startswith_true in Es. change (List.length L6) with 23%nat in Es.
    rewrite Es in Hh |- *. rewrite <- app_assoc in Hh |- *.
    change 23%nat with (List.length L6) in Hh |- * at 1.
    rewrite skipn_app_exact in Hh |- *.
    now apply has_build_insert.
Qed.

Lemma built_ensure (v : str) : built v = true -> built (E v) = true.
Proof.
  intro H. rewrite ensure_unfold. destruct (has_build v); [exact H|].
  destruct (scan_split v 0) as (k & _ & Hs).
  apply built_insert; [exact Hs|]. now rewrite firstn_skipn.
Qed.

(** ** Step 6 along the text *)

Lemma fix_builders_nil : fix_builders [] = [].
Proof. reflexivity. Qed.

Lemma fix_builders_miss (c : char) (t : str) :
  startswith L6 (c :: t) = false ->
  fix_builders (c :: t) = c :: fix_builders t.
Proof.
  intro H. unfold fix_builders, builder_pattern, finditer. fold L6.
  assert (Hu : unanchored (lits L6)) by apply bol_free_unanchored, lits_bol_free.
  assert (Hf : finditer_from (lits L6) 0 0 (c :: t) =
               map (shift_match 1) (finditer_from (lits L6) 0 0 t)).
  { rewrite <- (finditer_from_shift _ Hu 1 t 0 0).
    apply (finditer_from_miss _ Hu [c] t 0).
    intros i Hi. simpl in Hi. assert (i = 0)%nat as -> by lia.
    cbn [skipn app]. rewrite attempt_lits, H. reflexivity. }
  rewrite Hf, <- map_rev.
  apply (fold_ensure_build_shift [c]).
Qed.

Lemma fix_builders_hit (u : str) :
  fix_builders (L6 ++ u) = L6 ++ E (fix_builders u).
Proof.
  unfold fix_builders, builder_pattern. fold L6.
  assert (Hf : finditer (lits L6) (L6 ++ u) =
               Match 0 23 [] :: map (shift_match 23) (finditer (lits L6) u)).
  { apply (finditer_lits_first L6 [] u (ch "N") (py "odeProperty::builder()"));
      [reflexivity|unfold py, ch; simpl; intuition discriminate|reflexivity]. }
  rewrite Hf. cbn [rev].
  rewrite <- map_rev, fold_left_app. cbn [fold_left].
  rewrite (fold_ensure_build_shift L6). apply ensure_after.
Qed.

Lemma fix_builders_cases (s : str) :
  if startswith L6 s
  then exists u, s = L6 ++ u /\ fix_builders s = L6 ++ E (fix_builders u)
  else match s with
       | [] => fix_builders s = []
       | c :: t => fix_builders s = c :: fix_builders t
       end.
Proof.
  destruct (startswith L6 s) eqn:Es.
  - apply startswith_true in Es. exists (skipn (List.length L6) s).
    split; [exact Es|]. rewrite Es at 1. apply fix_builders_hit.
  - destruct s as [|c t]; [reflexivity|]. now apply fix_builders_miss.
Qed.

(** Step 6 writes nothing before the first [N] of the text. *)
Lemma fix_builders_startswith :
  forall L' s, ~ In (ch "N") L' ->
               startswith L' (fix_builders s) = startswith L' s.
Proof.
  induction L' as [|a L' IH]; intros s Hn; [reflexivity|].
  pose proof (fix_builders_cases s) as Hc.
  destruct (startswith L6 s).
  - destruct Hc as (u & -> & ->).
    change L6 with (ch "N" :: tl L6). cbn [app startswith].
    replace (a =? ch "N") with false; [reflexivity|].
    symmetry. apply N.eqb_neq. intros ->. apply Hn. now left.
  - destruct s as [|c t]; rewrite Hc; [reflexivity|].
    cbn [startswith]. rewrite IH; [reflexivity|].
    intro Hin. apply Hn. now right.
Qed.

Lemma built_fixed :
  forall n v, (List.length v <= n)%nat -> built v = true -> fix_builders v = v.
Proof.
  induction n as [|n IH]; intros v Hn Hb.
  - destruct v; [reflexivity|simpl in Hn; lia].
  - pose proof (fix_builders_cases v) as Hc.
    destruct (startswith L6 v).
    + destruct Hc as (u & -> & ->).
      rewrite built_after_literal in Hb. apply andb_true_iff in Hb as [Hh Hb].
      rewrite length_app in Hn. change (List.length L6) with 23%nat in Hn.
      rewrite (IH u) by (assumption || lia).
      rewrite ensure_unfold, Hh. reflexivity.
    + destruct v as [|c t]; rewrite Hc; [reflexivity|].
      f_equal. apply IH; [simpl in Hn; lia|].
      cbn [built] in Hb. now apply andb_true_iff in Hb as [_ Hb].
Qed.

Lemma fix_builders_built :
  forall n s, (List.length s <= n)%nat -> built (fix_builders s) = true.
Proof.
  induction n as [|n IH]; intros s Hn.
  - destruct s; [reflexivity|simpl in Hn; lia].
  - pose proof (fix_builders_cases s) as Hc.
    destruct (startswith L6 s) eqn:Es.
    + destruct Hc as (u & -> & ->).
      rewrite length_app in Hn. change (List.length L6) with 23%nat in Hn.
      rewrite built_after_literal, ensure_has_build. cbn [andb].
      apply built_ensure, IH. lia.
    + destruct s as [|c t]; rewrite Hc; [reflexivity|].
      change (built (c :: fix_builders t))
        with ((if startswith L6 (c :: fix_builders t)
               then has_build (skipn 23 (c :: fix_builders t)) else true)
              && built (fix_builders t)).
      rewrite (IH t) by (simpl in Hn; lia). rewrite andb_true_r.
      replace (startswith L6 (c :: fix_builders t)) with false; [reflexivity|].
      rewrite <- Es. change L6 with (ch "N" :: tl L6). cbn [startswith].
      rewrite fix_builders_startswith; [reflexivity|].
      unfold L6, py, ch. simpl. intuition discriminate.
Qed.

Lemma fix_builders_idempotent : idempotent fix_builders.
Proof.
  intro content.
  apply (built_fixed (List.length (fix_builders content))); [lia|].
  now apply (fix_builders_built (List.length content)).
Qed.

End SecondPassBuilders.

(* ================================================================== *)
(** * The transformation when one step alone finds a match *)
(* ================================================================== *)

Section TransformFacts.

Import ScriptA.

Lemma fix_version_quiet (s : str) :
  finditer version_pattern s = [] -> fix_version s = s.
Proof. intro H. now apply (sub_no_match _ _ _ 0%nat). Qed.

Lemma fix_inputs_quiet (s : str) :
  finditer inputs_pattern s = [] -> fix_inputs s = s.
Proof. intro H. now apply (sub_no_match _ _ _ 0%nat). Qed.

Lemma fix_outputs_quiet (s : str) :
  finditer outputs_pattern s = [] -> fix_outputs s = s.
Proof. intro H. now apply (sub_no_match _ _ _ 0%nat). Qed.

Lemma fix_properties_quiet (s : str) :
  finditer properties_pattern s = [] -> fix_properties s = s.
Proof. intro H. unfold fix_properties. now rewrite H. Qed.

Lemma fix_kind_options_quiet (s : str) :
  finditer kind_options_pattern s = [] -> fix_kind_options s = s.
Proof. intro H. now apply (sub_no_match _ _ _ 0%nat). Qed.

Lemma fix_builders_quiet (s : str) :
  finditer builder_pattern s = [] -> fix_builders s = s.
Proof. intro H. unfold fix_builders. now rewrite H. Qed.

Lemma fix_base_quiet (s : str) :
  finditer base_pattern s = [] -> fix_base s = s.
Proof. intro H. now apply (sub_no_match _ _ _ 0%nat). Qed.

Lemma fix_new_quiet (s : str) :
  finditer new_pattern s = [] -> fix_new s = s.
Proof. intro H. unfold fix_new. now rewrite H. Qed.

Lemma transform_quiet (s : str) : no_targeted_pattern s -> transform s = s.
Proof.
  intros (H1 & H2 & H3 & H4 & H5 & H6 & H7 & H8). unfold transform.
  rewrite (fix_version_quiet s H1), (fix_inputs_quiet s H2),
    (fix_outputs_quiet s H3), (fix_properties_quiet s H4),
    (fix_kind_options_quiet s H5), (fix_builders_quiet s H6),
    (fix_base_quiet s H7).
  now apply fix_new_quiet.
Qed.

Lemma transform_only_properties (s : str) :
  only_step 4 s (fix_properties s) -> transform s = fix_properties s.
Proof.
  intros [Hb Ha]. cbn [firstn skipn step_patterns Nat.sub] in Hb, Ha.
  apply Forall_cons_iff in Hb as [H1 Hb]. apply Forall_cons_iff in Hb as [H2 Hb].
  apply Forall_cons_iff in Hb as [H3 _].
  apply Forall_cons_iff in Ha as [H5 Ha]. apply Forall_cons_iff in Ha as [H6 Ha].
  apply Forall_cons_iff in Ha as [H7 Ha]. apply Forall_cons_iff in Ha as [H8 _].
  unfold transform.
  rewrite (fix_version_quiet s H1), (fix_inputs_quiet s H2),
    (fix_outputs_quiet s H3), (fix_kind_options_quiet _ H5),
    (fix_builders_quiet _ H6), (fix_base_quiet _ H7).
  now apply fix_new_quiet.
Qed.

Lemma transform_only_kind_options (s : str) :
  only_step 5 s (fix_kind_options s) -> transform s = fix_kind_options s.
Proof.
  intros [Hb Ha]. cbn [firstn skipn step_patterns Nat.sub] in Hb, Ha.
  apply Forall_cons_iff in Hb as [H1 Hb]. apply Forall_cons_iff in Hb as [H2 Hb].
  apply Forall_cons_iff in Hb as [H3 Hb]. apply Forall_cons_iff in Hb as [H4 _].
  apply Forall_cons_iff in Ha as [H6 Ha].
  apply Forall_cons_iff in Ha as [H7 Ha]. apply Forall_cons_iff in Ha as [H8 _].
  unfold transform.
  rewrite (fix_version_quiet s H1), (fix_inputs_quiet s H2),
    (fix_outputs_quiet s H3), (fix_properties_quiet s H4),
    (fix_builders_quiet _ H6), (fix_base_quiet _ H7).
  now apply fix_new_quiet.
Qed.

Lemma transform_only_builders (s : str) :
  only_step 6 s (fix_builders s) -> transform s = fix_builders s.
Proof.
  intros [Hb Ha]. cbn [firstn skipn step_patterns Nat.sub] in Hb, Ha.
  apply Forall_cons_iff in Hb as [H1 Hb]. apply Forall_cons_iff in Hb as [H2 Hb].
  apply Forall_cons_iff in Hb as [H3 Hb]. apply Forall_cons_iff in Hb as [H4 Hb].
  apply Forall_cons_iff in Hb as [H5 _].
  apply Forall_cons_iff in Ha as [H7 Ha]. apply Forall_cons_iff in Ha as [H8 _].
  unfold transform.
  rewrite (fix_version_quiet s H1), (fix_inputs_quiet s H2),
    (fix_outputs_quiet s H3), (fix_properties_quiet s H4),
    (fix_kind_options_quiet s H5), (fix_base_quiet _ H7).
  now apply fix_new_quiet.
Qed.

End TransformFacts.
(* ================================================================== *)
(** * Script A: the [.properties([...])] claims *)
(* ================================================================== *)

Section PropertiesClaims.

Import ScriptA.

(** C2, as stated, fails: the two counters of the splitting loop only add
    and subtract, so a closing parenthesis that opens nothing (here inside
    a string literal) leaves the count at -1 between the two items and at
    0 inside the parentheses of the second one.  The list
    [[p.hint(":)"), q.opts(x, y)]] is not split at the comma between its
    items and is split at the comma inside [q.opts(x, y)]. *)
Lemma comma_inside_parentheses_splits_counterexample :
  split_items (py "[p.hint(" ++ [dquote] ++ py ":)" ++ [dquote] ++
               py "), q.opts(x, y)]") =
  [py "p.hint(" ++ [dquote] ++ py ":)" ++ [dquote] ++ py "), q.opts(x";
   py "y)"].
Proof. vm_compute. reflexivity. Qed.

(** C2, amended.  In the splitting of a [.properties([...])] argument list
    whose items have their brackets and parentheses properly nested, a
    comma inside a nested [[...]] or [(...)] is never an item separator;
    only the commas at depth zero split the list.  For items that have all
    their commas inside brackets or parentheses, the splitting of
    [[item1,item2,...]] gives back exactly these items (stripped; a blank
    last item is dropped). *)
Theorem split_only_at_top_level_commas (items : list str) :
  items <> [] ->
  Forall top_level_item items ->
  split_items (py "[" ++ join (py ",") items ++ py "]") =
  map strip (removelast items) ++
  (if truthy (strip (last items [])) then [strip (last items [])] else []).
Proof.
  intros Hne Hit. now apply split_items_join.
Qed.

Lemma split_only_at_top_level_commas_witness :
  split_items (py "[f(a, b), [x, (y, z)], c]") =
  [py "f(a, b)"; py "[x, (y, z)]"; py "c"].
Proof.
  apply (split_only_at_top_level_commas
           [py "f(a, b)"; py " [x, (y, z)]"; py " c"]).
  - discriminate.
  - repeat constructor.
Defined.

(** C1, as stated, fails: the items are also subject to the other steps of
    the transformation.  In [x.properties([a.version(1), b])] both items are
    top-level expressions, yet step 1, which runs first, removes
    [.version(1)], and the transformation writes [.add_property(a)] for
    the item [a.version(1)]. *)
Lemma properties_items_changed_counterexample :
  (Forall top_level_item [py "a.version(1)"; py " b"]) /\
  (transform (py "x.properties([a.version(1), b])") =
     py "x.add_property(a).add_property(b)") /\
  (transform (py "x.properties([a.version(1), b])") <>
     py "x.add_property(a.version(1)).add_property(b)").
Proof.
  split; [repeat constructor|].
  split; [vm_compute; reflexivity|].
  intro H. vm_compute in H. discriminate H.
Qed.

(** C1, amended.  When step 4 is the only step that finds a match, the
    transformation replaces a call [.properties([A, B, C])] whose items
    are top-level comma-separated expressions (with properly nested
    brackets and parentheses, none of them blank) by exactly
    [.add_property(A).add_property(B).add_property(C)]: one chained call
    per item, each item stripped of surrounding whitespace, nothing left of
    the separators.  Here the call is the first in the text and has no
    [.properties([] inside its list; the text after it is rewritten by
    step 4 in the same way. *)
Theorem properties_call_rewritten (pre post : str) (items : list str) :
  items <> [] ->
  Forall top_level_item items ->
  Forall not_blank items ->
  contains (py ".properties([") pre = false ->
  contains (py ".properties([") (join (py ",") items) = false ->
  only_step 4
    (pre ++ py ".properties([" ++ join (py ",") items ++ py "])" ++ post)
    (pre ++ List.concat (map add_property_call items) ++ fix_properties post) ->
  transform
    (pre ++ py ".properties([" ++ join (py ",") items ++ py "])" ++ post) =
  pre ++ List.concat (map add_property_call items) ++ fix_properties post.
Proof.
  intros Hne Hit Hnb Hpre Hbody Honly.
  pose proof (fix_properties_first_call pre post items Hne Hit Hnb Hpre Hbody)
    as E.
  rewrite <- E in Honly |- *. now apply transform_only_properties.
Qed.

Lemma properties_call_rewritten_witness :
  transform (py "d.properties([A, f(x, y), [1, 2] ]).z") =
  py "d.add_property(A).add_property(f(x, y)).add_property([1, 2]).z".
Proof.
  apply (properties_call_rewritten (py "d") (py ".z")
           [py "A"; py " f(x, y)"; py " [1, 2] "]).
  - discriminate.
  - repeat constructor.
  - repeat constructor; discriminate.
  - reflexivity.
  - reflexivity.
  - split; cbn [firstn skipn step_patterns Nat.sub];
      repeat (apply Forall_cons; [vm_compute; reflexivity|]); apply Forall_nil.
Defined.

End PropertiesClaims.
(* ================================================================== *)
(** * Script A: the [.inputs([...])] and [.outputs([...])] rewrites *)
(* ================================================================== *)

Section ListCallClaims.

Import ScriptA.

(** What steps 2 and 3 do with the first call of a text whose list is not
    empty and holds no closing bracket: the replacement is built from the
    whole content of the list, stripped; the text after the call is
    rewritten by the same step. *)
Lemma fix_inputs_outputs_first_call (pre body post : str) :
  body <> [] ->
  forallb (not_char "]") body = true ->
  (contains (py ".inputs([") pre = false ->
   fix_inputs (pre ++ py ".inputs([" ++ body ++ py "])" ++ post) =
   pre ++ py ".add_input(" ++ strip body ++ py ")" ++ fix_inputs post) /\
  (contains (py ".outputs([") pre = false ->
   fix_outputs (pre ++ py ".outputs([" ++ body ++ py "])" ++ post) =
   pre ++ py ".add_output(" ++ strip body ++ py ")" ++ fix_outputs post).
Proof.
  intros Hb Hp. split; intro Hpre.
  - unfold fix_inputs.
    change inputs_pattern with (list_call_pattern (py ".inputs([")).
    rewrite (sub_list_call_first _ (ch ".") (py "inputs([")); try assumption;
      [|reflexivity|unfold py, ch; simpl; intuition discriminate].
    unfold add_input at 1. cbn [nth]. now rewrite <- !app_assoc.
  - unfold fix_outputs.
    change outputs_pattern with (list_call_pattern (py ".outputs([")).
    rewrite (sub_list_call_first _ (ch ".") (py "outputs([")); try assumption;
      [|reflexivity|unfold py, ch; simpl; intuition discriminate].
    unfold add_output at 1. cbn [nth]. now rewrite <- !app_assoc.
Qed.

(** C3: the code does not do what the claim says.  On the text
    [.inputs([a, b])], whose list holds the two top-level items [a] and
    [b], the transformation gives the single two-argument call
    [.add_input(a, b)] and not one call per item,
    [.add_input(a).add_input(b)]; likewise [.outputs([a, b])] becomes
    [.add_output(a, b)].  Step 4 of the same function splits its list and
    writes one [.add_property(...)] per item. *)
Theorem list_call_not_split :
  (fix_inputs (py ".inputs([a, b])") = py ".add_input(a, b)") /\
  (transform (py ".inputs([a, b])") = py ".add_input(a, b)") /\
  (transform (py ".inputs([a, b])") <> py ".add_input(a).add_input(b)") /\
  (transform (py ".outputs([a, b])") = py ".add_output(a, b)") /\
  (transform (py ".outputs([a, b])") <> py ".add_output(a).add_output(b)") /\
  (transform (py ".properties([a, b])") =
     py ".add_property(a).add_property(b)").
Proof.
  repeat split; try (vm_compute; reflexivity);
    intro H; vm_compute in H; discriminate H.
Qed.

End ListCallClaims.
(* ================================================================== *)
(** * Script A: the [.build()] rules and the unchanged file *)
(* ================================================================== *)

Section BuildClaims.

Import ScriptA.

(** C5, as stated, fails, in three ways.
    - [NodePropertyKindOptions::builder()] is not scanned: the forward scan
      from the invocation in [NodePropertyKindOptions::builder().x(1);]
      stops at the semicolon and finds no [.build()] in the chain [.x(1)],
      yet the script appends nothing.
    - The invocations of [NodeProperty::builder()] are handled from the
      last to the first, each on the text that the later ones have left.
      In [NodeProperty::builder().a(NodeProperty::builder()).b(x, y),] the
      scan from the first invocation stops at the last comma and finds no
      [.build()] in the chain [.a(NodeProperty::builder()).b(x, y)]; the
      script has by then put [.build()] after [x] for the inner
      invocation, finds it in the chain and appends nothing for the first.
    - The other steps run on the same text: in
      [NodeProperty::builder().a(NodePropertyKindOptions::builder()),] the
      chain [.a(NodePropertyKindOptions::builder())] holds no [.build()],
      step 5 puts one into it, and step 6 then appends nothing. *)
Lemma build_not_appended_counterexample :
  (scan_chain (slice_from (py "NodePropertyKindOptions::builder().x(1);") 34) 34 0
     = 39%nat /\
   slice (py "NodePropertyKindOptions::builder().x(1);") 34 39 = py ".x(1)" /\
   contains (py ".build()") (py ".x(1)") = false /\
   transform (py "NodePropertyKindOptions::builder().x(1);") =
     py "NodePropertyKindOptions::builder().x(1);") /\
  (scan_chain
     (slice_from (py "NodeProperty::builder().a(NodeProperty::builder()).b(x, y),") 23)
     23 0 = 58%nat /\
   slice (py "NodeProperty::builder().a(NodeProperty::builder()).b(x, y),") 23 58 =
     py ".a(NodeProperty::builder()).b(x, y)" /\
   contains (py ".build()") (py ".a(NodeProperty::builder()).b(x, y)") = false /\
   transform (py "NodeProperty::builder().a(NodeProperty::builder()).b(x, y),") =
     py "NodeProperty::builder().a(NodeProperty::builder()).b(x.build(), y),") /\
  (scan_chain
     (slice_from (py "NodeProperty::builder().a(NodePropertyKindOptions::builder()),") 23)
     23 0 = 61%nat /\
   slice (py "NodeProperty::builder().a(NodePropertyKindOptions::builder()),") 23 61 =
     py ".a(NodePropertyKindOptions::builder())" /\
   contains (py ".build()") (py ".a(NodePropertyKindOptions::builder())") = false /\
   transform (py "NodeProperty::builder().a(NodePropertyKindOptions::builder()),") =
     py "NodeProperty::builder().a(NodePropertyKindOptions::builder().build()),").
Proof. repeat split; vm_compute; reflexivity. Qed.

(** C5, amended.  [NodeProperty::builder()], when step 6 is the only step
    that finds a match: for the first such invocation of a text, followed
    by a method chain (parentheses properly nested, no [,], [;], [}] or
    []] outside them, no further [NodeProperty::builder()] in it) and
    then by one of these four characters, the transformation inserts
    [.build()] before that character exactly when the chain does not
    contain [.build()], and leaves the occurrence unchanged otherwise; the
    text after that character is rewritten by step 6 in the same way.
    [NodePropertyKindOptions::builder()], when step 5 is the only step
    that finds a match, is handled without a scan: for the first such
    invocation of a text, [.build()] is inserted after the invocation and
    the plain text that follows it (no dot, comma or closing parenthesis,
    no whitespace at its end) when optional whitespace and then [,] or [)]
    come next; an invocation directly followed by a dot is left unchanged,
    with or without a [.build()] in its chain; the text after it is
    rewritten by step 5 in the same way. *)
Theorem build_call_appended (pre post : str) :
  (forall chain t,
      contains (py "NodeProperty::builder()") pre = false ->
      contains (py "NodeProperty::builder()") chain = false ->
      method_chain chain -> is_terminator t = true ->
      only_step 6
        (pre ++ py "NodeProperty::builder()" ++ chain ++ t :: post)
        (pre ++ py "NodeProperty::builder()" ++ chain ++
         (if contains (py ".build()") chain then [] else py ".build()") ++
         t :: fix_builders post) ->
      transform (pre ++ py "NodeProperty::builder()" ++ chain ++ t :: post) =
      pre ++ py "NodeProperty::builder()" ++ chain ++
      (if contains (py ".build()") chain then [] else py ".build()") ++
      t :: fix_builders post) /\
  (forall g ws t,
      contains (py "NodePropertyKindOptions::builder()") pre = false ->
      plain_text g -> forallb is_space ws = true -> comma_or_rparen t = true ->
      only_step 5
        (pre ++ py "NodePropertyKindOptions::builder()" ++ g ++ ws ++ t :: post)
        (pre ++ py "NodePropertyKindOptions::builder()" ++ g ++ py ".build()" ++
         ws ++ t :: fix_kind_options post) ->
      transform
        (pre ++ py "NodePropertyKindOptions::builder()" ++ g ++ ws ++ t :: post) =
      pre ++ py "NodePropertyKindOptions::builder()" ++ g ++ py ".build()" ++
      ws ++ t :: fix_kind_options post) /\
  (contains (py "NodePropertyKindOptions::builder()") pre = false ->
   only_step 5
     (pre ++ py "NodePropertyKindOptions::builder()" ++ ch "." :: post)
     (pre ++ py "NodePropertyKindOptions::builder()" ++ ch "." ::
      fix_kind_options post) ->
   transform
     (pre ++ py "NodePropertyKindOptions::builder()" ++ ch "." :: post) =
   pre ++ py "NodePropertyKindOptions::builder()" ++ ch "." :: fix_kind_options post).
Proof.
  split; [|split].
  - intros chain t H1 H2 H3 H4 Honly.
    pose proof (fix_builders_first pre chain t post H1 H2 H3 H4) as E.
    rewrite <- E in Honly |- *. now apply transform_only_builders.
  - intros g ws t H1 H2 H3 H4 Honly.
    pose proof (fix_kind_options_first pre g ws t post H1 H2 H3 H4) as E.
    rewrite <- E in Honly |- *. now apply transform_only_kind_options.
  - intros H1 Honly.
    pose proof (fix_kind_options_dot pre post H1) as E.
    rewrite <- E in Honly |- *. now apply transform_only_kind_options.
Qed.

Lemma build_call_appended_witness :
  transform (py "f(NodeProperty::builder().name(a, b), x)") =
    py "f(NodeProperty::builder().name(a, b).build(), x)" /\
  transform (py "f(NodeProperty::builder().name(a).build(), x)") =
    py "f(NodeProperty::builder().name(a).build(), x)" /\
  transform (py "f(NodePropertyKindOptions::builder() , x)") =
    py "f(NodePropertyKindOptions::builder().build() , x)" /\
  transform (py "f(NodePropertyKindOptions::builder().x(1), y)") =
    py "f(NodePropertyKindOptions::builder().x(1), y)".
Proof.
  destruct (build_call_appended (py "f(") (py " x)")) as [H1 [H2 _]].
  destruct (build_call_appended (py "f(") (py "x(1), y)")) as [_ [_ H3]].
  assert (Honly : forall k a b,
             forallb (fun r => match finditer r a with [] => true | _ => false end)
                     (firstn (k - 1) step_patterns) = true ->
             forallb (fun r => match finditer r b with [] => true | _ => false end)
                     (skipn k step_patterns) = true ->
             only_step k a b).
  { intros k a b Ha Hb. split; apply Forall_forall; intros r Hr;
      [rewrite forallb_forall in Ha; specialize (Ha r Hr)
      |rewrite forallb_forall in Hb; specialize (Hb r Hr)];
      cbv beta in *.
    - destruct (finditer r a); [reflexivity|discriminate].
    - destruct (finditer r b); [reflexivity|discriminate]. }
  split; [|split; [|split]].
  - apply (H1 (py ".name(a, b)") (ch ",")); try reflexivity.
    apply Honly; vm_compute; reflexivity.
  - apply (H1 (py ".name(a).build()") (ch ",")); try reflexivity.
    apply Honly; vm_compute; reflexivity.
  - apply (H2 [] (py " ") (ch ",")); try reflexivity.
    + split; reflexivity.
    + apply Honly; vm_compute; reflexivity.
  - apply H3; try reflexivity.
    apply Honly; vm_compute; reflexivity.
Defined.

(** C6.  A text in which none of the targeted call patterns occurs is left
    as it is by the transformation; a file whose text the transformation
    leaves as it is is not written and the function returns [False]; and
    the file is overwritten only when the final text differs from the
    original: a call that writes, that leaves the files other than they
    were, or that returns [True] is a call on a file whose final text
    differs.  When the text differs, the file is written with the final
    text and [True] is returned if the path can be opened for writing;
    otherwise the [open] raises and nothing is written. *)
Theorem unchanged_without_pattern (w : world) (file_path : string)
        (original_content : str) :
  files (fs w) file_path = Some original_content ->
  (no_targeted_pattern original_content ->
   transform original_content = original_content) /\
  (transform original_content = original_content ->
   fix_node_definition_file w file_path =
   (World (fs w)
          (trace w ++ [Printed (Fixing file_path); ReadFile file_path;
                       Printed (NoFixNeeded file_path)]),
    Return false)) /\
  (forall w' r,
      fix_node_definition_file w file_path = (w', r) ->
      (exists p content, In (WriteFile p content)
                            (skipn (List.length (trace w)) (trace w'))) \/
      fs w' <> fs w \/ r = Return true ->
      transform original_content <> original_content) /\
  (transform original_content <> original_content ->
   fix_node_definition_file w file_path =
   if writable (fs w) file_path then
     (World (write_file (fs w) file_path (transform original_content))
            (trace w ++ [Printed (Fixing file_path); ReadFile file_path;
                         WriteFile file_path (transform original_content);
                         Printed (Fixed file_path)]),
      Return true)
   else
     (World (fs w)
            (trace w ++ [Printed (Fixing file_path); ReadFile file_path]),
      Raises)).
Proof.
  intro Hfile.
  assert (Hsame : transform original_content = original_content ->
    fix_node_definition_file w file_path =
    (World (fs w)
           (trace w ++ [Printed (Fixing file_path); ReadFile file_path;
                        Printed (NoFixNeeded file_path)]),
     Return false)).
  { intro Heq. unfold fix_node_definition_file. rewrite Hfile, Heq.
    rewrite str_eqb_refl. cbn [negb]. now rewrite <- !app_assoc. }
  split; [|split; [|split]].
  - apply transform_quiet.
  - exact Hsame.
  - intros w' r Hcall Hw Heq. rewrite (Hsame Heq) in Hcall.
    injection Hcall as <- <-. cbn [fs trace] in Hw.
    destruct Hw as [(p & c & Hin)|[Hfs|Hr]].
    + rewrite skipn_app, skipn_all, Nat.sub_diag in Hin. cbn in Hin.
      destruct Hin as [Hin|[Hin|[Hin|[]]]]; discriminate Hin.
    + now apply Hfs.
    + discriminate Hr.
  - intro Hne. unfold fix_node_definition_file. rewrite Hfile.
    destruct (str_eqb (transform original_content) original_content) eqn:E.
    + apply str_eqb_eq in E. contradiction.
    + cbn [negb]. destruct (writable (fs w) file_path);
        now rewrite <- !app_assoc.
Qed.

Lemma unchanged_without_pattern_witness :
  transform (py "fn main() { let definition = base; }") =
    py "fn main() { let definition = base; }" /\
  fix_node_definition_file
    (World (FS (fun _ => 0%nat)
               (fun _ => py "fn main() { let definition = base; }")
               (fun _ => true) (fun _ => true)) [])
    "src/a.rs" =
  (World (FS (fun _ => 0%nat)
             (fun _ => py "fn main() { let definition = base; }")
             (fun _ => true) (fun _ => true))
         [Printed (Fixing "src/a.rs"); ReadFile "src/a.rs";
          Printed (NoFixNeeded "src/a.rs")],
   Return false).
Proof.
  destruct (unchanged_without_pattern
              (World (FS (fun _ => 0%nat)
                         (fun _ => py "fn main() { let definition = base; }")
                         (fun _ => true) (fun _ => true)) [])
              "src/a.rs" (py "fn main() { let definition = base; }") eq_refl)
    as [H1 [H2 _]].
  assert (Hno : no_targeted_pattern (py "fn main() { let definition = base; }"))
    by (repeat split; vm_compute; reflexivity).
  split; [exact (H1 Hno)|exact (H2 (H1 Hno))].
Defined.

End BuildClaims.

(* ================================================================== *)
(** * Script A: second passes *)
(* ================================================================== *)

Section SecondPassClaims.

Import ScriptA.

(** C4, as stated, fails: a second pass can change the text again.  Step 1
    turns [.version.version(1)(2)] into [.version(2)], which it then
    removes, and so does the whole transformation.  Steps 2, 3, 4 and 8
    also build, out of the pieces around a match, a text that they match
    again. *)
Lemma second_pass_changes_counterexample :
  let q := [dquote] in
  fix_version (py ".version.version(1)(2)") = py ".version(2)" /\
  fix_version (py ".version(2)") = [] /\
  transform (py ".version.version(1)(2)") = py ".version(2)" /\
  transform (py ".version(2)") = [] /\
  fix_inputs (py ".inputs([a.inputs([b])c])") = py ".add_input(a.inputs([b)c])" /\
  fix_inputs (py ".add_input(a.inputs([b)c])") = py ".add_input(a.add_input(b)c)" /\
  fix_outputs (py ".outputs([a.outputs([b])c])") = py ".add_output(a.outputs([b)c])" /\
  fix_outputs (py ".add_output(a.outputs([b)c])") = py ".add_output(a.add_output(b)c)" /\
  fix_properties (py ".proper.properties([])ties([a])") = py ".properties([a])" /\
  fix_properties (py ".properties([a])") = py ".add_property(a)" /\
  fix_new (py "NodeDefinition::new(" ++ q ++ py "NodeDefinition::new(" ++ q ++
           py ", " ++ q ++ py "," ++ q ++ py ")x" ++ q ++ py ")") =
    py "NodeDefinition::new(" ++ q ++ py "NodeDefinition::new(" ++ q ++
    py ", " ++ q ++ py "," ++ q ++ py ", Version::new(1, 0, 0))x" ++ q ++ py ")" /\
  fix_new (py "NodeDefinition::new(" ++ q ++ py "NodeDefinition::new(" ++ q ++
           py ", " ++ q ++ py "," ++ q ++ py ", Version::new(1, 0, 0))x" ++ q ++
           py ")") =
    py "NodeDefinition::new(" ++ q ++ py "NodeDefinition::new(" ++ q ++
    py ", " ++ q ++ py ", " ++ q ++
    py ", Version::new(1, 0, 0))x" ++ q ++ py ", Version::new(1, 0, 0))".
Proof.
  cbv zeta. repeat split; vm_compute; reflexivity.
Qed.

(** C4, amended.  Steps 5, 6 and 7, each taken on its own, are idempotent:
    for every text, applying the step to its own output changes nothing.
    (The whole transformation and steps 1, 2, 3, 4 and 8 are not.) *)
Theorem builder_steps_idempotent :
  (forall content,
     fix_kind_options (fix_kind_options content) = fix_kind_options content) /\
  (forall content,
     fix_builders (fix_builders content) = fix_builders content) /\
  (forall content,
     fix_base (fix_base content) = fix_base content).
Proof.
  split; [|split].
  - exact fix_kind_options_idempotent.
  - exact fix_builders_idempotent.
  - exact fix_base_idempotent.
Qed.

End SecondPassClaims.

(* ================================================================== *)
(** * Script B: the claims *)
(* ================================================================== *)

Section ScriptBClaims.

Import Json Base64 ScriptB.

Lemma b64_text_not_prefixed (unicode_isalnum : char -> bool) (s : str) :
  forallb b64_text_char s = true ->
  sub (data_uri_pattern unicode_isalnum) (fun _ => []) s = s.
Proof.
  intro H. apply sub_data_uri_other. intros tok rest _ _ ->.
  cbn [py list_ascii_of_string map app forallb] in H.
  do 4 (apply andb_true_iff in H as [_ H]).
  apply andb_true_iff in H as [H _].
  vm_compute in H. discriminate.
Qed.

Lemma a2b_loop_incomplete :
  forall s q l p out k r,
    forallb (fun c => (c <? 128) && negb (c =? pad)) s = true ->
    (q < 4)%nat -> (q + count_b64 s = 4 * k + r)%nat -> (1 <= r <= 3)%nat ->
    a2b_loop s q l p out = None.
Proof.
  induction s as [|c s IH]; intros q l p out k r Hs Hq Hc Hr.
  - cbn [count_b64] in Hc. cbn [a2b_loop]. destruct q; [lia|reflexivity].
  - cbn [forallb] in Hs. apply andb_true_iff in Hs as [Hc0 Hs].
    apply andb_true_iff in Hc0 as [_ Hpad]. apply negb_true_iff in Hpad.
    cbn [a2b_loop count_b64] in *. rewrite Hpad.
    unfold is_b64_char in Hc. destruct (a2b c) as [v|].
    + destruct q as [|[|[|q]]].
      * apply (IH _ _ _ _ k r); [assumption|lia|lia|lia].
      * apply (IH _ _ _ _ k r); [assumption|lia|lia|lia].
      * apply (IH _ _ _ _ k r); [assumption|lia|lia|lia].
      * apply (IH _ _ _ _ (k - 1)%nat r); [assumption|lia|lia|lia].
    + apply (IH _ _ _ _ k r); [assumption|lia|lia|lia].
Qed.

(** C7.  Round trip: for every byte string, the JSON document
    [{"b64_json": "<data>"}] that wraps its standard Base64 encoding,
    passed to [base64_json_to_image] with the key ["b64_json"] and a path
    that can be written, makes the function return [True] and leaves at
    that path a file whose bytes are the original ones. *)
Theorem base64_round_trip (unicode_isalnum : char -> bool) (w : world)
        (data : list byte) (output_path : string) :
  writable w output_path = true ->
  base64_json_to_image unicode_isalnum w (wrap_b64_json (b64encode data))
                       output_path default_data_key =
    (world_after_write w output_path data, Return true) /\
  files (world_after_write w output_path data) output_path = Some data.
Proof.
  intro Hw.
  pose proof (b64encode_text _ data (le_n _)) as Htext.
  split.
  - apply (call_succeeds unicode_isalnum w _ output_path default_data_key
             [(py "b64_json", PyStr (b64encode data))] (b64encode data)).
    + apply loads_wrap. apply forallb_forall. intros c Hc.
      rewrite forallb_forall in Htext. now apply b64_text_char_props, Htext.
    + reflexivity.
    + rewrite b64_text_not_prefixed by exact Htext. apply b64decode_encode.
    + exact Hw.
  - unfold world_after_write. cbn [files]. now rewrite String.eqb_refl.
Qed.

Lemma base64_round_trip_witness :
  base64_json_to_image (fun _ => false)
    (World (fun _ => None) (fun _ => true) [])
    (wrap_b64_json (py "Af8QAA==")) "out.png" (py "b64_json") =
    (world_after_write (World (fun _ => None) (fun _ => true) []) "out.png"
                       [x01; xff; x10; x00], Return true) /\
  files (world_after_write (World (fun _ => None) (fun _ => true) []) "out.png"
                           [x01; xff; x10; x00]) "out.png" =
  Some [x01; xff; x10; x00].
Proof.
  exact (base64_round_trip (fun _ => false)
           (World (fun _ => None) (fun _ => true) [])
           [x01; xff; x10; x00] "out.png" eq_refl).
Defined.

(** C8.  Before decoding, a leading prefix [data:image/<token>;base64,]
    (the token one or more word characters) is removed from the extracted
    value exactly when it is there: a value with the prefix loses it, any
    other value is left as it is; and the document whose value is
    [data:image/png;base64,AAAA] is decoded (to three zero bytes) after
    the prefix is removed. *)
Theorem data_uri_prefix_stripped (unicode_isalnum : char -> bool) :
  (forall tok rest w,
      tok <> [] -> forallb (is_word unicode_isalnum) tok = true ->
      strip_data_uri unicode_isalnum
        (PyStr (py "data:image/" ++ tok ++ py ";base64," ++ rest)) w =
      (w, inr rest)) /\
  (forall s w,
      (forall tok rest,
          tok <> [] -> forallb (is_word unicode_isalnum) tok = true ->
          s <> py "data:image/" ++ tok ++ py ";base64," ++ rest) ->
      strip_data_uri unicode_isalnum (PyStr s) w = (w, inr s)) /\
  (forall w output_path,
      writable w output_path = true ->
      base64_json_to_image unicode_isalnum w
        (wrap_b64_json (py "data:image/png;base64,AAAA"))
        output_path default_data_key =
      (world_after_write w output_path [x00; x00; x00], Return true)).
Proof.
  split; [|split].
  - intros tok rest w Hne Hw. unfold strip_data_uri, ret.
    now rewrite sub_data_uri_prefixed.
  - intros s w Hno. unfold strip_data_uri, ret.
    now rewrite sub_data_uri_other.
  - intros w output_path Hw.
    apply (call_succeeds unicode_isalnum w _ output_path default_data_key
             [(py "b64_json", PyStr (py "data:image/png;base64,AAAA"))]
             (py "data:image/png;base64,AAAA")).
    + apply loads_wrap. reflexivity.
    + reflexivity.
    + change (py "data:image/png;base64,AAAA")
        with (py "data:image/" ++ py "png" ++ py ";base64," ++ py "AAAA").
      rewrite sub_data_uri_prefixed; [reflexivity|discriminate|reflexivity].
    + exact Hw.
Qed.

Lemma data_uri_prefix_stripped_witness :
  strip_data_uri (fun _ => false) (PyStr (py "data:image/jpeg;base64,/9j/"))
                 (World (fun _ => None) (fun _ => true) []) =
    (World (fun _ => None) (fun _ => true) [], inr (py "/9j/")) /\
  strip_data_uri (fun _ => false) (PyStr (py "data:image/svg+xml;base64,AAAA"))
                 (World (fun _ => None) (fun _ => true) []) =
    (World (fun _ => None) (fun _ => true) [],
     inr (py "data:image/svg+xml;base64,AAAA")) /\
  base64_json_to_image (fun _ => false) (World (fun _ => None) (fun _ => true) [])
    (wrap_b64_json (py "data:image/png;base64,AAAA")) "out.png" default_data_key =
  (world_after_write (World (fun _ => None) (fun _ => true) []) "out.png"
                     [x00; x00; x00], Return true).
Proof.
  destruct (data_uri_prefix_stripped (fun _ => false)) as [H1 [H2 H3]].
  split; [|split].
  - exact (H1 (py "jpeg") (py "/9j/") (World (fun _ => None) (fun _ => true) [])
             ltac:(discriminate) eq_refl).
  - apply H2. intros tok rest Hne Hw Heq.
    assert (Hs : sub (data_uri_pattern (fun _ => false)) (fun _ => [])
                     (py "data:image/svg+xml;base64,AAAA") = rest)
      by (rewrite Heq; now apply sub_data_uri_prefixed).
    assert (Hl : List.length rest = 30%nat) by (rewrite <- Hs; reflexivity).
    apply (f_equal (@List.length char)) in Heq.
    rewrite !length_app, Hl in Heq. simpl in Heq. lia.
  - exact (H3 (World (fun _ => None) (fun _ => true) []) "out.png"%string eq_refl).
Defined.

(** C9, as stated, fails, in three ways.
    - A value that is not valid Base64 can be accepted: the decoder
      discards the characters outside the alphabet, so the value [ab$cd],
      which is not Base64 text, is decoded (as [abcd]) and the function
      writes the three bytes and returns [True].
    - A JSON document without the requested key is not always reported
      as such: for the object whose only key is [a] and whose value is an
      integer of 4301 digits, [json.loads] raises [ValueError] at the
      integer, and the line printed is the one of the catch-all handler,
      not the one about the missing key.
    - The failure can leave the function as an exception: for the document
      [{}] and a requested key that is a lone surrogate (U+D800), the
      [print] of the handler of [KeyError] raises [UnicodeEncodeError],
      which nothing catches. *)
Lemma failures_not_all_reported_counterexample :
  (rfc4648_valid (py "ab$cd") = false /\
   base64_json_to_image (fun _ => false)
     (World (fun _ => None) (fun _ => true) [])
     (wrap_b64_json (py "ab$cd")) "out.png" default_data_key =
   (world_after_write (World (fun _ => None) (fun _ => true) []) "out.png"
                      [x69; xb7; x1d], Return true)) /\
  (Json.loads (py "{" ++ [dquote] ++ py "a" ++ [dquote] ++ py ": 1}") =
     Ok (PyDict [(py "a", PyNum (py "1"))]) /\
   dict_get [(py "a", PyNum (py "1"))] default_data_key = None /\
   base64_json_to_image (fun _ => false)
     (World (fun _ => None) (fun _ => true) [])
     (py "{" ++ [dquote] ++ py "a" ++ [dquote] ++ py ": " ++
      repeat (ch "1") 4301 ++ py "}")
     "out.png" default_data_key =
   (world_after_failure (World (fun _ => None) (fun _ => true) []) UnknownError,
    Return false)) /\
  (dict_get [] [55296] = None /\
   base64_json_to_image (fun _ => false)
     (World (fun _ => None) (fun _ => true) [])
     (py "{}") "out.png" [55296] =
   (World (fun _ => None) (fun _ => true) [], RaiseUnicodeEncodeError)).
Proof.
  split; [|split].
  - split; [reflexivity|].
    apply (call_succeeds (fun _ => false) _ _ "out.png" default_data_key
             [(py "b64_json", PyStr (py "ab$cd"))] (py "ab$cd"));
      reflexivity.
  - repeat split; vm_compute; reflexivity.
  - split; vm_compute; reflexivity.
Qed.

(** C9, amended.  The function returns [False], after printing the message
    of the failure's class and nothing else, for a text that [json.loads]
    rejects with [JSONDecodeError], for a JSON object without the requested
    key when the key holds no surrogate code point, and for an extracted
    string that the Base64 decoder rejects once the prefix is removed.  For
    a text in which [json.loads] meets an integer of more than 4300 digits
    it returns [False] after printing the line of the catch-all handler.
    The decoder rejects in particular every ASCII string without [=] whose
    alphabet characters do not number a multiple of four; it does not
    reject a string merely for holding characters outside the alphabet. *)
Theorem failures_reported (unicode_isalnum : char -> bool) (w : world)
        (s : str) (output_path : string) (data_key : str) :
  (Json.loads s = DecodeError ->
   base64_json_to_image unicode_isalnum w s output_path data_key =
   (world_after_failure w InvalidJson, Return false)) /\
  (forall pairs,
      Json.loads s = Ok (PyDict pairs) -> dict_get pairs data_key = None ->
      encodable data_key = true ->
      base64_json_to_image unicode_isalnum w s output_path data_key =
      (world_after_failure w (KeyNotFound data_key), Return false)) /\
  (forall pairs v,
      Json.loads s = Ok (PyDict pairs) ->
      dict_get pairs data_key = Some (PyStr v) ->
      b64decode (sub (data_uri_pattern unicode_isalnum) (fun _ => []) v) =
        inl BinasciiError ->
      base64_json_to_image unicode_isalnum w s output_path data_key =
      (world_after_failure w InvalidBase64, Return false)) /\
  (Json.loads s = DigitLimit ->
   base64_json_to_image unicode_isalnum w s output_path data_key =
   (world_after_failure w UnknownError, Return false)) /\
  (forall v k r,
      forallb (fun c => (c <? 128) && negb (c =? pad)) v = true ->
      count_b64 v = (4 * k + r)%nat -> (1 <= r <= 3)%nat ->
      b64decode v = inl BinasciiError).
Proof.
  split; [|split; [|split; [|split]]].
  - intro H.
    apply (call_fails unicode_isalnum w w s output_path data_key JSONDecodeError).
    unfold decoding, bind, json_loads, raise. now rewrite H.
  - intros pairs H1 H2 He.
    rewrite (call_fails unicode_isalnum w w s output_path data_key KeyError).
    + cbn [diagnostic can_print]. now rewrite He.
    + unfold decoding, bind, json_loads, getitem, raise, ret. now rewrite H1, H2.
  - intros pairs v H1 H2 H3.
    apply (call_fails unicode_isalnum w w s output_path data_key BinasciiErr).
    unfold decoding, bind, json_loads, getitem, strip_data_uri, base64_decode,
      raise, ret.
    now rewrite H1, H2, H3.
  - intro H.
    apply (call_fails unicode_isalnum w w s output_path data_key OtherException).
    unfold decoding, bind, json_loads, raise. now rewrite H.
  - intros v k r Hv Hc Hr. unfold b64decode, a2b_base64.
    replace (forallb (fun c => c <? 128) v) with true.
    + rewrite (a2b_loop_incomplete v 0 0 0 [] k r);
        [reflexivity|exact Hv|lia|simpl; lia|exact Hr].
    + symmetry. rewrite forallb_forall in Hv |- *. intros c Hin.
      apply Hv in Hin. now apply andb_true_iff in Hin as [Hin _].
Qed.

Lemma failures_reported_witness :
  base64_json_to_image (fun _ => false) (World (fun _ => None) (fun _ => true) [])
    (py "not json") "out.png" default_data_key =
    (world_after_failure (World (fun _ => None) (fun _ => true) []) InvalidJson,
     Return false) /\
  base64_json_to_image (fun _ => false) (World (fun _ => None) (fun _ => true) [])
    (py "{}") "out.png" default_data_key =
    (world_after_failure (World (fun _ => None) (fun _ => true) [])
                         (KeyNotFound default_data_key), Return false) /\
  base64_json_to_image (fun _ => false) (World (fun _ => None) (fun _ => true) [])
    (wrap_b64_json (py "abcde")) "out.png" default_data_key =
    (world_after_failure (World (fun _ => None) (fun _ => true) []) InvalidBase64,
     Return false) /\
  b64decode (py "abcde") = inl BinasciiError.
Proof.
  split; [|split; [|split]].
  - exact (proj1 (failures_reported (fun _ => false) _ (py "not json") "out.png"
                    default_data_key) eq_refl).
  - exact (proj1 (proj2 (failures_reported (fun _ => false) _ (py "{}") "out.png"
                           default_data_key)) [] eq_refl eq_refl eq_refl).
  - exact (proj1 (proj2 (proj2 (failures_reported (fun _ => false) _
                                  (wrap_b64_json (py "abcde")) "out.png"
                                  default_data_key)))
             [(py "b64_json", PyStr (py "abcde"))] (py "abcde")
             eq_refl eq_refl eq_refl).
  - exact (proj2 (proj2 (proj2 (proj2 (failures_reported (fun _ => false)
                                  (World (fun _ => None) (fun _ => true) [])
                                  [] "out.png" default_data_key))))
             (py "abcde") 1%nat 1%nat eq_refl eq_refl (conj (le_n 1) (le_S _ _ (le_S _ _ (le_n 1))))).
Defined.




End ScriptBClaims.

(* ================================================================== *)
(** * Facts about [main] of Script A *)
(* ================================================================== *)

Section MainFacts.

Import ScriptA ScriptAMain.

(** ** Names and paths *)

Lemma starts_app (p s t : list ascii) :
  starts p s = true -> starts p (s ++ t) = true.
Proof.
  revert s; induction p as [|a p IH]; intros s H; [reflexivity|].
  destruct s as [|b s]; [discriminate|]. cbn [starts app] in *.
  apply andb_true_iff in H as [E H]. rewrite E. now apply IH.
Qed.

Lemma list_ascii_app (a b : string) :
  list_ascii_of_string (a ++ b) = list_ascii_of_string a ++ list_ascii_of_string b.
Proof. induction a as [|c a IH]; simpl; [reflexivity|now rewrite IH]. Qed.

Lemma endswith_app (a b suffix : string) :
  endswith b suffix = true -> endswith (a ++ b) suffix = true.
Proof.
  unfold endswith. intro H. rewrite list_ascii_app, rev_app_distr.
  now apply starts_app.
Qed.

Lemma endswith_join (root file suffix : string) :
  endswith file suffix = true -> endswith (path_join root file) suffix = true.
Proof.
  intro H. unfold path_join.
  destruct (String.prefix "/" file); [exact H|].
  destruct (String.eqb root EmptyString || endswith root "/").
  - now apply endswith_app.
  - apply endswith_app. now apply endswith_app.
Qed.

Lemma rust_files_suffix (walk : walk_result) (p : string) :
  In p (rust_files walk) -> endswith p ".rs" = true.
Proof.
  unfold rust_files. rewrite in_flat_map.
  intros ([[root dirs] fs] & _ & Hin).
  apply in_map_iff in Hin as (file & <- & Hf).
  apply filter_In in Hf as [_ Hf]. now apply endswith_join.
Qed.

(** ** One round of the second loop *)

Lemma fix_all_cons (q : string) (rest : list string) (w : world) (n : nat) :
  fix_all (q :: rest) w n =
  fix_all rest (World (after_round (fs w) q) (trace w ++ file_events (fs w) q))
          (n + if rewritten (fs w) q then 1 else 0).
Proof.
  cbn [fix_all]. unfold call_fix, fix_node_definition_file, file_events,
    after_round, rewritten, changed, files.
  cbn [ScriptA.fs ScriptA.trace app].
  destruct (readable (fs w) q).
  - destruct (negb (str_eqb (transform (text (fs w) (inode (fs w) q)))
                            (text (fs w) (inode (fs w) q)))).
    + destruct (writable (fs w) q); cbn [andb ScriptA.fs ScriptA.trace map].
      * f_equal. lia.
      * unfold print. cbn [fs trace]. rewrite <- app_assoc. f_equal. lia.
    + cbn [andb ScriptA.fs ScriptA.trace map]. f_equal. lia.
  - cbn [andb ScriptA.fs ScriptA.trace map]. unfold print. cbn [fs trace].
    rewrite <- app_assoc. f_equal. lia.
Qed.

(** A round changes the text of one file at most. *)
Lemma after_round_names (d : filesystem) (q : string) :
  inode (after_round d q) = inode d /\
  readable (after_round d q) = readable d /\
  writable (after_round d q) = writable d.
Proof. unfold after_round. now destruct (rewritten d q). Qed.

Lemma after_round_text (d : filesystem) (q : string) (i : nat) :
  text (after_round d q) i =
  if (inode d q =? i)%nat && rewritten d q then transform (text d i)
  else text d i.
Proof.
  unfold after_round. destruct (rewritten d q).
  - cbn [write_file text]. rewrite Nat.eqb_sym, andb_true_r.
    destruct (inode d q =? i)%nat eqn:E; [|reflexivity].
    apply Nat.eqb_eq in E. now rewrite E.
  - now rewrite andb_false_r.
Qed.

(** What a round does for a path depends on what reading the path gives
    and on whether it can be written. *)
Lemma round_same (d1 d : filesystem) (r : string) :
  files d1 r = files d r -> writable d1 r = writable d r ->
  changed d1 r = changed d r /\ rewritten d1 r = rewritten d r /\
  file_events d1 r = file_events d r.
Proof.
  intros Hf Hw. unfold file_events, rewritten, changed. now rewrite Hf, Hw.
Qed.

Lemma after_round_other (d : filesystem) (q r : string) :
  inode d r <> inode d q ->
  files (after_round d q) r = files d r /\
  writable (after_round d q) r = writable d r.
Proof.
  intro Hne. destruct (after_round_names d q) as (Hi & Hr & Hw).
  unfold files. rewrite Hi, Hr, Hw, after_round_text.
  replace (inode d q =? inode d r)%nat with false; [now split|].
  symmetry. apply Nat.eqb_neq. congruence.
Qed.

(** ** The second loop *)

Lemma flat_map_same {A B} (f g : A -> list B) (l : list A) :
  (forall a, In a l -> f a = g a) -> flat_map f l = flat_map g l.
Proof.
  induction l as [|a l IH]; intro H; [reflexivity|].
  cbn [flat_map]. rewrite (H a) by now left.
  rewrite IH; [reflexivity|]. intros b Hb. apply H. now right.
Qed.

Lemma filter_same {A} (f g : A -> bool) (l : list A) :
  (forall a, In a l -> f a = g a) -> filter f l = filter g l.
Proof.
  induction l as [|a l IH]; intro H; [reflexivity|].
  cbn [filter]. rewrite (H a) by now left.
  rewrite IH; [reflexivity|]. intros b Hb. apply H. now right.
Qed.

Lemma existsb_same {A} (f g : A -> bool) (l : list A) :
  (forall a, In a l -> f a = g a) -> existsb f l = existsb g l.
Proof.
  induction l as [|a l IH]; intro H; [reflexivity|].
  cbn [existsb]. rewrite (H a) by now left.
  rewrite IH; [reflexivity|]. intros b Hb. apply H. now right.
Qed.

(** The loop gives no path another file and no file other rights. *)
Lemma fix_all_names :
  forall rs w n,
    inode (fs (fst (fix_all rs w n))) = inode (fs w) /\
    readable (fs (fst (fix_all rs w n))) = readable (fs w) /\
    writable (fs (fst (fix_all rs w n))) = writable (fs w).
Proof.
  induction rs as [|q rest IH]; intros w n; [now repeat split|].
  rewrite fix_all_cons.
  destruct (IH (World (after_round (fs w) q) (trace w ++ file_events (fs w) q))
               (n + if rewritten (fs w) q then 1 else 0)%nat) as (Hi & Hr & Hw).
  destruct (after_round_names (fs w) q) as (Hi' & Hr' & Hw').
  cbn [fs] in Hi, Hr, Hw. rewrite Hi, Hr, Hw. now repeat split.
Qed.

(** When no two listed paths name one file, the rounds do not see each
    other: each file is rewritten from the text it held at the start. *)
Lemma fix_all_spec :
  forall rs w n,
    NoDup (map (inode (fs w)) rs) ->
    (forall i, text (fs (fst (fix_all rs w n))) i =
               if existsb (fun q => (inode (fs w) q =? i)%nat && rewritten (fs w) q) rs
               then transform (text (fs w) i) else text (fs w) i) /\
    trace (fst (fix_all rs w n)) = trace w ++ flat_map (file_events (fs w)) rs /\
    snd (fix_all rs w n) = (n + List.length (filter (rewritten (fs w)) rs))%nat.
Proof.
  induction rs as [|q rest IH]; intros w n Hnd.
  - cbn. repeat split; [now rewrite app_nil_r|lia].
  - rewrite fix_all_cons.
    cbn [map] in Hnd. inversion Hnd as [|? ? Hq Hrest]; subst.
    set (w1 := World (after_round (fs w) q) (trace w ++ file_events (fs w) q)).
    destruct (after_round_names (fs w) q) as (Hi' & _ & _).
    assert (Hnd1 : NoDup (map (inode (fs w1)) rest))
      by (cbn [fs w1]; now rewrite Hi').
    destruct (IH w1 (n + if rewritten (fs w) q then 1 else 0)%nat Hnd1)
      as (Hf & Ht & Hn).
    assert (Hother : forall r, In r rest -> inode (fs w) r <> inode (fs w) q).
    { intros r Hr E. apply Hq. rewrite <- E. now apply in_map. }
    assert (Hsame : forall r, In r rest ->
                changed (after_round (fs w) q) r = changed (fs w) r /\
                rewritten (after_round (fs w) q) r = rewritten (fs w) r /\
                file_events (after_round (fs w) q) r = file_events (fs w) r).
    { intros r Hr.
      destruct (after_round_other (fs w) q r (Hother r Hr)) as [E1 E2].
      now apply round_same. }
    split; [|split].
    + intro i. rewrite Hf. cbn [existsb fs w1]. rewrite Hi'.
      rewrite (existsb_same
                 (fun r => (inode (fs w) r =? i)%nat && rewritten (after_round (fs w) q) r)
                 (fun r => (inode (fs w) r =? i)%nat && rewritten (fs w) r))
        by (intros r Hr; now rewrite (proj1 (proj2 (Hsame r Hr)))).
      rewrite after_round_text.
      destruct (existsb _ rest) eqn:Ex.
      * apply existsb_exists in Ex as (r & Hr & Er).
        apply andb_true_iff in Er as [Er _]. apply Nat.eqb_eq in Er.
        replace (inode (fs w) q =? i)%nat with false; [reflexivity|].
        symmetry. apply Nat.eqb_neq. intro E. apply (Hother r Hr). congruence.
      * now rewrite orb_false_r.
    + rewrite Ht. cbn [trace fs w1 flat_map]. rewrite <- app_assoc. do 2 f_equal.
      apply flat_map_same. intros r Hr. apply (Hsame r Hr).
    + rewrite Hn. cbn [filter fs w1].
      rewrite (filter_same (rewritten (after_round (fs w) q)) (rewritten (fs w)))
        by (intros r Hr; apply (Hsame r Hr)).
      destruct (rewritten (fs w) q); cbn [List.length]; lia.
Qed.

(** Without that assumption: a file that no listed path names stays as it
    is, and the loop reads and writes listed paths only. *)
Lemma fix_all_frame :
  forall rs w n,
    (forall i, (forall p, In p rs -> inode (fs w) p <> i) ->
               text (fs (fst (fix_all rs w n))) i = text (fs w) i) /\
    exists t,
      trace (fst (fix_all rs w n)) = trace w ++ t /\
      forall p, (In (InFile (ReadFile p)) t \/
                 exists c, In (InFile (WriteFile p c)) t) -> In p rs.
Proof.
  induction rs as [|q rest IH]; intros w n.
  - split; [reflexivity|]. exists []. split; [now rewrite app_nil_r|].
    intros p [H|[c H]]; destruct H.
  - rewrite fix_all_cons.
    set (w1 := World (after_round (fs w) q) (trace w ++ file_events (fs w) q)).
    destruct (after_round_names (fs w) q) as (Hi' & _ & _).
    destruct (IH w1 (n + if rewritten (fs w) q then 1 else 0)%nat)
      as (Hf & t & Ht & Hin).
    split.
    + intros i Hi. rewrite Hf.
      * cbn [fs w1]. rewrite after_round_text.
        replace (inode (fs w) q =? i)%nat with false; [reflexivity|].
        symmetry. apply Nat.eqb_neq. apply Hi. now left.
      * intros p Hp. cbn [fs w1]. rewrite Hi'. apply Hi. now right.
    + exists (file_events (fs w) q ++ t). split.
      * rewrite Ht. cbn [trace w1]. now rewrite app_assoc.
      * intros p H.
        assert (Hq : forall e, In (InFile e) (file_events (fs w) q) ->
                               (e = ReadFile p \/ exists c, e = WriteFile p c) ->
                               p = q).
        { intros e He Hshape. unfold file_events in He.
          destruct (files (fs w) q);
            [destruct (changed (fs w) q); [destruct (writable (fs w) q)|]|];
            cbn [map In] in He;
            repeat (destruct He as [He|He];
                    [try discriminate He; injection He as <-;
                     destruct Hshape as [Hs|[c' Hs]];
                     (discriminate Hs || (injection Hs; congruence))|]);
            destruct He. }
        destruct H as [H|[c H]]; apply in_app_or in H as [H|H].
        -- left. symmetry. apply (Hq _ H). now left.
        -- right. apply Hin. now left.
        -- left. symmetry. apply (Hq _ H). right. now exists c.
        -- right. apply Hin. right. now exists c.
Qed.

End MainFacts.

(* ================================================================== *)
(** * More facts about Script B *)
(* ================================================================== *)

Section ScriptBMoreFacts.

Import Json Base64 ScriptB.

Variable unicode_isalnum : char -> bool.

Let uri := data_uri_pattern unicode_isalnum.

(** The steps before the write leave the world as it is, and succeed only
    on an object that holds a string which decodes. *)
Lemma decoding_cases (w : world) (s : str) (key : str) :
  (exists e, decoding unicode_isalnum s key w = (w, inl e)) \/
  (exists pairs v data,
      Json.loads s = Ok (PyDict pairs) /\
      dict_get pairs key = Some (PyStr v) /\
      b64decode (sub uri (fun _ => []) v) = inr data /\
      decoding unicode_isalnum s key w = (w, inr data)).
Proof.
  unfold decoding, bind, json_loads, getitem, strip_data_uri, base64_decode,
    raise, ret. fold uri.
  destruct (Json.loads s) as [data| |]; try (left; eexists; reflexivity).
  destruct data as [| | | |items|pairs]; try (left; eexists; reflexivity).
  destruct (dict_get pairs key) as [v|] eqn:Ek; [|left; eexists; reflexivity].
  destruct v as [| | |v| |]; try (left; eexists; reflexivity).
  destruct (b64decode (sub uri (fun _ => []) v)) as [[|]|data] eqn:E;
    try (left; eexists; reflexivity).
  right. exists pairs, v, data. repeat split; assumption.
Qed.


Lemma call_blocked (w : world) (s : str) (output_path : string) (key : str)
      (pairs : list (str * value)) (v : str) (data : list byte) :
  Json.loads s = Ok (PyDict pairs) ->
  dict_get pairs key = Some (PyStr v) ->
  b64decode (sub uri (fun _ => []) v) = inr data ->
  writable w output_path = false ->
  base64_json_to_image unicode_isalnum w s output_path key =
  (world_after_failure w (if has_nul output_path then UnknownError
                          else CannotWrite output_path),
   Return false).
Proof.
  intros H1 H2 H3 H4.
  unfold base64_json_to_image, try_body, bind, json_loads, getitem,
    strip_data_uri, base64_decode, write_image, emit, ret.
  fold uri. rewrite H1. cbn iota. rewrite H2. cbn iota. rewrite H3. cbn iota.
  rewrite H4. now destruct (has_nul output_path).
Qed.

End ScriptBMoreFacts.

Section DecoderFacts.

Import Base64.

(** The decoder passes over a character that is neither of the alphabet nor
    the padding. *)
Lemma a2b_loop_skip (c : N) (y : list N) :
  a2b c = None -> (c =? pad) = false ->
  forall x q l p out,
    a2b_loop (x ++ c :: y) q l p out = a2b_loop (x ++ y) q l p out.
Proof.
  intros Ha Hp. induction x as [|d x IH]; intros q l p out.
  - cbn [app a2b_loop]. now rewrite Hp, Ha.
  - cbn [app a2b_loop].
    destruct (d =? pad).
    + destruct (2 <=? q)%nat; [|apply IH].
      destruct (4 <=? q + S p)%nat; [reflexivity|apply IH].
    + destruct (a2b d) as [v|]; [|apply IH].
      destruct q as [|[|[|q]]]; apply IH.
Qed.

(** Once the padding of a quad is complete the loop stops: what follows is
    not looked at. *)
Lemma a2b_loop_two_then (x y : byte) (tail : list N) (out : list byte) :
  a2b_loop (b64encode [x; y] ++ tail) 0 0 0 out = Some (rev (y :: x :: out)).
Proof.
  pose proof (byte_bound x) as Hx. pose proof (byte_bound y) as Hy.
  destruct (sextet_bounds _ _ Hx Hy) as (B1 & B2 & _).
  destruct (sextet_bounds _ _ Hy Hy) as (_ & _ & _ & _ & _ & B3).
  cbn [b64encode app].
  rewrite a2b_loop_char by exact B1. rewrite a2b_loop_char by exact B2.
  rewrite a2b_loop_char by exact B3.
  rewrite decode_first by assumption. rewrite keep_second by assumption.
  pose proof (decode_second (Byte.to_N y) 0 Hy (eq_refl : 0 < 256)) as E.
  change (N.shiftr 0 6) with 0 in E. rewrite N.lor_0_r in E. rewrite E.
  rewrite !to_byte_to_N. cbn [a2b_loop]. rewrite N.eqb_refl. reflexivity.
Qed.

Lemma a2b_loop_one_then (x : byte) (tail : list N) (out : list byte) :
  a2b_loop (b64encode [x] ++ tail) 0 0 0 out = Some (rev (x :: out)).
Proof.
  pose proof (byte_bound x) as Hx.
  destruct (sextet_bounds _ _ Hx Hx) as (B1 & _ & _ & _ & B2 & _).
  cbn [b64encode app].
  rewrite a2b_loop_char by exact B1. rewrite a2b_loop_char by exact B2.
  pose proof (decode_first (Byte.to_N x) 0 Hx (eq_refl : 0 < 256)) as E.
  change (N.shiftr 0 4) with 0 in E. rewrite N.lor_0_r in E. rewrite E.
  rewrite !to_byte_to_N. cbn [a2b_loop]. rewrite N.eqb_refl. reflexivity.
Qed.

Lemma a2b_loop_encode_then (tail : list N) :
  forall n data out,
    (List.length data <= n)%nat ->
    (List.length data mod 3 <> 0)%nat ->
    a2b_loop (b64encode data ++ tail) 0 0 0 out = Some (rev out ++ data).
Proof.
  induction n as [|n IH]; intros data out Hn Hm.
  - destruct data; [now destruct Hm|simpl in Hn; lia].
  - destruct data as [|x [|y [|z data]]].
    + now destruct Hm.
    + rewrite a2b_loop_one_then. cbn [rev]. reflexivity.
    + rewrite a2b_loop_two_then. cbn [rev]. now rewrite <- !app_assoc.
    + change (b64encode (x :: y :: z :: data))
        with (b64encode [x; y; z] ++ b64encode data).
      rewrite <- app_assoc, a2b_loop_three.
      rewrite IH.
      * cbn [rev]. now rewrite <- !app_assoc.
      * simpl in Hn. lia.
      * intro H. apply Hm. cbn [List.length].
        replace (S (S (S (List.length data))))
          with (List.length data + 1 * 3)%nat by lia.
        now rewrite Nat.Div0.mod_add.
Qed.

End DecoderFacts.

(* ================================================================== *)
(** * More facts about the steps of Script A *)
(* ================================================================== *)

Section PropertiesMoreFacts.

Import ScriptA.

(** The calls built from the items of a list: blank items give nothing. *)
Lemma build_calls_filter (items : list str) :
  build_calls (map strip items) =
  List.concat (map add_property_call
                   (filter (fun item => truthy (strip item)) items)).
Proof.
  induction items as [|x items IH]; [reflexivity|].
  cbn [map build_calls filter]. rewrite strip_idem, IH.
  destruct (truthy (strip x)); reflexivity.
Qed.

Lemma build_calls_split (items : list str) :
  items <> [] ->
  build_calls (map strip (removelast items) ++
               (if truthy (strip (last items [])) then [strip (last items [])]
                else [])) =
  build_calls (map strip items).
Proof.
  intro Hne. rewrite <- (map_strip_split items Hne).
  rewrite !build_calls_app. f_equal.
  destruct (truthy (strip (last items []))) eqn:E; [reflexivity|].
  cbn [build_calls]. rewrite strip_idem, E. reflexivity.
Qed.

(** The loop body at a call that starts the text: the list is taken up to
    its closing bracket, and one more character goes with it, whatever it
    is. *)
Lemma rewrite_properties_bracket (items : list str) (tail : str) :
  items <> [] -> Forall top_level_item items ->
  rewrite_properties
    (py ".properties([" ++ join (py ",") items ++ ch "]" :: tail)
    (Match 0 13 []) =
  build_calls (map strip items) ++ skipn 1 tail.
Proof.
  intros Hne Hit. unfold rewrite_properties, slice_from, slice, slice_to.
  cbn [m_start m_end firstn].
  set (body := join (py ",") items).
  change (skipn (13 - 1) (py ".properties([" ++ body ++ ch "]" :: tail))
    with (ch "[" :: (body ++ ch "]" :: tail)).
  cbn [find_end_pos]. change (ch "[" =? ch "[") with true. cbn iota.
  unfold body at 1. rewrite find_end_pos_join by (assumption || lia).
  fold body. cbn [find_end_pos].
  change (ch "]" =? ch "[") with false. change (ch "]" =? ch "]") with true.
  cbn iota. change (0 + 1 - 1 =? 0)%Z with true. cbn iota.
  replace (S (13 - 1) + List.length body + 2 - 1 - (13 - 1))%nat
    with (List.length (ch "[" :: body) + 1)%nat by (simpl; lia).
  change (ch "[" :: body ++ ch "]" :: tail)
    with ((ch "[" :: body) ++ ch "]" :: tail).
  rewrite firstn_app_len. cbn [firstn].
  change ((ch "[" :: body) ++ [ch "]"]) with (py "[" ++ body ++ py "]").
  unfold body at 1. rewrite split_items_join by assumption.
  rewrite build_calls_split by assumption.
  cbn [app]. f_equal.
  change (py ".properties([" ++ body ++ ch "]" :: tail)
    with (py ".properties(" ++ ((ch "[" :: body) ++ ch "]" :: tail)).
  replace (S (13 - 1) + List.length body + 2)%nat
    with (List.length (py ".properties(") + (List.length (ch "[" :: body) + 2))%nat
    by (simpl; lia).
  rewrite skipn_app_len, skipn_app_len. reflexivity.
Qed.

(** Step 4 at the first call of a text, when no call begins in its list
    or right after its closing bracket. *)
Lemma fix_properties_bracket (pre : str) (items : list str) (tail : str) :
  items <> [] -> Forall top_level_item items ->
  contains (py ".properties([") pre = false ->
  contains (py ".properties([") (join (py ",") items) = false ->
  match tail with c :: _ => c <> ch "." | [] => True end ->
  fix_properties
    (pre ++ py ".properties([" ++ join (py ",") items ++ ch "]" :: tail) =
  pre ++ build_calls (map strip items) ++ fix_properties (skipn 1 tail).
Proof.
  intros Hne Hit Hpre Hbody Htail. unfold fix_properties, properties_pattern.
  set (L := py ".properties([").
  set (body := join (py ",") items).
  assert (Hu : unanchored (lits L)) by apply bol_free_unanchored, lits_bol_free.
  rewrite (finditer_lits_first L pre _ (ch ".") (py "properties([")); try exact Hpre;
    [|reflexivity|unfold py, ch; simpl; intuition discriminate].
  assert (Hrest : finditer (lits L) (body ++ ch "]" :: tail) =
                  map (shift_match (List.length body + List.length (firstn 1 tail) + 1))
                      (finditer (lits L) (skipn 1 tail))).
  { unfold finditer.
    rewrite finditer_lits_through;
      [|unfold L, py, ch; simpl; intuition discriminate|exact Hbody].
    cbn [finditer_from]. rewrite !Hu, !attempt_lits.
    change (startswith L (ch "]" :: tail)) with false. cbn iota.
    destruct tail as [|c post].
    - cbn [finditer_from skipn firstn List.length]. rewrite !Hu, !attempt_lits.
      reflexivity.
    - cbn [finditer_from skipn firstn List.length]. rewrite !Hu, !attempt_lits.
      replace (startswith L (c :: post)) with false.
      + rewrite <- finditer_from_shift by exact Hu. f_equal. lia.
      + symmetry. unfold L. cbn [py list_ascii_of_string map startswith].
        fold (ch "."). replace (ch "." =? c) with false; [reflexivity|].
        symmetry. apply N.eqb_neq. intros <-. now apply Htail. }
  rewrite Hrest, map_map.
  rewrite (map_ext _ (shift_match
                        (List.length (pre ++ L ++ body ++ ch "]" :: firstn 1 tail))));
    [|intro m; rewrite shift_match_add; f_equal;
      rewrite !length_app; simpl; lia].
  cbn [rev]. rewrite <- map_rev, fold_left_app.
  replace (pre ++ L ++ body ++ ch "]" :: tail)
    with ((pre ++ L ++ body ++ ch "]" :: firstn 1 tail) ++ skipn 1 tail).
  2:{ rewrite <- !app_assoc. cbn [app]. now rewrite firstn_skipn. }
  rewrite fold_rewrite_properties_shift.
  - cbn [fold_left]. rewrite <- !app_assoc.
    replace (Match (List.length pre) (List.length pre + List.length L) [])
      with (shift_match (List.length pre) (Match 0 13 []))
      by (unfold shift_match; simpl; f_equal; lia).
    rewrite rewrite_properties_shift by (simpl; lia).
    f_equal. cbn [app].
    set (F := fold_left rewrite_properties _ (skipn 1 tail)).
    pose proof (rewrite_properties_bracket items (firstn 1 tail ++ F) Hne Hit) as E.
    fold L body in E. rewrite E. f_equal.
    destruct tail as [|c post]; reflexivity.
  - apply Forall_rev. apply finditer_lits_end. discriminate.
Qed.

(** A list that is never closed. *)
Lemma find_end_pos_open :
  forall s pos bc,
    forallb (not_char "]") s = true -> find_end_pos s pos bc = None.
Proof.
  induction s as [|c s IH]; intros pos bc H; [reflexivity|].
  cbn [forallb] in H. apply andb_true_iff in H as [Hc H].
  unfold not_char in Hc. apply negb_true_iff in Hc.
  cbn [find_end_pos]. rewrite Hc.
  destruct (c =? ch "["); now apply IH.
Qed.

Lemma forallb_skipn {A} (p : A -> bool) (n : nat) (l : list A) :
  forallb p l = true -> forallb p (skipn n l) = true.
Proof.
  intro H. rewrite <- (firstn_skipn n l), forallb_app in H.
  now apply andb_true_iff in H as [_ H].
Qed.

Lemma fold_rewrite_properties_open (X u : str) :
  forallb (not_char "]") u = true ->
  forall ms,
    Forall (fun m => (List.length X < m_end m)%nat) ms ->
    fold_left rewrite_properties ms (X ++ u) = X ++ u.
Proof.
  intros Hu. induction 1 as [|m ms Hm _ IH]; [reflexivity|].
  cbn [fold_left].
  replace (rewrite_properties (X ++ u) m) with (X ++ u); [exact IH|].
  unfold rewrite_properties, slice_from.
  replace (m_end m - 1)%nat with (List.length X + (m_end m - 1 - List.length X))%nat
    by lia.
  rewrite skipn_app_len, find_end_pos_open; [reflexivity|].
  now apply forallb_skipn.
Qed.

End PropertiesMoreFacts.

(* ------------------------------------------------------------------ *)
(** ** Patterns that begin with a literal *)

Section LiteralHead.

Import ScriptA.

Variables (L : str) (c0 : char) (L' : str) (R : regex).
Hypothesis HL : L = c0 :: L'.
Hypothesis Hc0 : ~ In c0 L'.
Hypothesis HR : bol_free R = true.

Let P : regex := Cat (lits L) R.

Lemma literal_head_unanchored : unanchored P.
Proof.
  apply bol_free_unanchored. unfold P. cbn [bol_free].
  now rewrite lits_bol_free, HR.
Qed.

(** No match begins in a text that does not hold the literal, when the
    text is followed by the first character of the literal. *)
Lemma literal_head_miss (pre v : str) (i : nat) :
  contains L pre = false -> (i < List.length pre)%nat ->
  attempt P false false (skipn i pre ++ c0 :: v) = None.
Proof.
  intros Hpre Hi. apply attempt_needs_literal.
  apply no_start_before; [rewrite HL; exact Hc0|exact Hpre|exact Hi].
Qed.

(** The substitution at the first match of a text. *)
Lemma sub_literal_first (repl : list str -> str) (pre M' post : str)
      (g : list str) :
  contains L pre = false ->
  attempt P false false (c0 :: M' ++ post) = Some (S (List.length M'), g) ->
  sub P repl (pre ++ c0 :: M' ++ post) = pre ++ repl g ++ sub P repl post.
Proof.
  intros Hpre Hm. pose proof literal_head_unanchored as Hu.
  unfold sub. rewrite !(sub_from_unanchored _ _ Hu true).
  rewrite sub_from_miss.
  - f_equal.
    change (c0 :: M' ++ post) with ((c0 :: M') ++ post).
    now apply (sub_from_hit _ _ _ _ (List.length M')).
  - intros i Hi. now apply literal_head_miss.
Qed.

(** The substitution over a text in which no match begins. *)
Lemma sub_literal_keeps (repl : list str -> str) (pre K' post : str) :
  contains L pre = false ->
  (forall j, (j < S (List.length K'))%nat ->
             attempt P false false (skipn j (c0 :: K') ++ post) = None) ->
  sub P repl (pre ++ c0 :: K' ++ post) = pre ++ c0 :: K' ++ sub P repl post.
Proof.
  intros Hpre Hk. pose proof literal_head_unanchored as Hu.
  unfold sub. rewrite !(sub_from_unanchored _ _ Hu true).
  change (c0 :: K' ++ post) with ((c0 :: K') ++ post).
  rewrite app_assoc, sub_from_miss.
  - now rewrite <- app_assoc.
  - intros i Hi. rewrite length_app in Hi.
    destruct (Nat.lt_ge_cases i (List.length pre)) as [Hlt|Hge].
    + rewrite skipn_app. replace (i - List.length pre)%nat with 0%nat by lia.
      cbn [skipn]. rewrite <- app_assoc. cbn [app].
      now apply literal_head_miss.
    + rewrite skipn_app, skipn_all2 by lia. cbn [app].
      apply Hk. simpl in Hi |- *. lia.
Qed.

(** The matches of a text, from its first match on. *)
Lemma finditer_literal_first (pre M' post : str) (g : list str) :
  contains L pre = false ->
  attempt P false false (c0 :: M' ++ post) = Some (S (List.length M'), g) ->
  finditer P (pre ++ c0 :: M' ++ post) =
  Match (List.length pre) (List.length pre + S (List.length M')) g ::
  map (shift_match (List.length pre + S (List.length M'))) (finditer P post).
Proof.
  intros Hpre Hm. pose proof literal_head_unanchored as Hu.
  unfold finditer. rewrite finditer_from_miss; [|exact Hu|].
  - cbn [Nat.add]. change (c0 :: M' ++ post) with ((c0 :: M') ++ post).
    rewrite (finditer_from_hit _ Hu (c0 :: M') post (List.length M') g);
      [|exact Hm|reflexivity].
    f_equal. rewrite <- finditer_from_shift by exact Hu.
    f_equal. lia.
  - intros i Hi. now apply literal_head_miss.
Qed.

(** The matches of a text that begins with a part in which no match
    begins. *)
Lemma finditer_literal_keeps (pre K' post : str) :
  contains L pre = false ->
  (forall j, (j < S (List.length K'))%nat ->
             attempt P false false (skipn j (c0 :: K') ++ post) = None) ->
  finditer P (pre ++ c0 :: K' ++ post) =
  map (shift_match (List.length (pre ++ c0 :: K'))) (finditer P post).
Proof.
  intros Hpre Hk. pose proof literal_head_unanchored as Hu.
  unfold finditer.
  change (c0 :: K' ++ post) with ((c0 :: K') ++ post).
  rewrite app_assoc, finditer_from_miss; [|exact Hu|].
  - rewrite <- finditer_from_shift by exact Hu. f_equal. lia.
  - intros i Hi. rewrite length_app in Hi.
    destruct (Nat.lt_ge_cases i (List.length pre)) as [Hlt|Hge].
    + rewrite skipn_app. replace (i - List.length pre)%nat with 0%nat by lia.
      cbn [skipn]. rewrite <- app_assoc. cbn [app].
      now apply literal_head_miss.
    + rewrite skipn_app, skipn_all2 by lia. cbn [app].
      apply Hk. simpl in Hi |- *. lia.
Qed.

End LiteralHead.

(* ------------------------------------------------------------------ *)
(** ** Step 1 *)

Section VersionFacts.

Import ScriptA.

Lemma attempt_version (b m : bool) (s : str) :
  attempt version_pattern b m s =
  if startswith (py ".version(") s then
    let t := skipn 9 s in
    let n := run (not_char ")") t in
    if (1 <=? n)%nat then
      match skipn n t with
      | c :: _ => if c =? ch ")" then Some (9 + n + 1, [firstn n t])%nat else None
      | [] => None
      end
    else None
  else None.
Proof.
  unfold attempt, version_pattern. cbn [cat_all].
  rewrite !rmatch_cat, rmatch_lits. cbn [ms_rest ms_used ms_caps].
  destruct (startswith (py ".version(") s); [|reflexivity].
  rewrite rmatch_group_run.
  - cbn [ms_rest ms_used ms_caps app]. cbv zeta.
    change (List.length (py ".version(")) with 9%nat.
    destruct (1 <=? run (not_char ")") (skipn 9 s))%nat; [|reflexivity].
    rewrite rmatch_lit. cbn [ms_rest ms_used ms_caps].
    destruct (skipn (run (not_char ")") (skipn 9 s)) (skipn 9 s)) as [|c t];
      [reflexivity|].
    destruct (c =? ch ")"); [|reflexivity].
    replace (S (0 + 9 + run (not_char ")") (skipn 9 s)) =? 0)%nat with false
      by reflexivity.
    rewrite andb_false_r. cbn [ms_used ms_caps]. do 2 f_equal. lia.
  - intros st' H. rewrite rmatch_lit.
    destruct (ms_rest st') as [|c t]; [contradiction|].
    unfold not_char in H. apply negb_true_iff in H. now rewrite H.
Qed.

Lemma attempt_version_here (body post : str) :
  body <> [] -> forallb (not_char ")") body = true ->
  attempt version_pattern false false
          (py ".version(" ++ body ++ ch ")" :: post) =
  Some (S (List.length (py "version(" ++ body ++ [ch ")"])), [body]).
Proof.
  intros Hb Hp. rewrite attempt_version.
  rewrite startswith_app. change 9%nat with (List.length (py ".version(")).
  rewrite skipn_app_exact. cbv zeta.
  rewrite run_app by (assumption || reflexivity).
  rewrite skipn_app_exact, firstn_app_exact.
  replace (1 <=? List.length body)%nat with true
    by (symmetry; apply Nat.leb_le; destruct body; [congruence|simpl; lia]).
  change (ch ")" =? ch ")") with true. cbn iota.
  do 2 f_equal. rewrite !length_app. simpl. lia.
Qed.

End VersionFacts.

(* ------------------------------------------------------------------ *)
(** ** Step 7 *)

Section BaseShape.

Import ScriptA.

Lemma lang_lits_self (L : str) : lang (lits L) L.
Proof.
  induction L as [|c L IH]; [now split|].
  destruct L as [|d L]; [reflexivity|].
  change (lits (c :: d :: L)) with (Cat (Lit c) (lits (d :: L))).
  exists [c], (d :: L). repeat split. exact IH.
Qed.

Lemma lang_cat (r1 r2 : regex) (x1 x2 : str) :
  lang r1 x1 -> lang r2 x2 -> lang (Cat r1 r2) (x1 ++ x2).
Proof. intros H1 H2. now exists x1, x2. Qed.

(** The texts step 7 looks for. *)
Lemma base_shape_lang (w1 w2 w3 w4 : str) :
  w1 <> [] ->
  forallb is_space w1 = true -> forallb is_space w2 = true ->
  forallb is_space w3 = true -> forallb is_space w4 = true ->
  lang base_pattern
       (py "let" ++ w1 ++ py "definition" ++ w2 ++ py "=" ++ w3 ++
        py "base?" ++ w4 ++ py ";").
Proof.
  intros Hne H1 H2 H3 H4. unfold base_pattern. cbn [cat_all].
  apply lang_cat; [apply lang_lits_self|].
  apply lang_cat; [split; [exact H1|destruct w1; [congruence|simpl; lia]]|].
  apply lang_cat; [apply lang_lits_self|].
  apply lang_cat; [split; [exact H2|simpl; lia]|].
  apply (lang_cat (Lit (ch "=")) _ (py "=")); [reflexivity|].
  apply lang_cat; [split; [exact H3|simpl; lia]|].
  apply lang_cat; [apply lang_lits_self|].
  apply lang_cat; [split; [exact H4|simpl; lia]|].
  reflexivity.
Qed.

End BaseShape.

(* ------------------------------------------------------------------ *)
(** ** Step 8 *)

Section NewFacts.

Import ScriptA.

(** Optional whitespace and then a literal that is not whitespace. *)
Lemma rmatch_ws_then (b : bool) (w : str) (c : char) (tail : str)
      (k : mstate -> option mstate) (st : mstate) :
  is_space c = false -> forallb is_space w = true ->
  match tail with [] => True | d :: _ => is_space d = false end ->
  ms_rest st = w ++ tail ->
  rmatch b ws_star (rmatch b (Lit c) k) st =
  match tail with
  | d :: rest =>
      if d =? c then k (MState (S (ms_used st + List.length w)) rest (ms_caps st))
      else None
  | [] => None
  end.
Proof.
  intros Hc Hw Ht Hr. unfold ws_star. rewrite rmatch_run.
  - rewrite Hr, run_app by assumption. cbn [Nat.leb].
    rewrite skipn_app_exact, rmatch_lit. cbn [ms_rest ms_used ms_caps].
    reflexivity.
  - intros st' H. rewrite rmatch_lit.
    destruct (ms_rest st') as [|x t]; [contradiction|].
    destruct (x =? c) eqn:E; [|reflexivity].
    apply N.eqb_eq in E. subst x. congruence.
Qed.

(** A quoted text: the group takes all of it. *)
Lemma rmatch_quoted (b : bool) (a rest : str) (k : mstate -> option mstate)
      (st : mstate) :
  a <> [] -> forallb not_dquote a = true ->
  ms_rest st = a ++ dquote :: rest ->
  rmatch b (Grp (Rep true 1 not_dquote)) (rmatch b (Lit dquote) k) st =
  k (MState (S (ms_used st + List.length a)) rest (ms_caps st ++ [a])).
Proof.
  intros Ha Hq Hr. rewrite rmatch_group_run.
  - rewrite Hr, run_app by (assumption || reflexivity).
    replace (1 <=? List.length a)%nat with true
      by (symmetry; apply Nat.leb_le; destruct a; [congruence|simpl; lia]).
    rewrite skipn_app_exact, firstn_app_exact, rmatch_lit.
    cbn [ms_rest ms_used ms_caps]. now rewrite N.eqb_refl.
  - intros st' H. rewrite rmatch_lit.
    destruct (ms_rest st') as [|x t]; [contradiction|].
    unfold not_dquote in H. apply negb_true_iff in H. now rewrite H.
Qed.

(** The attempt at a call with two quoted arguments: it succeeds exactly
    when the closing parenthesis comes next. *)
Lemma attempt_new_shape (b m : bool) (w1 a w2 w3 a' w4 tail : str) :
  forallb is_space w1 = true -> forallb is_space w2 = true ->
  forallb is_space w3 = true -> forallb is_space w4 = true ->
  a <> [] -> forallb not_dquote a = true ->
  a' <> [] -> forallb not_dquote a' = true ->
  match tail with [] => True | d :: _ => is_space d = false end ->
  attempt new_pattern b m
    (py "NodeDefinition::new(" ++ w1 ++ dquote :: a ++ dquote :: w2 ++
     ch "," :: w3 ++ dquote :: a' ++ dquote :: w4 ++ tail) =
  match tail with
  | d :: _ =>
      if d =? ch ")"
      then Some (List.length
                   (py "NodeDefinition::new(" ++ w1 ++ dquote :: a ++ dquote :: w2 ++
                    ch "," :: w3 ++ dquote :: a' ++ dquote :: w4 ++ [d]),
                 [a; a'])
      else None
  | [] => None
  end.
Proof.
  intros H1 H2 H3 H4 Ha Hqa Ha' Hqa' Ht.
  unfold attempt, new_pattern. cbn [cat_all].
  rewrite !rmatch_cat, rmatch_lits. cbn [ms_rest ms_used ms_caps].
  rewrite startswith_app, skipn_app_exact.
  rewrite (rmatch_ws_then b w1 dquote (dquote :: a ++ dquote :: w2 ++
             ch "," :: w3 ++ dquote :: a' ++ dquote :: w4 ++ tail));
    [|reflexivity|exact H1|reflexivity|reflexivity].
  rewrite N.eqb_refl. cbn [ms_used ms_caps].
  rewrite (rmatch_quoted b a (w2 ++ ch "," :: w3 ++ dquote :: a' ++
             dquote :: w4 ++ tail)); [|exact Ha|exact Hqa|reflexivity].
  cbn [ms_used ms_caps app].
  rewrite (rmatch_ws_then b w2 (ch ",") (ch "," :: w3 ++ dquote :: a' ++
             dquote :: w4 ++ tail));
    [|reflexivity|exact H2|reflexivity|reflexivity].
  rewrite N.eqb_refl. cbn [ms_used ms_caps].
  rewrite (rmatch_ws_then b w3 dquote (dquote :: a' ++ dquote :: w4 ++ tail));
    [|reflexivity|exact H3|reflexivity|reflexivity].
  rewrite N.eqb_refl. cbn [ms_used ms_caps].
  rewrite (rmatch_quoted b a' (w4 ++ tail)); [|exact Ha'|exact Hqa'|reflexivity].
  cbn [ms_used ms_caps app].
  rewrite (rmatch_ws_then b w4 (ch ")") tail);
    [|reflexivity|exact H4|exact Ht|reflexivity].
  destruct tail as [|d rest]; [reflexivity|].
  destruct (d =? ch ")"); [|reflexivity].
  cbn [ms_used ms_caps Nat.eqb]. rewrite andb_false_r.
  cbn [ms_used ms_caps]. do 2 f_equal.
  repeat (rewrite length_app; simpl List.length). lia.
Qed.

(** The loop body of step 8 on a text moved to the right. *)
Lemma add_version_shift (X Y : str) (m : rmatch_obj) :
  add_version (X ++ Y) (shift_match (List.length X) m) = X ++ add_version Y m.
Proof.
  unfold add_version, shift_match, slice_to, slice_from, group.
  cbn [m_start m_end m_groups].
  rewrite firstn_app_len, skipn_app_len. now rewrite <- !app_assoc.
Qed.

Lemma fold_add_version_shift (X : str) :
  forall ms Y,
    fold_left add_version (map (shift_match (List.length X)) ms) (X ++ Y) =
    X ++ fold_left add_version ms Y.
Proof.
  induction ms as [|m ms IH]; intros Y; [reflexivity|].
  cbn [map fold_left]. rewrite add_version_shift. apply IH.
Qed.

Let NEW : str := py "NodeDefinition::new(".

Let new_tail : regex :=
  cat_all [ws_star; Lit dquote; Grp (Rep true 1 not_dquote); Lit dquote; ws_star;
           Lit (ch ","); ws_star;
           Lit dquote; Grp (Rep true 1 not_dquote); Lit dquote; ws_star;
           Lit (ch ")")].

Lemma new_head_once : ~ In (ch "N") (py "odeDefinition::new(").
Proof. unfold py, ch. simpl. intuition discriminate. Qed.

(** Step 8 at the first match of a text. *)
Lemma fix_new_first (pre M' post : str) (g : list str) :
  contains NEW pre = false ->
  attempt new_pattern false false (ch "N" :: M' ++ post) =
    Some (S (List.length M'), g) ->
  fix_new (pre ++ ch "N" :: M' ++ post) =
  pre ++ add_version (ch "N" :: M') (Match 0 (S (List.length M')) g) ++
  fix_new post.
Proof.
  intros Hpre Hm. unfold fix_new.
  change new_pattern with (Cat (lits NEW) new_tail) in *.
  rewrite (finditer_literal_first NEW (ch "N") (py "odeDefinition::new(") new_tail
             eq_refl new_head_once eq_refl pre M' post g Hpre Hm).
  cbn [rev]. rewrite <- map_rev, fold_left_app. cbn [fold_left].
  replace (List.length pre + S (List.length M'))%nat
    with (List.length (pre ++ ch "N" :: M'))
    by (rewrite length_app; reflexivity).
  replace (pre ++ ch "N" :: M' ++ post) with ((pre ++ ch "N" :: M') ++ post)
    by (now rewrite <- app_assoc).
  rewrite fold_add_version_shift.
  set (F := fold_left add_version _ post).
  rewrite <- app_assoc.
  replace (Match (List.length pre) (List.length (pre ++ ch "N" :: M')) g)
    with (shift_match (List.length pre) (Match 0 (S (List.length M')) g))
    by (unfold shift_match; cbn [m_start m_end m_groups];
        rewrite length_app; f_equal; simpl; lia).
  rewrite add_version_shift. f_equal.
  unfold add_version, slice_to, slice_from. cbn [m_start m_end firstn].
  change (S (List.length M')) with (List.length (ch "N" :: M')).
  change ((ch "N" :: M') ++ F) with ((ch "N" :: M') ++ F).
  rewrite skipn_app_exact, skipn_all, app_nil_r.
  cbn [app]. now rewrite <- !app_assoc.
Qed.

(** Step 8 over a part of the text in which no match begins. *)
Lemma fix_new_keeps (pre K' post : str) :
  contains NEW pre = false ->
  (forall j, (j < S (List.length K'))%nat ->
             attempt new_pattern false false (skipn j (ch "N" :: K') ++ post) = None) ->
  fix_new (pre ++ ch "N" :: K' ++ post) = pre ++ ch "N" :: K' ++ fix_new post.
Proof.
  intros Hpre Hk. unfold fix_new.
  change new_pattern with (Cat (lits NEW) new_tail) in *.
  rewrite (finditer_literal_keeps NEW (ch "N") (py "odeDefinition::new(") new_tail
             eq_refl new_head_once eq_refl pre K' post Hpre Hk).
  rewrite <- map_rev.
  replace (pre ++ ch "N" :: K' ++ post) with ((pre ++ ch "N" :: K') ++ post)
    by (now rewrite <- app_assoc).
  rewrite fold_add_version_shift. now rewrite <- app_assoc.
Qed.

(** Where the literal of step 8 cannot begin. *)
Lemma no_start_join (L A B' post : str) (c : char) :
  (forall j, (j < List.length A)%nat ->
             startswith L (skipn j A ++ c :: B' ++ post) = false) ->
  (forall j, (j < S (List.length B'))%nat ->
             startswith L (skipn j (c :: B') ++ post) = false) ->
  forall j, (j < List.length (A ++ c :: B'))%nat ->
            startswith L (skipn j (A ++ c :: B') ++ post) = false.
Proof.
  intros HA HB j Hj. rewrite length_app in Hj.
  destruct (Nat.lt_ge_cases j (List.length A)) as [Hlt|Hge].
  - rewrite skipn_app. replace (j - List.length A)%nat with 0%nat by lia.
    cbn [skipn]. rewrite <- app_assoc. now apply HA.
  - rewrite skipn_app, skipn_all2 by lia. cbn [app].
    apply HB. simpl in Hj |- *. lia.
Qed.

Lemma no_start_space (w rest : str) (j : nat) :
  forallb is_space w = true -> (j < List.length w)%nat ->
  startswith NEW (skipn j w ++ rest) = false.
Proof.
  intros Hw Hj.
  assert (Hs : forallb is_space (skipn j w) = true) by now apply forallb_skipn.
  destruct (skipn j w) as [|c t] eqn:E.
  - apply (f_equal (@List.length char)) in E. rewrite length_skipn in E.
    simpl in E. lia.
  - cbn [forallb] in Hs. apply andb_true_iff in Hs as [Hc _].
    unfold NEW. cbn [py list_ascii_of_string map app startswith].
    fold (ch "N"). replace (ch "N" =? c) with false; [reflexivity|].
    symmetry. apply N.eqb_neq. intros <-. discriminate.
Qed.

Lemma no_start_cons (c : char) (B' post : str) :
  c <> ch "N" ->
  (forall j, (j < List.length B')%nat ->
             startswith NEW (skipn j B' ++ post) = false) ->
  forall j, (j < S (List.length B'))%nat ->
            startswith NEW (skipn j (c :: B') ++ post) = false.
Proof.
  intros Hc HB [|j] Hj.
  - unfold NEW. cbn [skipn py list_ascii_of_string map app startswith].
    fold (ch "N"). replace (ch "N" =? c) with false; [reflexivity|].
    symmetry. apply N.eqb_neq. congruence.
  - cbn [skipn]. apply HB. lia.
Qed.

(** No call begins inside the arguments of a call with two quoted
    arguments that do not hold the literal themselves. *)
Lemma new_args_no_start (w1 a w2 w3 a' w4 tail : str) :
  forallb is_space w1 = true -> forallb is_space w2 = true ->
  forallb is_space w3 = true -> forallb is_space w4 = true ->
  contains NEW a = false -> contains NEW a' = false ->
  forall j,
    (j < List.length (w1 ++ dquote :: a ++ dquote :: w2 ++ ch "," :: w3 ++
                      dquote :: a' ++ dquote :: w4))%nat ->
    startswith NEW
      (skipn j (w1 ++ dquote :: a ++ dquote :: w2 ++ ch "," :: w3 ++
                dquote :: a' ++ dquote :: w4) ++ tail) = false.
Proof.
  intros H1 H2 H3 H4 Ha Ha'.
  assert (Hq : ~ In dquote (tl NEW))
    by (unfold NEW, py, ch, dquote; simpl; intuition discriminate).
  apply no_start_join; [intros j Hj; now apply no_start_space|].
  apply no_start_cons; [discriminate|].
  apply no_start_join; [intros j Hj; now apply no_start_before|].
  apply no_start_cons; [discriminate|].
  apply no_start_join; [intros j Hj; now apply no_start_space|].
  apply no_start_cons; [discriminate|].
  apply no_start_join; [intros j Hj; now apply no_start_space|].
  apply no_start_cons; [discriminate|].
  apply no_start_join; [intros j Hj; now apply no_start_before|].
  apply no_start_cons; [discriminate|].
  intros j Hj. now apply no_start_space.
Qed.

End NewFacts.
(* ================================================================== *)
(** * Script A: the run over the source tree *)
(* ================================================================== *)

Section MainProperties.

Import ScriptA ScriptAMain.

Lemma main_unfold (walk : walk_result) (w : world) :
  main walk w =
  print (fst (fix_all (rust_files walk)
                      (print w (Found (List.length (rust_files walk)))) 0))
        (TotalFixed (snd (fix_all (rust_files walk)
                           (print w (Found (List.length (rust_files walk)))) 0))).
Proof.
  unfold main. now destruct (fix_all _ _ _).
Qed.

(** X1.  When no two of the Rust paths that the walk lists name one file:
    after [main], a listed path that can be opened for reading and for
    writing gives the transformation of the text it gave before; a listed
    path that cannot be opened for writing gives the text it gave before;
    a listed path that cannot be read still cannot. *)
Theorem main_rewrites_each_file (walk : walk_result) (w : world) (p : string) :
  NoDup (map (inode (fs w)) (rust_files walk)) ->
  In p (rust_files walk) ->
  files (fs (main walk w)) p =
  if writable (fs w) p then option_map transform (files (fs w) p)
  else files (fs w) p.
Proof.
  intros Hnd Hin. rewrite main_unfold. cbn [print fs].
  set (w0 := print w (Found (List.length (rust_files walk)))).
  destruct (fix_all_names (rust_files walk) w0 0) as (Hi & Hr & _).
  destruct (fix_all_spec (rust_files walk) w0 0 Hnd) as (Hf & _ & _).
  unfold files. rewrite Hi, Hr, Hf. cbn [print fs w0].
  destruct (readable (fs w) p) eqn:Er;
    [|now destruct (writable (fs w) p)].
  assert (Hex : existsb (fun q => (inode (fs w) q =? inode (fs w) p)%nat &&
                                  rewritten (fs w) q) (rust_files walk) =
                rewritten (fs w) p).
  { destruct (rewritten (fs w) p) eqn:Ep.
    - apply existsb_exists. exists p. split; [exact Hin|].
      now rewrite Nat.eqb_refl, Ep.
    - apply not_true_is_false. intro Hex.
      apply existsb_exists in Hex as (q & Hq & E).
      apply andb_true_iff in E as [E1 E2]. apply Nat.eqb_eq in E1.
      assert (q = p); [|congruence].
      clear - Hnd Hq Hin E1. induction (rust_files walk) as [|a l IH];
        [destruct Hin|].
      cbn [map] in Hnd. inversion Hnd as [|? ? Ha Hl]; subst.
      destruct Hq as [->|Hq], Hin as [->|Hin]; try reflexivity.
      + exfalso. apply Ha. rewrite E1. now apply in_map.
      + exfalso. apply Ha. rewrite <- E1. now apply in_map.
      + now apply IH. }
  rewrite Hex. unfold rewritten, changed, files. rewrite Er.
  destruct (writable (fs w) p); cbn [option_map].
  - destruct (str_eqb (transform (text (fs w) (inode (fs w) p)))
                      (text (fs w) (inode (fs w) p))) eqn:E;
      cbn [negb andb]; [|reflexivity].
    apply str_eqb_eq in E. now rewrite E.
  - now rewrite andb_false_r.
Qed.

Lemma main_rewrites_each_file_witness :
  files (fs (main [("src"%string, ["nodes"%string],
                    ["lib.rs"%string; "notes.md"%string]);
                   ("src/nodes"%string, [], ["a.rs"%string])]
                  (World (FS (fun p => if String.eqb p "src/lib.rs" then 0%nat
                                       else 1%nat)
                             (fun i => match i with
                                       | O => py "a.version(1).b"
                                       | _ => py "c.version(2)"
                                       end)
                             (fun _ => true)
                             (fun p => String.eqb p "src/lib.rs")) [])))
        "src/lib.rs" = Some (py "a.b").
Proof.
  apply (main_rewrites_each_file
           [("src"%string, ["nodes"%string], ["lib.rs"%string; "notes.md"%string]);
            ("src/nodes"%string, [], ["a.rs"%string])]
           (World (FS (fun p => if String.eqb p "src/lib.rs" then 0%nat
                                else 1%nat)
                      (fun i => match i with
                                | O => py "a.version(1).b"
                                | _ => py "c.version(2)"
                                end)
                      (fun _ => true)
                      (fun p => String.eqb p "src/lib.rs")) [])
           "src/lib.rs").
  - repeat constructor; simpl; intuition discriminate.
  - simpl. now left.
Defined.

(** X2.  When no two of the Rust paths that the walk lists name one file,
    what [main] prints and does is the count of the Rust files, then for
    each of them, in the order of the walk, what one call does on the text
    the file held at the start, then the number of files that were
    written: those whose text the transformation changes and that can be
    opened for writing.  A file that cannot be read adds only its
    announcement and the error line, a file that is to be written and
    cannot be adds its announcement, the read and the error line; neither
    is counted nor stops the run. *)
Theorem main_report (walk : walk_result) (w : world) :
  NoDup (map (inode (fs w)) (rust_files walk)) ->
  trace (main walk w) =
  trace w ++
  Printed (Found (List.length (rust_files walk))) ::
  flat_map (file_events (fs w)) (rust_files walk) ++
  [Printed (TotalFixed (List.length (filter (rewritten (fs w)) (rust_files walk))))].
Proof.
  intro Hnd. rewrite main_unfold. cbn [print trace].
  destruct (fix_all_spec (rust_files walk)
              (print w (Found (List.length (rust_files walk)))) 0 Hnd)
    as (_ & Ht & Hn).
  rewrite Ht, Hn. cbn [print fs trace Nat.add].
  now rewrite <- !app_assoc.
Qed.

Lemma main_report_witness :
  trace (main [("src"%string, ["nodes"%string], ["lib.rs"%string; "notes.md"%string]);
               ("src/nodes"%string, [],
                ["a.rs"%string; "b.rs"%string; "c.rs"%string])]
              (World (FS (fun p => if String.eqb p "src/lib.rs" then 0%nat
                                   else if String.eqb p "src/nodes/a.rs" then 1%nat
                                   else if String.eqb p "src/nodes/b.rs" then 2%nat
                                   else 3%nat)
                         (fun i => match i with
                                   | O => py "a.version(1).b"
                                   | 2%nat => py "fn f() {}"
                                   | _ => py "c.version(2)"
                                   end)
                         (fun p => negb (String.eqb p "src/nodes/a.rs"))
                         (fun p => negb (String.eqb p "src/nodes/c.rs"))) [])) =
  [Printed (Found 4);
   InFile (ScriptA.Printed (Fixing "src/lib.rs"));
   InFile (ReadFile "src/lib.rs");
   InFile (WriteFile "src/lib.rs" (py "a.b"));
   InFile (ScriptA.Printed (Fixed "src/lib.rs"));
   InFile (ScriptA.Printed (Fixing "src/nodes/a.rs"));
   Printed (FixFailed "src/nodes/a.rs");
   InFile (ScriptA.Printed (Fixing "src/nodes/b.rs"));
   InFile (ReadFile "src/nodes/b.rs");
   InFile (ScriptA.Printed (NoFixNeeded "src/nodes/b.rs"));
   InFile (ScriptA.Printed (Fixing "src/nodes/c.rs"));
   InFile (ReadFile "src/nodes/c.rs");
   Printed (FixFailed "src/nodes/c.rs");
   Printed (TotalFixed 1)].
Proof.
  apply (main_report
           [("src"%string, ["nodes"%string], ["lib.rs"%string; "notes.md"%string]);
            ("src/nodes"%string, [],
             ["a.rs"%string; "b.rs"%string; "c.rs"%string])]
           (World (FS (fun p => if String.eqb p "src/lib.rs" then 0%nat
                                else if String.eqb p "src/nodes/a.rs" then 1%nat
                                else if String.eqb p "src/nodes/b.rs" then 2%nat
                                else 3%nat)
                      (fun i => match i with
                                | O => py "a.version(1).b"
                                | 2%nat => py "fn f() {}"
                                | _ => py "c.version(2)"
                                end)
                      (fun p => negb (String.eqb p "src/nodes/a.rs"))
                      (fun p => negb (String.eqb p "src/nodes/c.rs"))) [])).
  repeat constructor; simpl; intuition discriminate.
Defined.

(** X3.  [main] opens Rust paths only: every path that the run reads or
    writes ends in [.rs].  No path comes to name another file or changes
    in what can be done with it, and a file that none of the listed Rust
    paths names is left as it was; so a path that names no such file
    gives after the run what it gave before. *)
Theorem main_touches_rust_files_only (walk : walk_result) (w : world) :
  (inode (fs (main walk w)) = inode (fs w) /\
   readable (fs (main walk w)) = readable (fs w) /\
   writable (fs (main walk w)) = writable (fs w)) /\
  (forall i, (forall p, In p (rust_files walk) -> inode (fs w) p <> i) ->
             text (fs (main walk w)) i = text (fs w) i) /\
  (forall p', (forall p, In p (rust_files walk) ->
                         inode (fs w) p <> inode (fs w) p') ->
              files (fs (main walk w)) p' = files (fs w) p') /\
  exists t,
    trace (main walk w) = trace w ++ t /\
    forall p, (In (InFile (ReadFile p)) t \/
               exists c, In (InFile (WriteFile p c)) t) ->
              endswith p ".rs" = true.
Proof.
  rewrite main_unfold.
  set (w0 := print w (Found (List.length (rust_files walk)))).
  destruct (fix_all_names (rust_files walk) w0 0) as (Hi & Hr & Hw).
  destruct (fix_all_frame (rust_files walk) w0 0) as (Hf & t & Ht & Hin).
  cbn [print fs].
  split; [now repeat split|].
  split; [|split].
  - intros i Hno. now apply Hf.
  - intros p' Hno. unfold files. rewrite Hi, Hr. cbn [fs w0 print].
    rewrite (Hf (inode (fs w) p')); [reflexivity|exact Hno].
  - exists (Printed (Found (List.length (rust_files walk))) :: t ++
            [Printed (TotalFixed (snd (fix_all (rust_files walk) w0 0)))]).
    split.
    + cbn [print trace]. rewrite Ht. cbn [print trace w0].
      now rewrite <- !app_assoc.
    + intros p H. apply (rust_files_suffix walk), Hin.
      destruct H as [H|[c H]].
      * left. destruct H as [H|H]; [discriminate|].
        apply in_app_or in H as [H|[H|[]]]; [exact H|discriminate].
      * right. exists c. destruct H as [H|H]; [discriminate|].
        apply in_app_or in H as [H|[H|[]]]; [exact H|discriminate].
Qed.

End MainProperties.

(* ================================================================== *)
(** * Script B: the write, the other errors and the decoder *)
(* ================================================================== *)

Section ScriptBProperties.

Import Json Base64 ScriptB.



(** X5.  Three failures fall to the last handler and are reported as an
    unknown error, not as a missing key or as invalid Base64: a JSON
    document that is not an object, a value under the key that is not a
    string, and a string that, once the prefix is removed, holds a
    character outside ASCII.  In each case [False] is returned and nothing
    is written. *)
Theorem other_errors_reported_as_unknown (unicode_isalnum : char -> bool)
        (w : world) (s : str) (output_path : string) (data_key : str) :
  (forall data,
      Json.loads s = Ok data -> (forall pairs, data <> PyDict pairs) ->
      base64_json_to_image unicode_isalnum w s output_path data_key =
      (world_after_failure w UnknownError, Return false)) /\
  (forall pairs v,
      Json.loads s = Ok (PyDict pairs) -> dict_get pairs data_key = Some v ->
      (forall t, v <> PyStr t) ->
      base64_json_to_image unicode_isalnum w s output_path data_key =
      (world_after_failure w UnknownError, Return false)) /\
  (forall pairs v,
      Json.loads s = Ok (PyDict pairs) ->
      dict_get pairs data_key = Some (PyStr v) ->
      forallb (fun c => c <? 128)
              (sub (data_uri_pattern unicode_isalnum) (fun _ => []) v) = false ->
      base64_json_to_image unicode_isalnum w s output_path data_key =
      (world_after_failure w UnknownError, Return false)).
Proof.
  split; [|split].
  - intros data H1 Hd.
    apply (call_fails unicode_isalnum w w s output_path data_key OtherException).
    unfold decoding, bind, json_loads, getitem, raise, ret. rewrite H1.
    destruct data as [| | | | |pairs]; try reflexivity.
    now destruct (Hd pairs).
  - intros pairs v H1 H2 Hv.
    apply (call_fails unicode_isalnum w w s output_path data_key OtherException).
    unfold decoding, bind, json_loads, getitem, strip_data_uri, raise, ret.
    rewrite H1. cbn iota. rewrite H2.
    destruct v as [| | |t| |]; try reflexivity.
    now destruct (Hv t).
  - intros pairs v H1 H2 Hv.
    apply (call_fails unicode_isalnum w w s output_path data_key OtherException).
    unfold decoding, bind, json_loads, getitem, strip_data_uri, base64_decode,
      b64decode, raise, ret.
    rewrite H1. cbn iota. rewrite H2. cbn iota. now rewrite Hv.
Qed.

Lemma other_errors_reported_as_unknown_witness :
  base64_json_to_image (fun _ => false) (World (fun _ => None) (fun _ => true) [])
    (py "[1]") "out.png" default_data_key =
    (world_after_failure (World (fun _ => None) (fun _ => true) []) UnknownError,
     Return false) /\
  base64_json_to_image (fun _ => false) (World (fun _ => None) (fun _ => true) [])
    (py "{" ++ [dquote] ++ py "b64_json" ++ [dquote] ++ py ": 5}")
    "out.png" default_data_key =
    (world_after_failure (World (fun _ => None) (fun _ => true) []) UnknownError,
     Return false) /\
  base64_json_to_image (fun _ => false) (World (fun _ => None) (fun _ => true) [])
    (wrap_b64_json [233; 65; 65; 65]) "out.png" default_data_key =
    (world_after_failure (World (fun _ => None) (fun _ => true) []) UnknownError,
     Return false).
Proof.
  split; [|split].
  - exact (proj1 (other_errors_reported_as_unknown (fun _ => false) _ (py "[1]")
                    "out.png" default_data_key)
             (PyList [PyNum (py "1")]) eq_refl
             ltac:(intros pairs H; discriminate H)).
  - exact (proj1 (proj2 (other_errors_reported_as_unknown (fun _ => false) _
                           (py "{" ++ [dquote] ++ py "b64_json" ++ [dquote] ++
                            py ": 5}") "out.png" default_data_key))
             [(py "b64_json", PyNum (py "5"))] (PyNum (py "5")) eq_refl eq_refl
             ltac:(intros t H; discriminate H)).
  - exact (proj2 (proj2 (other_errors_reported_as_unknown (fun _ => false) _
                           (wrap_b64_json [233; 65; 65; 65]) "out.png"
                           default_data_key))
             [(py "b64_json", PyStr [233; 65; 65; 65])] [233; 65; 65; 65]
             eq_refl eq_refl eq_refl).
Defined.

(** X6.  Whatever its arguments, a call ends in one of three ways and
    changes at most the file at the output path: it returns [True] after
    writing some bytes to the output path and printing the success line;
    or it returns [False] after printing one error line, with every file
    as it was; or, when the requested key holds a surrogate code point,
    the [print] of the error line raises [UnicodeEncodeError], with every
    file as it was and nothing printed. *)
Theorem call_outcomes (unicode_isalnum : char -> bool) (w : world)
        (s : str) (output_path : string) (data_key : str) :
  (exists data,
      writable w output_path = true /\
      base64_json_to_image unicode_isalnum w s output_path data_key =
      (world_after_write w output_path data, Return true)) \/
  (exists m,
      m <> Saved output_path /\
      base64_json_to_image unicode_isalnum w s output_path data_key =
      (world_after_failure w m, Return false)) \/
  (encodable data_key = false /\
   base64_json_to_image unicode_isalnum w s output_path data_key =
   (w, RaiseUnicodeEncodeError)).
Proof.
  destruct (decoding_cases unicode_isalnum w s data_key)
    as [(e & He)|(pairs & v & data & H1 & H2 & H3 & _)].
  - rewrite (call_fails unicode_isalnum w w s output_path data_key e He).
    destruct (can_print (diagnostic e output_path data_key)) eqn:Ep.
    + right. left. exists (diagnostic e output_path data_key). split.
      * destruct e; discriminate.
      * reflexivity.
    + right. right. split; [|reflexivity].
      destruct e; try discriminate Ep. exact Ep.
  - destruct (writable w output_path) eqn:Ew.
    + left. exists data. split; [reflexivity|].
      now apply (call_succeeds unicode_isalnum w s output_path data_key pairs v).
    + right. left.
      exists (if has_nul output_path then UnknownError else CannotWrite output_path).
      split; [now destruct (has_nul output_path)|].
      now apply (call_blocked unicode_isalnum w s output_path data_key pairs v data).
Qed.

(** X7.  The decoding step passes over every ASCII character that is
    neither of the Base64 alphabet nor [=]: with such a character (a line
    break, a blank) put anywhere into the text, the step gives the same
    bytes or raises the same error as without it. *)
Theorem junk_characters_skipped (x y : str) (c : char) (w : world) :
  c < 128 -> is_b64_char c = false -> c <> pad ->
  base64_decode (x ++ c :: y) w = base64_decode (x ++ y) w.
Proof.
  intros Hc Ha Hp. unfold base64_decode, b64decode, a2b_base64.
  assert (Hall : forallb (fun c => c <? 128) (x ++ c :: y) =
                 forallb (fun c => c <? 128) (x ++ y)).
  { rewrite !forallb_app. cbn [forallb].
    apply N.ltb_lt in Hc. now rewrite Hc. }
  rewrite Hall. destruct (forallb (fun c0 => c0 <? 128) (x ++ y)); [|reflexivity].
  rewrite a2b_loop_skip; [reflexivity| |now apply N.eqb_neq].
  unfold is_b64_char in Ha. now destruct (a2b c).
Qed.

Lemma junk_characters_skipped_witness :
  base64_decode (py "AQ" ++ 10 :: py "ID") (World (fun _ => None) (fun _ => true) []) =
  base64_decode (py "AQ" ++ py "ID") (World (fun _ => None) (fun _ => true) []).
Proof.
  apply (junk_characters_skipped (py "AQ") (py "ID") 10
           (World (fun _ => None) (fun _ => true) [])).
  - reflexivity.
  - reflexivity.
  - discriminate.
Defined.

End ScriptBProperties.

Section ScriptBMoreProperties.

Import Json Base64 ScriptB.

(** X16.  The decoding step stops at the end of a padded group: text that
    follows the encoding of a byte string whose length is not a multiple
    of three (an encoding that ends in [=]) is not looked at, and the
    step gives the bytes of that string alone. *)
Theorem text_after_padding_ignored (data : list byte) (tail : str) (w : world) :
  (List.length data mod 3 <> 0)%nat ->
  forallb (fun c => c <? 128) tail = true ->
  base64_decode (b64encode data ++ tail) w = (w, inr data).
Proof.
  intros Hm Ht. unfold base64_decode, b64decode, a2b_base64, ret.
  replace (forallb (fun c => c <? 128) (b64encode data ++ tail)) with true.
  - now rewrite (a2b_loop_encode_then tail (List.length data) data []).
  - symmetry. rewrite forallb_app. apply andb_true_iff. split; [|exact Ht].
    apply forallb_forall. intros c Hc.
    pose proof (b64encode_text _ data (le_n _)) as H.
    rewrite forallb_forall in H. now apply b64_text_char_props, H.
Qed.

Lemma text_after_padding_ignored_witness :
  base64_decode (b64encode [x01; x02] ++ py "AAAA")
                (World (fun _ => None) (fun _ => true) []) =
  (World (fun _ => None) (fun _ => true) [], inr [x01; x02]).
Proof.
  apply (text_after_padding_ignored [x01; x02] (py "AAAA")
           (World (fun _ => None) (fun _ => true) [])).
  - discriminate.
  - reflexivity.
Defined.

End ScriptBMoreProperties.

(* ================================================================== *)
(** * Script B: the example run *)
(* ================================================================== *)

Section ExampleRun.

Import ScriptB ScriptBMain.

(** X17.  The example run, once the JSON file beside the script has been
    read: either the image is written to [saved_image.png] (the only file
    changed), the call prints its success line and the block prints that
    the operation completed; or no file is changed, the call prints one
    error line and the block prints that the operation failed. *)
Theorem example_run_outcome (unicode_isalnum : char -> bool) (text : str)
        (w : ScriptBMain.world) :
  (exists data,
      ScriptBMain.writable w output_filename = true /\
      script_main unicode_isalnum (Some text) w =
      (ScriptBMain.World
         (fun p => if String.eqb p output_filename then Some data
                   else ScriptBMain.files w p)
         (ScriptBMain.writable w)
         (ScriptBMain.trace w ++
          [InCall (OpenWb output_filename);
           InCall (WriteBytes output_filename data);
           InCall (ScriptB.Printed (Saved output_filename));
           ScriptBMain.Printed Done]),
       Finished)) \/
  (exists m,
      m <> Saved output_filename /\
      script_main unicode_isalnum (Some text) w =
      (ScriptBMain.World
         (ScriptBMain.files w) (ScriptBMain.writable w)
         (ScriptBMain.trace w ++
          [InCall (ScriptB.Printed m); ScriptBMain.Printed Failed]),
       Finished)).
Proof.
  unfold script_main.
  set (W := ScriptB.World (ScriptBMain.files w) (ScriptBMain.writable w) []).
  destruct (decoding_cases unicode_isalnum W text (py "b64_json"))
    as [(e & He)|(pairs & v & data & H1 & H2 & H3 & _)].
  - right. exists (diagnostic e output_filename (py "b64_json")). split.
    + destruct e; discriminate.
    + rewrite (call_fails unicode_isalnum W W _ _ _ e He).
      replace (can_print (diagnostic e output_filename (py "b64_json")))
        with true by (now destruct e).
      reflexivity.
  - destruct (ScriptBMain.writable w output_filename) eqn:Ew.
    + left. exists data. split; [reflexivity|].
      rewrite (call_succeeds unicode_isalnum W text output_filename _ pairs v data
                 H1 H2 H3 Ew).
      reflexivity.
    + right. exists (CannotWrite output_filename). split; [discriminate|].
      rewrite (call_blocked unicode_isalnum W text output_filename _ pairs v data
                 H1 H2 H3 Ew).
      reflexivity.
Qed.

End ExampleRun.

(* ================================================================== *)
(** * Script A: the steps on the calls they look for *)
(* ================================================================== *)

Section StepProperties.

Import ScriptA.

(** X8.  Step 1 removes the first [.version(...)] call of a text from
    [.version(] up to the first closing parenthesis after it, and goes on
    with the text after that parenthesis.  The argument is whatever stands
    before that parenthesis: from a call whose argument itself holds a
    call, the inner closing parenthesis is the one removed and the outer
    one stays. *)
Theorem version_call_removed (pre body post : str) :
  body <> [] ->
  forallb (not_char ")") body = true ->
  contains (py ".version(") pre = false ->
  fix_version (pre ++ py ".version(" ++ body ++ py ")" ++ post) =
  pre ++ fix_version post.
Proof.
  intros Hb Hp Hpre. unfold fix_version.
  change version_pattern
    with (Cat (lits (py ".version("))
              (Cat (Grp (Rep true 1 (not_char ")"))) (Lit (ch ")")))).
  change (py ".version(" ++ body ++ py ")" ++ post)
    with (ch "." :: (py "version(" ++ body ++ [ch ")"] ++ post)).
  replace (py "version(" ++ body ++ [ch ")"] ++ post)
    with ((py "version(" ++ body ++ [ch ")"]) ++ post)
    by (now rewrite <- !app_assoc).
  rewrite (sub_literal_first (py ".version(") (ch ".") (py "version(") _
             eq_refl) with (g := [body]).
  - reflexivity.
  - unfold py, ch. simpl. intuition discriminate.
  - reflexivity.
  - exact Hpre.
  - rewrite <- !app_assoc. now apply attempt_version_here.
Qed.

Lemma version_call_removed_witness :
  fix_version (py "x.version(Version::new(1, 0, 0));") = py "x);".
Proof.
  exact (version_call_removed (py "x") (py "Version::new(1, 0, 0") (py ");")
           ltac:(discriminate) eq_refl eq_refl).
Defined.

(** X9.  Steps 1, 2 and 3 leave a call without argument as it is:
    [.version()], [.inputs([])] and [.outputs([])] are not removed and not
    rewritten. *)
Theorem empty_calls_kept (pre post : str) :
  (contains (py ".version(") pre = false ->
   fix_version (pre ++ py ".version()" ++ post) =
   pre ++ py ".version()" ++ fix_version post) /\
  (contains (py ".inputs([") pre = false ->
   fix_inputs (pre ++ py ".inputs([])" ++ post) =
   pre ++ py ".inputs([])" ++ fix_inputs post) /\
  (contains (py ".outputs([") pre = false ->
   fix_outputs (pre ++ py ".outputs([])" ++ post) =
   pre ++ py ".outputs([])" ++ fix_outputs post).
Proof.
  split; [|split]; intro Hpre.
  - unfold fix_version.
    change version_pattern
      with (Cat (lits (py ".version("))
                (Cat (Grp (Rep true 1 (not_char ")"))) (Lit (ch ")")))).
    apply (sub_literal_keeps (py ".version(") (ch ".") (py "version(")
             (Cat (Grp (Rep true 1 (not_char ")"))) (Lit (ch ")"))) eq_refl
             ltac:(unfold py, ch; simpl; intuition discriminate) eq_refl
             _ pre (py "version()") post Hpre).
    intros j Hj.
    destruct j as [|j]; [rewrite attempt_version; reflexivity|].
    apply attempt_needs_literal.
    do 9 (destruct j as [|j]; [reflexivity|]). simpl in Hj. lia.
  - unfold fix_inputs.
    change inputs_pattern
      with (Cat (lits (py ".inputs(["))
                (Cat (Grp (Rep true 1 (not_char "]"))) (lits (py "])")))).
    apply (sub_literal_keeps (py ".inputs([") (ch ".") (py "inputs([")
             (Cat (Grp (Rep true 1 (not_char "]"))) (lits (py "])"))) eq_refl
             ltac:(unfold py, ch; simpl; intuition discriminate) eq_refl
             _ pre (py "inputs([])") post Hpre).
    intros j Hj.
    destruct j as [|j].
    { change (Cat (lits (py ".inputs(["))
                  (Cat (Grp (Rep true 1 (not_char "]"))) (lits (py "])"))))
        with (list_call_pattern (py ".inputs([")).
      rewrite attempt_list_call by discriminate. reflexivity. }
    apply attempt_needs_literal.
    do 10 (destruct j as [|j]; [reflexivity|]). simpl in Hj. lia.
  - unfold fix_outputs.
    change outputs_pattern
      with (Cat (lits (py ".outputs(["))
                (Cat (Grp (Rep true 1 (not_char "]"))) (lits (py "])")))).
    apply (sub_literal_keeps (py ".outputs([") (ch ".") (py "outputs([")
             (Cat (Grp (Rep true 1 (not_char "]"))) (lits (py "])"))) eq_refl
             ltac:(unfold py, ch; simpl; intuition discriminate) eq_refl
             _ pre (py "outputs([])") post Hpre).
    intros j Hj.
    destruct j as [|j].
    { change (Cat (lits (py ".outputs(["))
                  (Cat (Grp (Rep true 1 (not_char "]"))) (lits (py "])"))))
        with (list_call_pattern (py ".outputs([")).
      rewrite attempt_list_call by discriminate. reflexivity. }
    apply attempt_needs_literal.
    do 11 (destruct j as [|j]; [reflexivity|]). simpl in Hj. lia.
Qed.

Lemma empty_calls_kept_witness :
  fix_version (py "a.version().version(1)") = py "a.version()" /\
  fix_inputs (py "a.inputs([]).inputs([x])") = py "a.inputs([]).add_input(x)" /\
  fix_outputs (py "a.outputs([]).outputs([x])") = py "a.outputs([]).add_output(x)".
Proof.
  split; [|split].
  - exact (proj1 (empty_calls_kept (py "a") (py ".version(1)")) eq_refl).
  - exact (proj1 (proj2 (empty_calls_kept (py "a") (py ".inputs([x])"))) eq_refl).
  - exact (proj2 (proj2 (empty_calls_kept (py "a") (py ".outputs([x])"))) eq_refl).
Defined.

(** X10.  Step 4 at the first [.properties([...])] call of a text, for any
    list of top-level items: the call is replaced by one
    [.add_property(item)] per item that is not blank, so that a blank item
    (after a trailing comma, or in an empty list) produces nothing; and the
    character that follows the closing bracket is removed together with
    the call whatever it is, the closing parenthesis not being looked at.
    (That character is not the dot of a further call.) *)
Theorem properties_list_rewritten (pre : str) (items : list str) (tail : str) :
  items <> [] ->
  Forall top_level_item items ->
  contains (py ".properties([") pre = false ->
  contains (py ".properties([") (join (py ",") items) = false ->
  match tail with c :: _ => c <> ch "." | [] => True end ->
  fix_properties
    (pre ++ py ".properties([" ++ join (py ",") items ++ py "]" ++ tail) =
  pre ++
  List.concat (map add_property_call
                   (filter (fun item => truthy (strip item)) items)) ++
  fix_properties (skipn 1 tail).
Proof.
  intros Hne Hit Hpre Hbody Htail.
  rewrite <- build_calls_filter.
  now apply fix_properties_bracket.
Qed.

Lemma properties_list_rewritten_witness :
  fix_properties (py "x.properties([ a(1, 2), ,b ,];y") =
  py "x.add_property(a(1, 2)).add_property(b)y".
Proof.
  exact (properties_list_rewritten (py "x") [py " a(1, 2)"; py " "; py "b "; []]
           (py ";y") ltac:(discriminate)
           ltac:(repeat constructor) eq_refl eq_refl ltac:(discriminate)).
Defined.

(** X11.  Step 4 leaves a [.properties([] whose list is never closed as it
    is: when no closing bracket follows the first call of a text, the text
    is unchanged. *)
Theorem unclosed_list_kept (pre u : str) :
  contains (py ".properties([") pre = false ->
  forallb (not_char "]") u = true ->
  fix_properties (pre ++ py ".properties([" ++ u) =
  pre ++ py ".properties([" ++ u.
Proof.
  intros Hpre Hu. unfold fix_properties, properties_pattern.
  rewrite (finditer_lits_first (py ".properties([") pre u (ch ".")
             (py "properties(["));
    [|reflexivity|unfold py, ch; simpl; intuition discriminate|exact Hpre].
  change (pre ++ py ".properties([" ++ u)
    with (pre ++ py ".properties(" ++ (ch "[" :: u)).
  rewrite app_assoc. apply fold_rewrite_properties_open.
  - cbn [forallb]. now rewrite Hu.
  - apply Forall_rev. constructor.
    + cbn [m_end]. rewrite length_app. simpl. lia.
    + apply Forall_forall. intros m Hm. apply in_map_iff in Hm as (m' & <- & _).
      unfold shift_match. cbn [m_end]. rewrite length_app. simpl. lia.
Qed.

Lemma unclosed_list_kept_witness :
  fix_properties (py "x.properties([a, [b, c") = py "x.properties([a, [b, c".
Proof.
  exact (unclosed_list_kept (py "x") (py "a, [b, c") eq_refl eq_refl).
Defined.

(** X12.  Step 7 rewrites the first [let definition = base?;] of a text,
    however its words are spaced (whitespace, line breaks included, after
    [let]; optional whitespace around [=] and before [;]), into
    [let definition = base;] with single blanks. *)
Theorem base_question_mark_removed (pre w1 w2 w3 w4 post : str) :
  w1 <> [] ->
  forallb is_space w1 = true -> forallb is_space w2 = true ->
  forallb is_space w3 = true -> forallb is_space w4 = true ->
  contains (py "let") pre = false ->
  fix_base (pre ++ py "let" ++ w1 ++ py "definition" ++ w2 ++ py "=" ++ w3 ++
            py "base?" ++ w4 ++ py ";" ++ post) =
  pre ++ py "let definition = base;" ++ fix_base post.
Proof.
  intros Hne H1 H2 H3 H4 Hpre. unfold fix_base.
  pose proof (base_shape_lang w1 w2 w3 w4 Hne H1 H2 H3 H4) as Hl.
  pose proof (base_complete false false _ post Hl) as Hm.
  revert Hm.
  change base_pattern
    with (Cat (lits (py "let"))
              (cat_all [ws_plus; lits (py "definition"); ws_star;
                        Lit (ch "="); ws_star; lits (py "base?"); ws_star;
                        Lit (ch ";")])).
  set (M' := py "et" ++ w1 ++ py "definition" ++ w2 ++ py "=" ++ w3 ++
             py "base?" ++ w4 ++ py ";").
  change (py "let" ++ w1 ++ py "definition" ++ w2 ++ py "=" ++ w3 ++
          py "base?" ++ w4 ++ py ";") with (ch "l" :: M').
  intro Hm.
  replace (pre ++ py "let" ++ w1 ++ py "definition" ++ w2 ++ py "=" ++ w3 ++
           py "base?" ++ w4 ++ py ";" ++ post)
    with (pre ++ ch "l" :: M' ++ post).
  - apply (sub_literal_first (py "let") (ch "l") (py "et")
             (cat_all [ws_plus; lits (py "definition"); ws_star;
                       Lit (ch "="); ws_star; lits (py "base?"); ws_star;
                       Lit (ch ";")]) eq_refl
             ltac:(unfold py, ch; simpl; intuition discriminate) eq_refl
             (fun _ => py "let definition = base;") pre M' post [] Hpre).
    exact Hm.
  - unfold M'. cbn [app]. now rewrite <- !app_assoc.
Qed.

Lemma base_question_mark_removed_witness :
  fix_base (py "f(); let  definition=base? ; g()") =
  py "f(); let definition = base; g()".
Proof.
  exact (base_question_mark_removed (py "f(); ") (py "  ") [] [] (py " ")
           (py " g()") ltac:(discriminate) eq_refl eq_refl eq_refl eq_refl
           eq_refl).
Defined.

(** X13.  Step 8 rewrites the first [NodeDefinition::new("a", "b")] of a
    text, with any whitespace around the two quoted arguments, into
    [NodeDefinition::new("a", "b", Version::new(1, 0, 0))]: the two
    arguments are kept as they are and the spacing becomes one blank after
    each comma. *)
Theorem new_call_gets_version (pre w1 a w2 w3 b w4 post : str) :
  forallb is_space w1 = true -> forallb is_space w2 = true ->
  forallb is_space w3 = true -> forallb is_space w4 = true ->
  a <> [] -> forallb not_dquote a = true ->
  b <> [] -> forallb not_dquote b = true ->
  contains (py "NodeDefinition::new(") pre = false ->
  fix_new (pre ++ py "NodeDefinition::new(" ++ w1 ++ [dquote] ++ a ++ [dquote] ++
           w2 ++ py "," ++ w3 ++ [dquote] ++ b ++ [dquote] ++ w4 ++ py ")" ++
           post) =
  pre ++ py "NodeDefinition::new(" ++ [dquote] ++ a ++ [dquote] ++ py ", " ++
  [dquote] ++ b ++ [dquote] ++ py ", Version::new(1, 0, 0))" ++ fix_new post.
Proof.
  intros H1 H2 H3 H4 Ha Hqa Hb Hqb Hpre.
  pose proof (attempt_new_shape false false w1 a w2 w3 b w4 (ch ")" :: post)
                H1 H2 H3 H4 Ha Hqa Hb Hqb eq_refl) as Hm.
  cbn iota in Hm. rewrite N.eqb_refl in Hm.
  set (M' := py "odeDefinition::new(" ++ w1 ++ dquote :: a ++ dquote :: w2 ++
             ch "," :: w3 ++ dquote :: b ++ dquote :: w4 ++ [ch ")"]).
  assert (E : forall y,
             py "NodeDefinition::new(" ++ w1 ++ [dquote] ++ a ++ [dquote] ++
             w2 ++ py "," ++ w3 ++ [dquote] ++ b ++ [dquote] ++ w4 ++ py ")" ++ y =
             ch "N" :: M' ++ y).
  { intro y. unfold M'.
    change (py ",") with [ch ","]. change (py ")") with [ch ")"].
    change (py "NodeDefinition::new(") with (ch "N" :: py "odeDefinition::new(").
    cbn [app]. repeat (rewrite <- app_assoc; cbn [app]). reflexivity. }
  rewrite E.
  rewrite (fix_new_first pre M' post [a; b] Hpre).
  - unfold add_version, slice_to, slice_from, group.
    cbn [m_start m_end m_groups firstn nth Nat.sub].
    change (S (List.length M')) with (List.length (ch "N" :: M')).
    rewrite skipn_all, app_nil_r. cbn [app].
    repeat (rewrite <- app_assoc; cbn [app]). reflexivity.
  - change (py "NodeDefinition::new(")
      with (ch "N" :: py "odeDefinition::new(") in Hm.
    cbn [app] in Hm. unfold M'.
    repeat (rewrite <- app_assoc; cbn [app]). rewrite Hm. do 2 f_equal.
    all: repeat (rewrite length_app; simpl List.length); lia.
Qed.

Lemma new_call_gets_version_witness :
  fix_new (py "let d = NodeDefinition::new( " ++ [dquote] ++ py "core.if" ++
           [dquote] ++ py "," ++ [dquote] ++ py "If" ++ [dquote] ++ py " );") =
  py "let d = NodeDefinition::new(" ++ [dquote] ++ py "core.if" ++ [dquote] ++
  py ", " ++ [dquote] ++ py "If" ++ [dquote] ++ py ", Version::new(1, 0, 0));".
Proof.
  exact (new_call_gets_version (py "let d = ") (py " ") (py "core.if") [] []
           (py "If") (py " ") (py ";") eq_refl eq_refl eq_refl eq_refl
           ltac:(discriminate) eq_refl ltac:(discriminate) eq_refl eq_refl).
Defined.

(** X14.  Step 8 changes a call only when the closing parenthesis follows
    the second quoted argument: the first [NodeDefinition::new("a", "b"]
    of a text that goes on with something else, such as the
    [, Version::new(1, 0, 0))] that step 8 itself writes, is left as it
    is.  (The two arguments do not themselves hold
    [NodeDefinition::new(].) *)
Theorem longer_new_call_kept (pre w1 a w2 w3 b w4 tail : str) :
  forallb is_space w1 = true -> forallb is_space w2 = true ->
  forallb is_space w3 = true -> forallb is_space w4 = true ->
  a <> [] -> forallb not_dquote a = true ->
  b <> [] -> forallb not_dquote b = true ->
  contains (py "NodeDefinition::new(") pre = false ->
  contains (py "NodeDefinition::new(") a = false ->
  contains (py "NodeDefinition::new(") b = false ->
  match tail with
  | d :: _ => is_space d = false /\ d <> ch ")"
  | [] => True
  end ->
  fix_new (pre ++ py "NodeDefinition::new(" ++ w1 ++ [dquote] ++ a ++ [dquote] ++
           w2 ++ py "," ++ w3 ++ [dquote] ++ b ++ [dquote] ++ w4 ++ tail) =
  pre ++ py "NodeDefinition::new(" ++ w1 ++ [dquote] ++ a ++ [dquote] ++
  w2 ++ py "," ++ w3 ++ [dquote] ++ b ++ [dquote] ++ w4 ++ fix_new tail.
Proof.
  intros H1 H2 H3 H4 Ha Hqa Hb Hqb Hpre Hca Hcb Ht.
  set (S0 := w1 ++ dquote :: a ++ dquote :: w2 ++ ch "," :: w3 ++
             dquote :: b ++ dquote :: w4).
  assert (E : forall y,
             py "NodeDefinition::new(" ++ w1 ++ [dquote] ++ a ++ [dquote] ++
             w2 ++ py "," ++ w3 ++ [dquote] ++ b ++ [dquote] ++ w4 ++ y =
             ch "N" :: (py "odeDefinition::new(" ++ S0) ++ y).
  { intro y. unfold S0.
    change (py ",") with [ch ","].
    change (py "NodeDefinition::new(") with (ch "N" :: py "odeDefinition::new(").
    cbn [app]. repeat (rewrite <- app_assoc; cbn [app]). reflexivity. }
  rewrite !E. apply fix_new_keeps; [exact Hpre|].
  intros j Hj. destruct j as [|j].
  - cbn [skipn].
    pose proof (attempt_new_shape false false w1 a w2 w3 b w4 tail
                  H1 H2 H3 H4 Ha Hqa Hb Hqb) as Hm.
    change (py "NodeDefinition::new(")
      with (ch "N" :: py "odeDefinition::new(") in Hm.
    cbn [app] in Hm. unfold S0. cbn [app].
    repeat (rewrite <- app_assoc; cbn [app]). rewrite Hm.
    + destruct tail as [|d rest]; [reflexivity|].
      destruct Ht as [_ Hd]. now apply N.eqb_neq in Hd as ->.
    + destruct tail as [|d rest]; [exact I|apply Ht].
  - apply attempt_needs_literal. cbn [skipn].
    destruct (Nat.lt_ge_cases j 19) as [Hlt|Hge].
    + clear Hj. do 19 (destruct j as [|j]; [reflexivity|]). lia.
    + replace j with (List.length (py "odeDefinition::new(") + (j - 19))%nat
        by (simpl; lia).
      rewrite skipn_app_len.
      apply new_args_no_start; try assumption.
      rewrite length_app in Hj. simpl in Hj. fold S0. lia.
Qed.

Lemma longer_new_call_kept_witness :
  fix_new (py "NodeDefinition::new(" ++ [dquote] ++ py "core.if" ++ [dquote] ++
           py ", " ++ [dquote] ++ py "If" ++ [dquote] ++
           py ", Version::new(1, 0, 0));") =
  py "NodeDefinition::new(" ++ [dquote] ++ py "core.if" ++ [dquote] ++
  py ", " ++ [dquote] ++ py "If" ++ [dquote] ++ py ", Version::new(1, 0, 0));".
Proof.
  pose proof (longer_new_call_kept [] [] (py "core.if") [] (py " ") (py "If") []
                (py ", Version::new(1, 0, 0));")) as H.
  vm_compute in H. vm_compute.
  apply H; try reflexivity; try discriminate.
  split; [reflexivity|discriminate].
Defined.

(** X15.  After step 6, every [NodeProperty::builder()] of the text is
    followed by a chain that holds [.build()]: the scan that the step runs
    from the end of an invocation, run on the output, finds [.build()]
    before it stops. *)
Theorem builders_all_built (content a u : str) :
  fix_builders content = a ++ py "NodeProperty::builder()" ++ u ->
  contains (py ".build()") (firstn (scan_chain u 0 0) u) = true.
Proof.
  intro H.
  pose proof (fix_builders_built (List.length content) content (le_n _)) as Hb.
  rewrite H in Hb. clear H. fold (has_build u).
  induction a as [|c a IH].
  - cbn [app] in Hb. rewrite built_after_literal in Hb.
    now apply andb_true_iff in Hb as [Hb _].
  - apply IH. cbn [app built] in Hb.
    now apply andb_true_iff in Hb as [_ Hb].
Qed.

Lemma builders_all_built_witness :
  contains (py ".build()")
           (firstn (scan_chain (py ".name(x).build(), y") 0 0)
                   (py ".name(x).build(), y")) = true.
Proof.
  apply (builders_all_built (py "f(NodeProperty::builder().name(x), y")
           (py "f(") (py ".name(x).build(), y")).
  vm_compute. reflexivity.
Defined.

End StepProperties.
